(** * CSV upload service: the browser client and the Express file store

    A shallow embedding of [backend/server.js] (the File Store Service) and of
    the browser script (the Upload Client), with the properties their
    specification states about them.

    Layout: JavaScript string primitives; Node's POSIX [path.join]; the disk
    and the handler monad; the server's handlers and route table; the
    client's UI state and listeners (the upload form, then the file list,
    download, delete and health); then the theorems. *)

From Stdlib Require Import String Ascii ZArith NArith List Lia Bool.
From Stdlib Require Import DecimalString DecimalPos.
From stdpp Require Import gmap strings.

Local Open Scope Z_scope.

(* ===================================================================== *)
(** ** JavaScript string primitives used by both programs *)
(* ===================================================================== *)

Module JS.

(** [s.startsWith(p)] *)
Definition startsWith (s p : string) : bool := String.prefix p s.

(** [s.endsWith(t)]: [t] is no longer than [s] and the last [t.length]
    characters of [s] are [t]. *)
Definition endsWith (s t : string) : bool :=
  let n := String.length s in
  let m := String.length t in
  (m <=? n)%nat && String.eqb (String.substring (n - m) m s) t.

(** [s.lastIndexOf(c)] for a one-character [c]; [-1] when absent. *)
Fixpoint lastIndexOf_from (c : ascii) (s : string) (i acc : Z) : Z :=
  match s with
  | EmptyString => acc
  | String a s' =>
      lastIndexOf_from c s' (i + 1) (if Ascii.eqb a c then i else acc)
  end.

Definition lastIndexOf (s : string) (c : ascii) : Z :=
  lastIndexOf_from c s 0 (-1).

(** [s.slice(0, k)] for [0 <= k]. *)
Definition slice0 (s : string) (k : Z) : string :=
  String.substring 0 (Z.to_nat k) s.

(** [s.charCodeAt(i) === c] *)
Definition charAt_is (s : string) (i : Z) (c : ascii) : bool :=
  if i <? 0 then false
  else match String.get (Z.to_nat i) s with
       | Some a => Ascii.eqb a c
       | None => false
       end.

Definition len (s : string) : Z := Z.of_nat (String.length s).

(** The template-literal rendering [`${n}`] of an integral Number below
    1e21 in magnitude: its decimal digits, with a leading minus sign when
    negative. *)
Definition Number_toString (n : Z) : string :=
  NilZero.string_of_int (Z.to_int n).

End JS.

(* ===================================================================== *)
(** ** Node's [path] module (POSIX flavour)

    [server.js] calls [path.join] only.  The definitions follow
    [lib/path.js] of the Node runtime: [join] concatenates its non-empty
    arguments with ["/"] and hands the result to [normalize], which scans
    the characters once ([normalizeString]).

    The scan's JavaScript variables [i] and [lastSlash] are represented by
    the segment read since the last separator: [seg] is
    [path.slice(lastSlash + 1, i)], so [lastSlash === i - 1] reads
    [seg = ""] and [i - lastSlash - 1] reads [length seg]. *)
(* ===================================================================== *)

Module path.

Record scan := {
  res : string;
  lastSegmentLength : Z;
  seg : string;
  dots : Z
}.

Definition scan0 : scan :=
  {| res := ""; lastSegmentLength := 0; seg := ""; dots := 0 |}.

Definition CHAR_DOT : ascii := "."%char.
Definition CHAR_FORWARD_SLASH : ascii := "/"%char.

Definition isPosixPathSeparator (c : ascii) : bool :=
  Ascii.eqb c CHAR_FORWARD_SLASH.

(** The body of the loop when [code] is a separator.  Every branch ends
    with [lastSlash = i; dots = 0], here [seg := ""; dots := 0]. *)
Definition at_separator (allowAboveRoot : bool) (st : scan) : scan :=
  let r := res st in
  if String.eqb (seg st) "" || (dots st =? 1) then
    {| res := r; lastSegmentLength := lastSegmentLength st;
       seg := ""; dots := 0 |}
  else if dots st =? 2 then
    if (JS.len r <? 2) || negb (lastSegmentLength st =? 2)
       || negb (JS.charAt_is r (JS.len r - 1) CHAR_DOT)
       || negb (JS.charAt_is r (JS.len r - 2) CHAR_DOT)
    then
      if 2 <? JS.len r then
        let lastSlashIndex := JS.lastIndexOf r CHAR_FORWARD_SLASH in
        if lastSlashIndex =? -1 then
          {| res := ""; lastSegmentLength := 0; seg := ""; dots := 0 |}
        else
          let r' := JS.slice0 r lastSlashIndex in
          {| res := r';
             lastSegmentLength :=
               JS.len r' - 1 - JS.lastIndexOf r' CHAR_FORWARD_SLASH;
             seg := ""; dots := 0 |}
      else if negb (JS.len r =? 0) then
        {| res := ""; lastSegmentLength := 0; seg := ""; dots := 0 |}
      else if allowAboveRoot then
        {| res := (if 0 <? JS.len r then r +:+ "/.." else "..");
           lastSegmentLength := 2; seg := ""; dots := 0 |}
      else
        {| res := r; lastSegmentLength := lastSegmentLength st;
           seg := ""; dots := 0 |}
    else if allowAboveRoot then
      {| res := (if 0 <? JS.len r then r +:+ "/.." else "..");
         lastSegmentLength := 2; seg := ""; dots := 0 |}
    else
      {| res := r; lastSegmentLength := lastSegmentLength st;
         seg := ""; dots := 0 |}
  else
    {| res := (if 0 <? JS.len r then r +:+ "/" +:+ seg st else seg st);
       lastSegmentLength := JS.len (seg st);
       seg := ""; dots := 0 |}.

(** The body of the loop for any other character. *)
Definition at_char (c : ascii) (st : scan) : scan :=
  {| res := res st;
     lastSegmentLength := lastSegmentLength st;
     seg := seg st +:+ String c "";
     dots := if Ascii.eqb c CHAR_DOT && negb (dots st =? -1)
             then dots st + 1 else -1 |}.

Definition step (allowAboveRoot : bool) (c : ascii) (st : scan) : scan :=
  if isPosixPathSeparator c then at_separator allowAboveRoot st
  else at_char c st.

Fixpoint scan_chars (allowAboveRoot : bool) (p : string) (st : scan)
  : scan :=
  match p with
  | EmptyString => st
  | String c p' => scan_chars allowAboveRoot p' (step allowAboveRoot c st)
  end.

(** Is the last character of [p] a separator?  ([false] on [""].) *)
Definition trailingSeparator (p : string) : bool :=
  JS.charAt_is p (JS.len p - 1) CHAR_FORWARD_SLASH.

(** [normalizeString(path, allowAboveRoot, '/', isPosixPathSeparator)].
    The iteration [i = path.length] breaks when the last character was a
    separator and otherwise runs the separator branch once more. *)
Definition normalizeString (p : string) (allowAboveRoot : bool) : string :=
  let st := scan_chars allowAboveRoot p scan0 in
  res (if trailingSeparator p then st else at_separator allowAboveRoot st).

Definition normalize (p : string) : string :=
  if String.eqb p "" then "."
  else
    let isAbsolute := JS.charAt_is p 0 CHAR_FORWARD_SLASH in
    let trailing := trailingSeparator p in
    let q := normalizeString p (negb isAbsolute) in
    if String.eqb q "" then
      if isAbsolute then "/" else if trailing then "./" else "."
    else
      let q' := if trailing then q +:+ "/" else q in
      if isAbsolute then "/" +:+ q' else q'.

(** [path.join(...args)] *)
Definition join (args : list string) : string :=
  let joined :=
    fold_left
      (fun (j : option string) (arg : string) =>
         if String.eqb arg "" then j
         else match j with
              | None => Some arg
              | Some s => Some (s +:+ "/" +:+ arg)
              end)
      args None in
  match joined with
  | None => "."
  | Some s => normalize s
  end.

End path.

(* ===================================================================== *)
(** ** The world a handler runs in: disk, wall clock, I/O failures *)
(* ===================================================================== *)

(** What a JavaScript statement sequence does: it returns a value or throws
    (the string is [error.message]). *)
Inductive outcome (A : Type) : Type :=
| Return (a : A)
| Throw (message : string).
Arguments Return {A} a.
Arguments Throw {A} message.

Module fs.

(** A directory entry.  Files carry their bytes; both kinds carry the
    times [fs.statSync] reports (milliseconds since the epoch). *)
Inductive node : Type :=
| File (data : string) (birthtime mtime : Z)
| Dir (size birthtime mtime : Z).

Record Stats := {
  size : Z;
  birthtime : Z;
  mtime : Z
}.

(** - [disk] maps a path to its entry.  Paths are resolved as Node's
      [path.normalize] does and without a trailing separator; there are
      no symbolic links, and a relative and an absolute spelling of one
      file are two keys.
    - [clock] is what the wall clock reads now ([Date.now()],
      [new Date()]).  It moves while a writing call runs.
    - [io_errors] scripts the next writing calls ([copyFileSync],
      [unlinkSync]): [true] makes the call throw for a reason the disk
      does not show (EACCES, ENOSPC, EIO); past the end nothing fails.
    - [io_times] scripts the time of the next writing calls: the time
      the file system stamps on what the call writes, and what the wall
      clock reads when the call returns.  The two are separate readings
      and neither is bound to the clock's reading before the call (the
      file system keeps its own, coarser time and the wall clock can be
      set); past the end both are the present reading of the clock. *)
Record world := {
  disk : gmap string node;
  clock : Z;
  io_errors : list bool;
  io_times : list (Z * Z)
}.

Definition M (A : Type) : Type := world -> outcome A * world.

Definition stats_of (n : node) : Stats :=
  match n with
  | File data b m => {| size := JS.len data; birthtime := b; mtime := m |}
  | Dir s b m => {| size := s; birthtime := b; mtime := m |}
  end.

(** The key a path string resolves to. *)
Definition key (p : string) : string :=
  let q := path.normalize p in
  if path.trailingSeparator q && negb (String.eqb q "/")
  then JS.slice0 q (JS.len q - 1) else q.

(** The entry a path denotes: none for the empty path, and a path that
    ends with a separator denotes directories only. *)
Definition entry (p : string) (w : world) : option node :=
  if String.eqb p "" then None
  else match disk w !! key p with
       | Some (File d b m) =>
           if path.trailingSeparator p then None else Some (File d b m)
       | other => other
       end.

Definition dirname (k : string) : string :=
  let i := JS.lastIndexOf k path.CHAR_FORWARD_SLASH in
  if i =? -1 then "." else if i =? 0 then "/" else JS.slice0 k i.

Definition basename (k : string) : string :=
  let i := JS.lastIndexOf k path.CHAR_FORWARD_SLASH in
  String.substring (Z.to_nat (i + 1)) (String.length k) k.

(** The names directly under the directory with key [d]. *)
Definition children (d : string) (m : gmap string node) : list string :=
  omap (fun kv : string * node =>
          let k := kv.1 in
          let b := basename k in
          if String.eqb (dirname k) d && negb (String.eqb k d)
             && negb (String.eqb b "") && negb (String.eqb b ".")
             && negb (String.eqb b "..")
          then Some b else None)
       (map_to_list m).

(** The times of the next writing call: the file system's stamp and the
    wall clock's reading at its return. *)
Definition io_time (w : world) : Z * Z :=
  hd (clock w, clock w) (io_times w).

(** Takes the next scripted failure; the call has run and the clock has
    moved. *)
Definition io_error : M bool := fun w =>
  (Return (hd false (io_errors w)),
   {| disk := disk w; clock := (io_time w).2;
      io_errors := tl (io_errors w); io_times := tl (io_times w) |}).

Definition set_disk (d : gmap string node) : M unit := fun w =>
  (Return tt, {| disk := d; clock := clock w; io_errors := io_errors w;
                 io_times := io_times w |}).

(** [fs.existsSync(p)]: never throws. *)
Definition existsSync (p : string) : M bool := fun w =>
  (Return (bool_decide (is_Some (entry p w))), w).

(** [fs.statSync(p)] *)
Definition statSync (p : string) : M Stats := fun w =>
  match entry p w with
  | Some n => (Return (stats_of n), w)
  | None => (Throw "ENOENT: no such file or directory", w)
  end.

(** [fs.unlinkSync(p)]: removes a file; throws on a directory, on a
    missing path, and when the next scripted failure says so. *)
Definition unlinkSync (p : string) : M unit := fun w =>
  match io_error w with
  | (Return true, w1) => (Throw "EIO: i/o error, unlink", w1)
  | (_, w1) =>
      match entry p w1 with
      | Some (File _ _ _) => set_disk (delete (key p) (disk w1)) w1
      | Some (Dir _ _ _) =>
          (Throw "EISDIR: illegal operation on a directory, unlink", w1)
      | None => (Throw "ENOENT: no such file or directory, unlink", w1)
      end
  end.

(** [fs.copyFileSync(src, dest)]: [src] must be a file, the directory of
    [dest] must exist and [dest] must not be a directory; [dest] is
    created or overwritten with the bytes of [src] and carries the file
    system's time of the call. *)
Definition copyFileSync (src dest : string) : M unit := fun w =>
  let stamp := (io_time w).1 in
  match io_error w with
  | (Return true, w1) => (Throw "EIO: i/o error, copyfile", w1)
  | (_, w1) =>
      match entry src w1 with
      | Some (File data _ _) =>
          if String.eqb dest "" || path.trailingSeparator dest then
            (Throw "ENOENT: no such file or directory, copyfile", w1)
          else
            match disk w1 !! dirname (key dest) with
            | Some (Dir _ _ _) =>
                match disk w1 !! key dest with
                | Some (Dir _ _ _) =>
                    (Throw "EISDIR: illegal operation on a directory, copyfile", w1)
                | Some (File _ b _) =>
                    set_disk (<[key dest := File data b stamp]> (disk w1)) w1
                | None =>
                    set_disk (<[key dest := File data stamp stamp]> (disk w1)) w1
                end
            | _ => (Throw "ENOENT: no such file or directory, copyfile", w1)
            end
      | Some (Dir _ _ _) =>
          (Throw "EISDIR: illegal operation on a directory, copyfile", w1)
      | None => (Throw "ENOENT: no such file or directory, copyfile", w1)
      end
  end.

(** [fs.readdirSync(p)] *)
Definition readdirSync (p : string) : M (list string) := fun w =>
  match entry p w with
  | Some (Dir _ _ _) => (Return (children (key p) (disk w)), w)
  | Some (File _ _ _) => (Throw "ENOTDIR: not a directory, scandir", w)
  | None => (Throw "ENOENT: no such file or directory, scandir", w)
  end.

(** [Date.now()], also the instant of [new Date()]: the present reading of
    the wall clock. *)
Definition Date_now : M Z := fun w => (Return (clock w), w).

End fs.

Import fs(world, M).

#[global] Instance M_ret : MRet fs.M := fun A a w => (Return a, w).
#[global] Instance M_bind : MBind fs.M := fun A B f m w =>
  match m w with
  | (Return a, w') => f a w'
  | (Throw e, w') => (Throw e, w')
  end.

(** [try { body } catch (error) { handler }] *)
Definition try_catch {A} (body : fs.M A) (handler : string -> fs.M A) : fs.M A :=
  fun w =>
    match body w with
    | (Throw e, w') => handler e w'
    | r => r
    end.

(** [xs.map(f)] for an [f] that may throw. *)
Fixpoint mapM {A B} (f : A -> fs.M B) (xs : list A) : fs.M (list B) :=
  match xs with
  | [] => mret []
  | x :: xs' => y ← f x; ys ← mapM f xs'; mret (y :: ys)
  end.

(* ===================================================================== *)
(** ** The File Store Service ([backend/server.js]) *)
(* ===================================================================== *)

(** Response bodies.  [JTime ms] is the ISO-8601 text of the instant [ms]
    (what [toISOString()] returns and what [res.json] writes for a Date). *)
#[warnings="-register-all"]
Inductive json : Type :=
| JBool (b : bool)
| JNum (n : Z)
| JStr (s : string)
| JTime (ms : Z)
| JObj (fields : list (string * json))
| JArr (items : list json).

(** What a handler does with [res]: [res.status(code).json(value)], or
    [res.download(filePath)], on which Express streams the file at
    [filePath] as an attachment (status 200 when it is a readable file). *)
Inductive response : Type :=
| Answer (status : Z) (value : json)
| Download (filePath : string).

Fixpoint field (name : string) (fields : list (string * json)) : option json :=
  match fields with
  | [] => None
  | (k, v) :: rest => if String.eqb k name then Some v else field name rest
  end.

(** The member [name] of a JSON object response. *)
Definition member (name : string) (r : response) : option json :=
  match r with
  | Answer _ (JObj fields) => field name fields
  | _ => None
  end.

Module multer.
(** [req.file] as [upload.single('csv')] leaves it: the part's file name,
    the temporary file multer wrote under [/tmp/uploads/], its size. *)
Record file := {
  originalname : string;
  path : string;
  size : Z
}.
End multer.

(** The request methods the route table is modelled for (OPTIONS, which
    Express answers by itself, is left out). *)
Inductive verb : Type := GET | HEAD | POST | PUT | PATCH | DELETE.

Definition verb_name (m : verb) : string :=
  match m with
  | GET => "GET" | HEAD => "HEAD" | POST => "POST" | PUT => "PUT"
  | PATCH => "PATCH" | DELETE => "DELETE"
  end.

(** A request as the routes see it, without a JSON body for
    [express.json()] to parse: [path] is [req.path] as sent; [url] lists its
    non-empty segments, percent-decoded as Express decodes route
    parameters; [file] is [req.file], what [upload.single('csv')] leaves
    when the upload route runs. *)
Record request := {
  method : verb;
  path : string;
  url : list string;
  file : option multer.file
}.

(** [process.env.UPLOAD_DIR || './uploads'] *)
Definition LOCAL_UPLOAD_DIR_of (UPLOAD_DIR : option string) : string :=
  match UPLOAD_DIR with
  | Some d => if String.eqb d "" then "./uploads" else d
  | None => "./uploads"
  end.

Definition res_json (code : Z) (fields : list (string * json)) : response :=
  Answer code (JObj fields).

Section Server.

Variable LOCAL_UPLOAD_DIR : string.

(** [app.get('/health', ...)] *)
Definition health : fs.M response :=
  now ← fs.Date_now;
  mret (res_json 200 [("status", JStr "ok");
                      ("timestamp", JTime now);
                      ("service", JStr "csv-upload")]).

(** [app.post('/upload', upload.single('csv'), ...)] *)
Definition handleUpload (req : request) : fs.M response :=
  try_catch
    (match file req with
     | None =>
         mret (res_json 400 [("success", JBool false);
                             ("error", JStr "No file provided")])
     | Some f =>
         if negb (JS.endsWith (multer.originalname f) ".csv") then
           fs.unlinkSync (multer.path f);;
           mret (res_json 400 [("success", JBool false);
                               ("error", JStr "Only CSV files are allowed")])
         else
           now ← fs.Date_now;
           let fileName :=
             JS.Number_toString now +:+ "-" +:+ multer.originalname f in
           let filePath := path.join [LOCAL_UPLOAD_DIR; fileName] in
           fs.copyFileSync (multer.path f) filePath;;
           fs.unlinkSync (multer.path f);;
           uploadedAt ← fs.Date_now;
           mret (res_json 200 [("success", JBool true);
                               ("message", JStr "File uploaded successfully");
                               ("fileName", JStr (multer.originalname f));
                               ("savedAs", JStr fileName);
                               ("size", JNum (multer.size f));
                               ("path", JStr filePath);
                               ("uploadedAt", JTime uploadedAt)])
     end)
    (fun error =>
       (match file req with
        | Some f =>
            there ← fs.existsSync (multer.path f);
            if (there : bool) then fs.unlinkSync (multer.path f) else mret tt
        | None => mret tt
        end : fs.M unit);;
       mret (res_json 500 [("success", JBool false);
                           ("error", JStr "Failed to upload file");
                           ("message", JStr error)])).

Definition describe (fileName filePath : string) (stats : fs.Stats) : json :=
  JObj [("fileName", JStr fileName);
        ("size", JNum (fs.size stats));
        ("createdAt", JTime (fs.birthtime stats));
        ("modifiedAt", JTime (fs.mtime stats));
        ("path", JStr filePath)].

(** [app.get('/files', ...)] *)
Definition listFiles : fs.M response :=
  try_catch
    (files ← fs.readdirSync LOCAL_UPLOAD_DIR;
     fileDetails ←
       mapM (fun fileName =>
               let filePath := path.join [LOCAL_UPLOAD_DIR; fileName] in
               stats ← fs.statSync filePath;
               mret (describe fileName filePath stats))
            files;
     mret (res_json 200 [("success", JBool true);
                         ("message", JStr "Files listed successfully");
                         ("directory", JStr LOCAL_UPLOAD_DIR);
                         ("fileCount", JNum (Z.of_nat (length fileDetails)));
                         ("files", JArr fileDetails)]))
    (fun error =>
       mret (res_json 500 [("success", JBool false);
                           ("error", JStr "Failed to list files");
                           ("message", JStr error)])).

Definition accessDenied : response :=
  res_json 403 [("success", JBool false); ("error", JStr "Access denied")].

Definition fileNotFound : response :=
  res_json 404 [("success", JBool false); ("error", JStr "File not found")].

(** [app.get('/files/:fileName', ...)] *)
Definition getFileMetadata (fileName : string) : fs.M response :=
  try_catch
    (let filePath := path.join [LOCAL_UPLOAD_DIR; fileName] in
     if negb (JS.startsWith filePath LOCAL_UPLOAD_DIR) then mret accessDenied
     else
       there ← fs.existsSync filePath;
       if negb there then mret fileNotFound
       else
         stats ← fs.statSync filePath;
         mret (res_json 200 [("success", JBool true);
                             ("file", describe fileName filePath stats)]))
    (fun error =>
       mret (res_json 500 [("success", JBool false);
                           ("error", JStr "Failed to get file details");
                           ("message", JStr error)])).

(** [app.get('/download/:fileName', ...)] *)
Definition downloadFile (fileName : string) : fs.M response :=
  try_catch
    (let filePath := path.join [LOCAL_UPLOAD_DIR; fileName] in
     if negb (JS.startsWith filePath LOCAL_UPLOAD_DIR) then mret accessDenied
     else
       there ← fs.existsSync filePath;
       if negb there then mret fileNotFound
       else mret (Download filePath))
    (fun error =>
       mret (res_json 500 [("success", JBool false);
                           ("error", JStr "Failed to download file");
                           ("message", JStr error)])).

(** [app.get('/live', ...)] *)
Definition liveness : fs.M response :=
  mret (res_json 200 [("live", JBool true)]).

(** [app.get('/ready', ...)] *)
Definition readiness : fs.M response :=
  try_catch
    (there ← fs.existsSync LOCAL_UPLOAD_DIR;
     if (there : bool)
     then mret (res_json 200 [("ready", JBool true);
                              ("storage", JStr "available")])
     else mret (res_json 503 [("ready", JBool false);
                              ("storage", JStr "unavailable")]))
    (fun error =>
       mret (res_json 503 [("ready", JBool false);
                           ("error", JStr error)])).

(** The last [app.use]: no route matched. *)
Definition notFound (req : request) : fs.M response :=
  mret (res_json 404
          [("success", JBool false);
           ("error", JStr "Not found");
           ("path", JStr (path req));
           ("method", JStr (verb_name (method req)))]).

Definition lower (c : ascii) : ascii :=
  let n := nat_of_ascii c in
  if ((65 <=? n) && (n <=? 90))%nat then ascii_of_nat (n + 32) else c.

Fixpoint lowercase (s : string) : string :=
  match s with
  | EmptyString => EmptyString
  | String c s' => String (lower c) (lowercase s')
  end.

(** A literal route segment: Express compares without regard to case. *)
Definition lit (segment literal : string) : bool :=
  String.eqb (lowercase segment) literal.

(** The route table, in registration order, for a request that
    [express.static] passed on (it answers GET and HEAD only, and only for
    files present under [public/]).  Express runs the [app.get] routes for
    HEAD requests too. *)
Definition app (req : request) : fs.M response :=
  match method req, url req with
  | (GET | HEAD), [a] =>
      if lit a "health" then health
      else if lit a "files" then listFiles
      else if lit a "live" then liveness
      else if lit a "ready" then readiness
      else notFound req
  | POST, [a] =>
      if lit a "upload" then handleUpload req else notFound req
  | (GET | HEAD), [a; fileName] =>
      if lit a "files" then getFileMetadata fileName
      else if lit a "download" then downloadFile fileName
      else notFound req
  | _, _ => notFound req
  end.

End Server.

(* ===================================================================== *)
(** ** [JSON.parse], as far as the client depends on it

    The upload listener discards the parsed value, so only whether
    [JSON.parse(text)] returns or throws SyntaxError matters.  [valid]
    recognises the JSON grammar of ECMA-404: a value between optional white
    space. *)
(* ===================================================================== *)

Module JSON.

Definition DQUOTE : ascii := ascii_of_nat 34.
Definition BACKSLASH : ascii := ascii_of_nat 92.

Definition code_in (lo hi : nat) (c : ascii) : bool :=
  let n := nat_of_ascii c in ((lo <=? n) && (n <=? hi))%nat.

Definition is_ws (c : ascii) : bool :=
  let n := nat_of_ascii c in
  ((n =? 32) || (n =? 9) || (n =? 10) || (n =? 13))%nat.
Definition is_digit : ascii -> bool := code_in 48 57.
Definition is_hex (c : ascii) : bool :=
  is_digit c || code_in 97 102 c || code_in 65 70 c.

Fixpoint skip_ws (s : string) : string :=
  match s with
  | String c s' => if is_ws c then skip_ws s' else s
  | EmptyString => s
  end.

Fixpoint skip_digits (s : string) : string :=
  match s with
  | String c s' => if is_digit c then skip_digits s' else s
  | EmptyString => s
  end.

(** One or more digits. *)
Definition digits1 (s : string) : option string :=
  match s with
  | String c s' => if is_digit c then Some (skip_digits s') else None
  | EmptyString => None
  end.

Definition exponent (s : string) : option string :=
  match s with
  | String c s' =>
      if Ascii.eqb c "e" || Ascii.eqb c "E" then
        match s' with
        | String sign s'' =>
            if Ascii.eqb sign "+" || Ascii.eqb sign "-"
            then digits1 s'' else digits1 s'
        | EmptyString => None
        end
      else Some s
  | EmptyString => Some s
  end.

Definition fraction (s : string) : option string :=
  match s with
  | String c s' =>
      if Ascii.eqb c "." then
        match digits1 s' with
        | Some r => exponent r
        | None => None
        end
      else exponent s
  | EmptyString => Some s
  end.

(** An optional minus sign; [0] or a digit string with no leading zero;
    an optional fraction; an optional exponent. *)
Definition number (s : string) : option string :=
  let s1 := match s with
            | String c s' => if Ascii.eqb c "-" then s' else s
            | EmptyString => s
            end in
  match s1 with
  | String c s' =>
      if Ascii.eqb c "0" then fraction s'
      else if is_digit c then fraction (skip_digits s')
      else None
  | EmptyString => None
  end.

(** The rest of a string literal, after its opening quote. *)
Fixpoint string_body (s : string) : option string :=
  match s with
  | EmptyString => None
  | String c r =>
      if Ascii.eqb c DQUOTE then Some r
      else if Ascii.eqb c BACKSLASH then
        match r with
        | String e r' =>
            if Ascii.eqb e DQUOTE || Ascii.eqb e BACKSLASH
               || Ascii.eqb e "/" || Ascii.eqb e "b" || Ascii.eqb e "f"
               || Ascii.eqb e "n" || Ascii.eqb e "r" || Ascii.eqb e "t"
            then string_body r'
            else if Ascii.eqb e "u" then
              match r' with
              | String h1 (String h2 (String h3 (String h4 r''))) =>
                  if is_hex h1 && is_hex h2 && is_hex h3 && is_hex h4
                  then string_body r'' else None
              | _ => None
              end
            else None
        | EmptyString => None
        end
      else if (nat_of_ascii c <? 32)%nat then None
      else string_body r
  end.

(** The text after the keyword [k], when [s] begins with it. *)
Fixpoint keyword (k s : string) : option string :=
  match k, s with
  | EmptyString, _ => Some s
  | String a k', String b s' => if Ascii.eqb a b then keyword k' s' else None
  | String _ _, EmptyString => None
  end.

(** [value], [members] (after ["{"]) and [elements] (after ["["]) return
    the text left after what they read.  [fuel] bounds the depth of the
    calls; a call passes on a shorter text, except [elements], which hands
    its own text to [value], so twice the length of the text is enough
    ([fuel_enough] below). *)
Fixpoint value (fuel : nat) (s : string) : option string :=
  match fuel with
  | O => None
  | S n =>
      match skip_ws s with
      | EmptyString => None
      | String c r as t =>
          if Ascii.eqb c "{" then
            match skip_ws r with
            | String c' r' =>
                if Ascii.eqb c' "}" then Some r' else members n (String c' r')
            | EmptyString => None
            end
          else if Ascii.eqb c "[" then
            match skip_ws r with
            | String c' r' =>
                if Ascii.eqb c' "]" then Some r' else elements n (String c' r')
            | EmptyString => None
            end
          else if Ascii.eqb c DQUOTE then string_body r
          else if Ascii.eqb c "t" then keyword "true" t
          else if Ascii.eqb c "f" then keyword "false" t
          else if Ascii.eqb c "n" then keyword "null" t
          else number t
      end
  end
with members (fuel : nat) (s : string) : option string :=
  match fuel with
  | O => None
  | S n =>
      match skip_ws s with
      | String c r =>
          if Ascii.eqb c DQUOTE then
            match string_body r with
            | Some r1 =>
                match skip_ws r1 with
                | String colon r2 =>
                    if Ascii.eqb colon ":" then
                      match value n r2 with
                      | Some r3 =>
                          match skip_ws r3 with
                          | String d r4 =>
                              if Ascii.eqb d "," then members n r4
                              else if Ascii.eqb d "}" then Some r4
                              else None
                          | EmptyString => None
                          end
                      | None => None
                      end
                    else None
                | EmptyString => None
                end
            | None => None
            end
          else None
      | EmptyString => None
      end
  end
with elements (fuel : nat) (s : string) : option string :=
  match fuel with
  | O => None
  | S n =>
      match value n s with
      | Some r1 =>
          match skip_ws r1 with
          | String d r2 =>
              if Ascii.eqb d "," then elements n r2
              else if Ascii.eqb d "]" then Some r2
              else None
          | EmptyString => None
          end
      | None => None
      end
  end.

(** [JSON.parse(text)] returns ([true]) or throws SyntaxError ([false]). *)
Definition valid (text : string) : bool :=
  match value (2 * String.length text + 2) text with
  | Some rest => String.eqb (skip_ws rest) ""
  | None => false
  end.

End JSON.

(* ===================================================================== *)
(** ** The Upload Client (the browser script) *)
(* ===================================================================== *)

Module Client.

(** A [File] of the browser: its name, its size in bytes, and a handle on
    its bytes. *)
Record File := {
  name : string;
  size : N;
  blob : string
}.

(** A request handed to the browser: [xhr.open(method, url)] followed by
    [xhr.send(formData)], or [fetch(url)]. *)
Record call := {
  call_method : verb;
  call_origin : string;
  call_path : string;
  call_form : list (string * File)
}.

(** The script's state: [selectedFile] and the DOM properties it writes.
    [toast] holds [toast.textContent] and the type in its class name;
    [progress] holds the [loaded] and [total] that [updateProgress] last
    rendered, [None] standing for the reset ['0%']; [sent] lists the
    requests issued, oldest first. *)
Record ui := {
  selectedFile : option File;
  toast : option (string * string);
  file_name : string;
  file_size : string;
  fileInfo_hidden : bool;
  uploadBtn_disabled : bool;
  fileInput_value : string;
  progressContainer_hidden : bool;
  progress : option (N * N);
  loadingState_hidden : bool;
  filesContainer_hidden : bool;
  emptyState_hidden : bool;
  sent : list call
}.

Definition N_toString (n : N) : string :=
  NilZero.string_of_uint (N.to_uint n).

(** [(size / 1024).toFixed(2)].  For [size < 2^53] the quotient is exact
    in binary floating point, and [toFixed(2)] takes the integer [n] with
    [n / 100] nearest to it, the larger one on a tie; it then prints [n]
    with a point before its last two digits. *)
Definition kilobytes_toFixed2 (size : N) : string :=
  let n := ((size * 100 + 512) / 1024)%N in
  let cents := (n mod 100)%N in
  N_toString (n / 100) +:+ "." +:+
  (if (cents <? 10)%N then "0" else "") +:+ N_toString cents.

Definition showToast (message type : string) (u : ui) : ui :=
  {| selectedFile := selectedFile u;
     toast := Some (message, type);
     file_name := file_name u;
     file_size := file_size u;
     fileInfo_hidden := fileInfo_hidden u;
     uploadBtn_disabled := uploadBtn_disabled u;
     fileInput_value := fileInput_value u;
     progressContainer_hidden := progressContainer_hidden u;
     progress := progress u;
     loadingState_hidden := loadingState_hidden u;
     filesContainer_hidden := filesContainer_hidden u;
     emptyState_hidden := emptyState_hidden u;
     sent := sent u |}.

Definition displayFileInfo (file : File) (u : ui) : ui :=
  {| selectedFile := selectedFile u;
     toast := toast u;
     file_name := name file;
     file_size := kilobytes_toFixed2 (size file) +:+ " KB";
     fileInfo_hidden := false;
     uploadBtn_disabled := false;
     fileInput_value := fileInput_value u;
     progressContainer_hidden := progressContainer_hidden u;
     progress := progress u;
     loadingState_hidden := loadingState_hidden u;
     filesContainer_hidden := filesContainer_hidden u;
     emptyState_hidden := emptyState_hidden u;
     sent := sent u |}.

Definition set_selectedFile (f : option File) (u : ui) : ui :=
  {| selectedFile := f;
     toast := toast u;
     file_name := file_name u;
     file_size := file_size u;
     fileInfo_hidden := fileInfo_hidden u;
     uploadBtn_disabled := uploadBtn_disabled u;
     fileInput_value := fileInput_value u;
     progressContainer_hidden := progressContainer_hidden u;
     progress := progress u;
     loadingState_hidden := loadingState_hidden u;
     filesContainer_hidden := filesContainer_hidden u;
     emptyState_hidden := emptyState_hidden u;
     sent := sent u |}.

(** [handleFileDrop(files)] *)
Definition handleFileDrop (files : list File) (u : ui) : ui :=
  match files with
  | [] => u
  | file :: _ =>
      if negb (JS.endsWith (name file) ".csv") then
        showToast "Please select a CSV file" "error" u
      else if (100 * 1024 * 1024 <? size file)%N then
        showToast "File size must be less than 100MB" "error" u
      else displayFileInfo file (set_selectedFile (Some file) u)
  end.

(** [removeFile()] *)
Definition removeFile (u : ui) : ui :=
  {| selectedFile := None;
     toast := toast u;
     file_name := file_name u;
     file_size := file_size u;
     fileInfo_hidden := true;
     uploadBtn_disabled := true;
     fileInput_value := "";
     progressContainer_hidden := progressContainer_hidden u;
     progress := progress u;
     loadingState_hidden := loadingState_hidden u;
     filesContainer_hidden := filesContainer_hidden u;
     emptyState_hidden := emptyState_hidden u;
     sent := sent u |}.

Definition set_uploadBtn_disabled (b : bool) (u : ui) : ui :=
  {| selectedFile := selectedFile u;
     toast := toast u;
     file_name := file_name u;
     file_size := file_size u;
     fileInfo_hidden := fileInfo_hidden u;
     uploadBtn_disabled := b;
     fileInput_value := fileInput_value u;
     progressContainer_hidden := progressContainer_hidden u;
     progress := progress u;
     loadingState_hidden := loadingState_hidden u;
     filesContainer_hidden := filesContainer_hidden u;
     emptyState_hidden := emptyState_hidden u;
     sent := sent u |}.

Definition set_progress (hidden : bool) (p : option (N * N)) (u : ui) : ui :=
  {| selectedFile := selectedFile u;
     toast := toast u;
     file_name := file_name u;
     file_size := file_size u;
     fileInfo_hidden := fileInfo_hidden u;
     uploadBtn_disabled := uploadBtn_disabled u;
     fileInput_value := fileInput_value u;
     progressContainer_hidden := hidden;
     progress := p;
     loadingState_hidden := loadingState_hidden u;
     filesContainer_hidden := filesContainer_hidden u;
     emptyState_hidden := emptyState_hidden u;
     sent := sent u |}.

(** [updateProgress(percent)] with [percent = (loaded / total) * 100] *)
Definition updateProgress (loaded total : N) (u : ui) : ui :=
  set_progress (progressContainer_hidden u) (Some (loaded, total)) u.

(** [resetProgress()] *)
Definition resetProgress (u : ui) : ui := set_progress true None u.

Definition send (c : call) (u : ui) : ui :=
  {| selectedFile := selectedFile u;
     toast := toast u;
     file_name := file_name u;
     file_size := file_size u;
     fileInfo_hidden := fileInfo_hidden u;
     uploadBtn_disabled := uploadBtn_disabled u;
     fileInput_value := fileInput_value u;
     progressContainer_hidden := progressContainer_hidden u;
     progress := progress u;
     loadingState_hidden := loadingState_hidden u;
     filesContainer_hidden := filesContainer_hidden u;
     emptyState_hidden := emptyState_hidden u;
     sent := sent u ++ [c] |}.

Section Script.

(** [window.location.origin] *)
Variable API_URL : string.

(** [loadFiles()] up to its first [await]: the indicators and the
    [fetch] of the list. *)
Definition loadFiles (u : ui) : ui :=
  send {| call_method := GET; call_origin := API_URL;
          call_path := "/files"; call_form := [] |}
       {| selectedFile := selectedFile u;
          toast := toast u;
          file_name := file_name u;
          file_size := file_size u;
          fileInfo_hidden := fileInfo_hidden u;
          uploadBtn_disabled := uploadBtn_disabled u;
          fileInput_value := fileInput_value u;
          progressContainer_hidden := progressContainer_hidden u;
          progress := progress u;
          loadingState_hidden := false;
          filesContainer_hidden := true;
          emptyState_hidden := true;
          sent := sent u |}.

(** [uploadFile()] up to [xhr.send]: [throws] tells whether creating,
    opening or sending the request raised an exception, which the
    [catch] block receives. *)
Definition uploadFile (throws : bool) (u : ui) : ui :=
  match selectedFile u with
  | None => showToast "Please select a file" "error" u
  | Some file =>
      let u1 := set_uploadBtn_disabled true u in
      let u2 := set_progress false (progress u1) u1 in
      let formData := [("csv", file)] in
      if throws then
        set_uploadBtn_disabled false
          (resetProgress (showToast "Error uploading file" "error" u2))
      else
        send {| call_method := POST; call_origin := API_URL;
                call_path := "/uploads3"; call_form := formData |} u2
  end.

(** The events of the request and the listeners [uploadFile] registers. *)
Inductive xhr_event : Type :=
| progress_event (lengthComputable : bool) (loaded total : N)
| load_event (status : Z) (responseText : string)
| error_event.

(** The ['load'] listener.  When [JSON.parse] throws, the exception
    leaves the listener and none of its later statements run. *)
Definition on_load (status : Z) (responseText : string) (u : ui) : ui :=
  if status =? 200 then
    if JSON.valid responseText then
      set_uploadBtn_disabled false
        (resetProgress
           (loadFiles
              (removeFile
                 (showToast "File uploaded successfully!" "success" u))))
    else u
  else
    set_uploadBtn_disabled false
      (resetProgress (showToast "Upload failed" "error" u)).

(** The ['error'] listener. *)
Definition on_error (u : ui) : ui :=
  set_uploadBtn_disabled false
    (resetProgress
       (showToast "Upload error. Please try again." "error" u)).

Definition listen (e : xhr_event) (u : ui) : ui :=
  match e with
  | progress_event lengthComputable loaded total =>
      if lengthComputable then updateProgress loaded total u else u
  | load_event status responseText => on_load status responseText u
  | error_event => on_error u
  end.

End Script.

(** The page as loaded: nothing selected, the upload button disabled, the
    progress bar hidden. *)
Definition page : ui :=
  {| selectedFile := None; toast := None; file_name := ""; file_size := "";
     fileInfo_hidden := true; uploadBtn_disabled := true;
     fileInput_value := ""; progressContainer_hidden := true;
     progress := None; loadingState_hidden := true;
     filesContainer_hidden := true; emptyState_hidden := true;
     sent := [] |}.

End Client.

(* ===================================================================== *)
(** ** Predicates and measures the statements use *)
(* ===================================================================== *)

(** The first segment of [s] is ["."]. *)
Definition dot_led (s : string) : bool :=
  match s with
  | EmptyString => false
  | String a EmptyString => Ascii.eqb a "."
  | String a (String b _) => Ascii.eqb a "." && Ascii.eqb b "/"
  end.


(** The invariant of the scan: the text built so far does not begin with a
    ["."] segment, and [dots] counts the dots of a segment made of dots. *)
Record scan_ok (st : path.scan) : Prop := {
  ok_res : dot_led (path.res st) = false;
  ok_empty : path.seg st = "" -> path.dots st = 0;
  ok_dot : path.seg st = "." -> path.dots st = 1;
  ok_seg : dot_led (path.seg st) = true -> path.seg st = "."
}.

(** No character of [s] is a separator. *)
Fixpoint no_sep (s : string) : bool :=
  match s with
  | EmptyString => true
  | String c s' => negb (Ascii.eqb c "/") && no_sep s'
  end.

(** The last character of [s] is a separator. *)
Fixpoint last_is_sep (s : string) : bool :=
  match s with
  | EmptyString => false
  | String c EmptyString => Ascii.eqb c "/"
  | String _ s' => last_is_sep s'
  end.

(** Every character of [s] is a decimal digit. *)
Fixpoint all_digits (s : string) : bool :=
  match s with
  | EmptyString => true
  | String c s' => JSON.is_digit c && all_digits s'
  end.

Definition is_dir (n : option fs.node) : bool :=
  match n with
  | Some (fs.Dir _ _ _) => true
  | _ => false
  end.

(** The status code a handler run answered with, if it answered. *)
Definition answered (run : outcome response * world) : option Z :=
  match run with
  | (Return (Answer status _), _) => Some status
  | _ => None
  end.

(** The path of a request URL split at its separators (for a path that
    holds no percent escape). *)
Fixpoint segments_from (cur : string) (s : string) : list string :=
  match s with
  | EmptyString => if String.eqb cur "" then [] else [cur]
  | String c s' =>
      if Ascii.eqb c "/"
      then (if String.eqb cur "" then [] else [cur]) ++ segments_from "" s'
      else segments_from (cur +:+ String c "") s'
  end.

Definition segments (urlPath : string) : list string :=
  segments_from "" urlPath.

(** The segments of a key that name something: all but [.]. *)
Definition parts (k : string) : list string :=
  List.filter (fun s => negb (String.eqb s ".")) (segments k).

(** A walk that only climbs, and a walk that never climbs. *)
Definition climbs (rs : list string) : bool := forallb (String.eqb "..") rs.

Definition descends (ks : list string) : bool :=
  forallb (fun s => negb (String.eqb s "..")) ks.

(** The walk [ks] ends at the end of the walk [rs] or below it, from
    whatever directory both start: either [ks] begins with [rs] and then
    never climbs, or [rs] only climbs, [ks] follows it for some steps and
    then never climbs (it stays under a directory that [rs] rises
    above). *)
Fixpoint below (rs ks : list string) : bool :=
  match rs, ks with
  | [], _ => descends ks
  | r :: rs', k :: ks' =>
      if String.eqb r k then below rs' ks' else climbs rs && descends ks
  | _ :: _, [] => climbs rs
  end.

(** [p] resolves to the directory with key [r] or to something below it,
    whatever the working directory is.  The two keys are compared segment
    by segment, never character by character.  Everything lies under the
    file system's root; any other absolute [r] holds absolute keys only, a
    relative [r] relative keys only, and then the segments decide. *)
Definition within (r p : string) : bool :=
  let k := fs.key p in
  if String.prefix "/" r then
    match parts r with
    | [] => true
    | _ :: _ => String.prefix "/" k && below (parts r) (parts k)
    end
  else negb (String.prefix "/" k) && below (parts r) (parts k).

(** The request the service receives for a call of the client; [part] is
    what multer leaves in [req.file]. *)
Definition request_of (c : Client.call) (part : option multer.file) : request :=
  {| method := Client.call_method c;
     path := Client.call_path c;
     url := segments (Client.call_path c);
     file := part |}.

(** The [fileName]s of a [listFiles] answer. *)
Definition listed_names (run : outcome response * world) : list string :=
  match run with
  | (Return r, _) =>
      match member "files" r with
      | Some (JArr items) =>
          omap (fun j : json =>
                  match j with
                  | JObj fields =>
                      match field "fileName" fields with
                      | Some (JStr s) => Some s
                      | _ => None
                      end
                  | _ => None
                  end) items
      | _ => []
      end
  | (Throw _, _) => []
  end.

(** [s] between double quotes. *)
Definition quoted (s : string) : string :=
  String JSON.DQUOTE (s +:+ String JSON.DQUOTE "").

(** The two decimal digits of a number below one hundred. *)
Definition two_digits (c : N) : string :=
  String (ascii_of_N (48 + c / 10)) (String (ascii_of_N (48 + c mod 10)) "").

(** The world after a writing call took its scripted outcome. *)
Definition after_io (w : world) : world :=
  {| fs.disk := fs.disk w; fs.clock := (fs.io_time w).2;
     fs.io_errors := tl (fs.io_errors w);
     fs.io_times := tl (fs.io_times w) |}.

Definition with_disk (d : gmap string fs.node) (w : world) : world :=
  {| fs.disk := d; fs.clock := fs.clock w; fs.io_errors := fs.io_errors w;
     fs.io_times := fs.io_times w |}.

Definition is_file (n : option fs.node) : bool :=
  match n with
  | Some (fs.File _ _ _) => true
  | _ => false
  end.

(** The [catch] block's clean-up: when it returns, the temporary path
    denotes nothing. *)
Definition cleanup (p : string) : fs.M unit :=
  there ← fs.existsSync p;
  if (there : bool) then fs.unlinkSync p else mret tt.

(** What every clean-up site of [uploadFile] leaves behind. *)
Definition settled (u : Client.ui) : Prop :=
  Client.progressContainer_hidden u = true
  /\ Client.progress u = None
  /\ Client.uploadBtn_disabled u = false.

(** The condition under which the scan removes the last segment of [res]
    on reading [..]: that segment is not [..] itself. *)
Definition last_not_up (r : string) (lastSegmentLength : Z) : bool :=
  (JS.len r <? 2) || negb (lastSegmentLength =? 2)
  || negb (JS.charAt_is r (JS.len r - 1) path.CHAR_DOT)
  || negb (JS.charAt_is r (JS.len r - 2) path.CHAR_DOT).

(** *** The shape of a normalized path *)

(** How the scan's [dots] moves on one character, and over a segment. *)
Definition dot_step (d : Z) (c : ascii) : Z :=
  if Ascii.eqb c path.CHAR_DOT && negb (d =? -1) then d + 1 else -1.

Fixpoint dots_from (d : Z) (s : string) : Z :=
  match s with
  | EmptyString => d
  | String c s' => dots_from (dot_step d c) s'
  end.

(** A segment [path.normalize] keeps as it is. *)
Definition normal (s : string) : Prop :=
  s <> "" /\ no_sep s = true /\ s <> "." /\ s <> "..".

(** One or more [..] segments. *)
Inductive ups : string -> Prop :=
| ups_one : ups ".."
| ups_more (r : string) : ups r -> ups (r +:+ "/..").

(** Normal segments joined by separators, after leading [..] segments when
    the path may climb above its start. *)
Inductive canon (allowAboveRoot : bool) : string -> Prop :=
| canon_ups (r : string) : allowAboveRoot = true -> ups r -> canon allowAboveRoot r
| canon_seg (s : string) : normal s -> canon allowAboveRoot s
| canon_snoc (r s : string) :
    canon allowAboveRoot r -> normal s -> canon allowAboveRoot (r +:+ "/" +:+ s).

(** The length of the text after the last separator. *)
Definition lastseg_len (r : string) : Z :=
  JS.len r - 1 - JS.lastIndexOf r path.CHAR_FORWARD_SLASH.

(** The invariant of the scan that determines its result. *)
Record scan_canon (allowAboveRoot : bool) (st : path.scan) : Prop := {
  sc_res : path.res st = "" \/ canon allowAboveRoot (path.res st);
  sc_len : path.lastSegmentLength st = lastseg_len (path.res st);
  sc_seg : no_sep (path.seg st) = true;
  sc_dots : path.dots st = dots_from 0 (path.seg st)
}.

(** *** Directory entries, and what a handler leaves alone *)

(** The path of the entry named [b] in the directory with key [d]. *)
Definition child_of (d b : string) : string :=
  if String.eqb d "." then b
  else if String.eqb d "/" then "/" +:+ b
  else d +:+ "/" +:+ b.

(** Every key of the disk is the key of itself: the disk holds no entry
    under a spelling that no path resolves to. *)
Definition tidy (d : gmap string fs.node) : bool :=
  forallb (fun kv : string * fs.node => String.eqb (fs.key kv.1) kv.1)
          (map_to_list d).

(** The disk of [w'] differs from the disk of [w] at most in the entries
    at the keys [ks]. *)
Definition kept (ks : list string) (w w' : world) : Prop :=
  forall k : string, k ∉ ks -> fs.disk w' !! k = fs.disk w !! k.

(** The name [handleUpload] stores a part under at the instant [now]. *)
Definition savedAs (now : Z) (f : multer.file) : string :=
  JS.Number_toString now +:+ "-" +:+ multer.originalname f.

(** The descriptor [listFiles] builds for the name [b]: [statSync] of the
    joined path (the default stands where [statSync] would throw). *)
Definition descriptor (root : string) (w : world) (b : string) : json :=
  let filePath := path.join [root; b] in
  describe b filePath
    (fs.stats_of (default (fs.Dir 0 0 0) (fs.entry filePath w))).

(** How often the character [c] occurs in [s]. *)
Fixpoint occurrences (c : ascii) (s : string) : nat :=
  match s with
  | EmptyString => 0
  | String a s' => (if Ascii.eqb a c then 1 else 0) + occurrences c s'
  end.

(* ===================================================================== *)
(** ** The Upload Client: the file list, download, delete and health

    The asynchronous functions of the script are modelled in two steps:
    what runs up to the [fetch], and what runs once the [fetch] has
    settled. *)
(* ===================================================================== *)

Module Page.

(** What [await fetch(...)] followed by reading the body gives: the
    [fetch] rejects (no connection), or a response arrives with its status
    and with what the body-reading call ([response.json()],
    [response.blob()]) resolves with, [None] when that call rejects. *)
Inductive fetched (B : Type) : Type :=
| rejected
| replied (status : Z) (body : option B).
Arguments rejected {B}.
Arguments replied {B} status body.

(** [response.ok] *)
Definition ok (status : Z) : bool := (200 <=? status) && (status <=? 299).

(** A parsed JSON value, what [response.json()] resolves with.  The
    script observes of a number only whether it is zero, so the integral
    ones stand for all. *)
#[warnings="-register-all"]
Inductive value : Type :=
| Null
| Bool (b : bool)
| Num (n : Z)
| Str (s : string)
| Arr (items : list value)
| Obj (fields : list (string * value)).

(** [obj.name] for a parsed JSON object: the last member of that name
    ([JSON.parse] keeps the last duplicate), [None] for [undefined].  The
    names the script reads are defined on no built-in prototype, so a
    value that is not an object gives [undefined] (reading a member of
    [null] throws, which the callers handle). *)
Fixpoint own (name : string) (fields : list (string * value))
  : option value :=
  match fields with
  | [] => None
  | (k, v) :: rest =>
      match own name rest with
      | Some later => Some later
      | None => if String.eqb k name then Some v else None
      end
  end.

Definition prop (name : string) (v : value) : option value :=
  match v with
  | Obj fields => own name fields
  | _ => None
  end.

(** Whether a value counts as true in a condition. *)
Definition truthy (v : option value) : bool :=
  match v with
  | None => false
  | Some Null => false
  | Some (Bool b) => b
  | Some (Num n) => negb (n =? 0)
  | Some (Str s) => negb (String.eqb s "")
  | Some (Arr _) => true
  | Some (Obj _) => true
  end.

(** [data.files || []] *)
Definition files_of (data : value) : value :=
  match prop "files" data with
  | Some v => if truthy (Some v) then v else Arr []
  | None => Arr []
  end.

(** [files.length === 0] *)
Definition length_is_0 (files : value) : bool :=
  match files with
  | Arr items => match items with [] => true | _ => false end
  | Str s => String.eqb s ""
  | Obj fields =>
      match own "length" fields with
      | Some (Num n) => n =? 0
      | _ => false
      end
  | _ => false
  end.

(** The page: the state of the upload form, the rows of the file table
    (the list entries they were built from), the status indicator, the
    confirmation dialog with the file name its confirm button deletes, and
    the files handed to the browser for saving (name and bytes). *)
Record dom := {
  ui : Client.ui;
  filesTbody : list value;
  statusDot : list string;
  statusText : string;
  modal_hidden : bool;
  modalTitle : string;
  modalMessage : string;
  modalConfirm : string * string;
  modalConfirm_onclick : option string;
  saved : list (string * string)
}.

Definition on_ui (f : Client.ui -> Client.ui) (p : dom) : dom :=
  {| ui := f (ui p);
     filesTbody := filesTbody p;
     statusDot := statusDot p;
     statusText := statusText p;
     modal_hidden := modal_hidden p;
     modalTitle := modalTitle p;
     modalMessage := modalMessage p;
     modalConfirm := modalConfirm p;
     modalConfirm_onclick := modalConfirm_onclick p;
     saved := saved p |}.

Definition showToast (message type : string) (p : dom) : dom :=
  on_ui (Client.showToast message type) p.

Definition set_hidden (loadingState filesContainer emptyState : bool)
           (u : Client.ui) : Client.ui :=
  {| Client.selectedFile := Client.selectedFile u;
     Client.toast := Client.toast u;
     Client.file_name := Client.file_name u;
     Client.file_size := Client.file_size u;
     Client.fileInfo_hidden := Client.fileInfo_hidden u;
     Client.uploadBtn_disabled := Client.uploadBtn_disabled u;
     Client.fileInput_value := Client.fileInput_value u;
     Client.progressContainer_hidden := Client.progressContainer_hidden u;
     Client.progress := Client.progress u;
     Client.loadingState_hidden := loadingState;
     Client.filesContainer_hidden := filesContainer;
     Client.emptyState_hidden := emptyState;
     Client.sent := Client.sent u |}.

(** [emptyState.classList.remove('hidden')] *)
Definition show_emptyState (p : dom) : dom :=
  on_ui (fun u => set_hidden (Client.loadingState_hidden u)
                             (Client.filesContainer_hidden u) false u) p.

(** [filesContainer.classList.remove('hidden')] *)
Definition show_filesContainer (p : dom) : dom :=
  on_ui (fun u => set_hidden (Client.loadingState_hidden u) false
                             (Client.emptyState_hidden u) u) p.

(** [loadingState.classList.add('hidden')] *)
Definition hide_loadingState (p : dom) : dom :=
  on_ui (fun u => set_hidden true (Client.filesContainer_hidden u)
                             (Client.emptyState_hidden u) u) p.

Definition set_filesTbody (rows : list value) (p : dom) : dom :=
  {| ui := ui p;
     filesTbody := rows;
     statusDot := statusDot p;
     statusText := statusText p;
     modal_hidden := modal_hidden p;
     modalTitle := modalTitle p;
     modalMessage := modalMessage p;
     modalConfirm := modalConfirm p;
     modalConfirm_onclick := modalConfirm_onclick p;
     saved := saved p |}.

Definition set_status (class text : string) (p : dom) : dom :=
  {| ui := ui p;
     filesTbody := filesTbody p;
     statusDot := statusDot p ++ [class];
     statusText := text;
     modal_hidden := modal_hidden p;
     modalTitle := modalTitle p;
     modalMessage := modalMessage p;
     modalConfirm := modalConfirm p;
     modalConfirm_onclick := modalConfirm_onclick p;
     saved := saved p |}.

Definition save (name bytes : string) (p : dom) : dom :=
  {| ui := ui p;
     filesTbody := filesTbody p;
     statusDot := statusDot p;
     statusText := statusText p;
     modal_hidden := modal_hidden p;
     modalTitle := modalTitle p;
     modalMessage := modalMessage p;
     modalConfirm := modalConfirm p;
     modalConfirm_onclick := modalConfirm_onclick p;
     saved := saved p ++ [(name, bytes)] |}.

(** [closeModalDialog()] *)
Definition closeModalDialog (p : dom) : dom :=
  {| ui := ui p;
     filesTbody := filesTbody p;
     statusDot := statusDot p;
     statusText := statusText p;
     modal_hidden := true;
     modalTitle := modalTitle p;
     modalMessage := modalMessage p;
     modalConfirm := modalConfirm p;
     modalConfirm_onclick := modalConfirm_onclick p;
     saved := saved p |}.

(** [confirmDelete(fileName)] *)
Definition confirmDelete (fileName : string) (p : dom) : dom :=
  {| ui := ui p;
     filesTbody := filesTbody p;
     statusDot := statusDot p;
     statusText := statusText p;
     modal_hidden := false;
     modalTitle := "Delete File";
     modalMessage :=
       "Are you sure you want to delete " +:+ quoted fileName +:+ "?";
     modalConfirm := ("Delete", "btn btn-delete");
     modalConfirm_onclick := Some fileName;
     saved := saved p |}.

(** [encodeURIComponent(s)] for a well-formed string, on its UTF-8 bytes:
    letters, digits and [- _ . ! ~ * ' ( )] stay, every other byte becomes
    [%XX]. *)
Definition unreserved (c : ascii) : bool :=
  let n := nat_of_ascii c in
  ((48 <=? n) && (n <=? 57) || (65 <=? n) && (n <=? 90)
   || (97 <=? n) && (n <=? 122))%nat
  || existsb (Ascii.eqb c)
       ["-"; "_"; "."; "!"; "~"; "*"; "'"; "("; ")"]%char.

Definition hex (n : nat) : ascii :=
  if (n <? 10)%nat then ascii_of_nat (48 + n) else ascii_of_nat (55 + n).

Definition escape (c : ascii) : string :=
  let n := nat_of_ascii c in
  String "%" (String (hex (n / 16)) (String (hex (n mod 16)) "")).

Fixpoint encodeURIComponent (s : string) : string :=
  match s with
  | EmptyString => EmptyString
  | String c s' =>
      (if unreserved c then String c "" else escape c)
      +:+ encodeURIComponent s'
  end.

(** [escapeHtml(text)]: the text is stored in an element and read back as
    markup.  Serializing a text node replaces [&], [<], [>] and the
    no-break space (the bytes 194 160 in UTF-8) and nothing else. *)
Fixpoint escapeHtml (text : string) : string :=
  match text with
  | EmptyString => EmptyString
  | String c rest =>
      if Ascii.eqb c "&" then "&amp;" +:+ escapeHtml rest
      else if Ascii.eqb c "<" then "&lt;" +:+ escapeHtml rest
      else if Ascii.eqb c ">" then "&gt;" +:+ escapeHtml rest
      else
        match rest with
        | String c' rest' =>
            if Ascii.eqb c (ascii_of_nat 194)
               && Ascii.eqb c' (ascii_of_nat 160)
            then "&nbsp;" +:+ escapeHtml rest'
            else String c (escapeHtml rest)
        | EmptyString => String c EmptyString
        end
  end.

Section Requests.

Variable API_URL : string.

(** Whether building the table row of a list entry completes (the string
    conversions in [escapeHtml], [formatFileSize] and the row template
    throw on some values). *)
Variable renders : value -> bool.

Definition fetch (method : verb) (urlPath : string) (p : dom) : dom :=
  on_ui (Client.send {| Client.call_method := method;
                        Client.call_origin := API_URL;
                        Client.call_path := urlPath;
                        Client.call_form := [] |}) p.

(** [files.forEach(file => ... filesTbody.appendChild(row))], from the
    rows [rows] on: it stops at the first entry whose row cannot be
    built. *)
Fixpoint appendRows (files rows : list value)
  : outcome unit * list value :=
  match files with
  | [] => (Return tt, rows)
  | file :: rest =>
      if renders file then appendRows rest (rows ++ [file])
      else (Throw "TypeError", rows)
  end.

(** [displayFiles(files)]: the table body is emptied first; [forEach]
    exists on arrays only. *)
Definition displayFiles (files : value) (p : dom) : outcome unit * dom :=
  match files with
  | Arr items =>
      let (o, rows) := appendRows items [] in (o, set_filesTbody rows p)
  | _ => (Throw "TypeError: files.forEach is not a function",
          set_filesTbody [] p)
  end.

(** [loadFiles()] up to its first [await]. *)
Definition loadFiles (p : dom) : dom := on_ui (Client.loadFiles API_URL) p.

(** The [catch] block of [loadFiles]. *)
Definition loadFiles_catch (p : dom) : dom :=
  show_emptyState (showToast "Error loading files" "error" p).

(** The [else] branch of [loadFiles]. *)
Definition loadFiles_failed (p : dom) : dom :=
  show_emptyState (showToast "Failed to load files" "error" p).

(** [loadFiles()] from the point where [fetch] and [response.json()] have
    settled, with its [catch] and [finally] blocks.  In
    [response.ok && data.success] the member is read only when the
    response is ok, and reading it throws when the body is [null]. *)
Definition loadFiles_settled (r : fetched value) (p : dom) : dom :=
  hide_loadingState
    (match r with
     | rejected => loadFiles_catch p
     | replied _ None => loadFiles_catch p
     | replied status (Some data) =>
         if ok status then
           match data with
           | Null => loadFiles_catch p
           | _ =>
               if truthy (prop "success" data) then
                 let files := files_of data in
                 if length_is_0 files then show_emptyState p
                 else match displayFiles files p with
                      | (Return _, p') => show_filesContainer p'
                      | (Throw _, p') => loadFiles_catch p'
                      end
               else loadFiles_failed p
           end
         else loadFiles_failed p
     end).

(** [downloadFile(fileName)] up to its [await]. *)
Definition downloadFile (fileName : string) (p : dom) : dom :=
  fetch GET ("/download/" +:+ encodeURIComponent fileName) p.

(** [downloadFile(fileName)] once [fetch] has settled; the body is read
    with [response.blob()] and only when the response is ok. *)
Definition downloadFile_settled (fileName : string) (r : fetched string)
           (p : dom) : dom :=
  match r with
  | rejected => showToast "Error downloading file" "error" p
  | replied status blob =>
      if ok status then
        match blob with
        | Some bytes =>
            showToast "File downloaded successfully" "success"
              (save fileName bytes p)
        | None => showToast "Error downloading file" "error" p
        end
      else showToast "Download failed" "error" p
  end.

(** [deleteFile(fileName)] up to its [await]. *)
Definition deleteFile (fileName : string) (p : dom) : dom :=
  fetch DELETE ("/delete/" +:+ encodeURIComponent fileName)
    (showToast "Deleting file..." "warning" (closeModalDialog p)).

(** [deleteFile(fileName)] once [fetch] has settled: the body is not
    read; after a successful answer the list is loaded again. *)
Definition deleteFile_settled (r : fetched unit) (p : dom) : dom :=
  match r with
  | rejected => showToast "Error deleting file" "error" p
  | replied status _ =>
      if ok status then
        loadFiles (showToast "File deleted successfully" "success" p)
      else showToast "Delete failed" "error" p
  end.

(** A click on the dialog's confirm button runs the handler
    [confirmDelete] installed, if any. *)
Definition click_modalConfirm (p : dom) : dom :=
  match modalConfirm_onclick p with
  | Some fileName => deleteFile fileName p
  | None => p
  end.

(** [checkHealth()] up to its [await]. *)
Definition checkHealth (p : dom) : dom := fetch GET "/health" p.

(** [checkHealth()] once [fetch] has settled. *)
Definition checkHealth_settled (r : fetched unit) (p : dom) : dom :=
  match r with
  | rejected => set_status "error" "Disconnected" p
  | replied status _ =>
      if ok status then set_status "connected" "Connected" p
      else set_status "error" "Disconnected" p
  end.

End Requests.

(** The page as loaded, before [DOMContentLoaded] runs [checkHealth] and
    [loadFiles]. *)
Definition loaded : dom :=
  {| ui := Client.page;
     filesTbody := [];
     statusDot := [];
     statusText := "";
     modal_hidden := true;
     modalTitle := "";
     modalMessage := "";
     modalConfirm := ("", "");
     modalConfirm_onclick := None;
     saved := [] |}.

End Page.

(** What the page's [response.json()] resolves with for a body the service
    wrote with [res.json]: the same structure, a Date as the text
    [toISOString] gives for it. *)
Section Wire.

Variable toISOString : Z -> string.

Fixpoint parsed (j : json) : Page.value :=
  match j with
  | JBool b => Page.Bool b
  | JNum n => Page.Num n
  | JStr s => Page.Str s
  | JTime ms => Page.Str (toISOString ms)
  | JObj fields =>
      Page.Obj (map (fun '(k, v) => (k, parsed v)) fields)
  | JArr items => Page.Arr (map parsed items)
  end.

End Wire.

(** [decodeURIComponent(s)], as Express applies it to a route parameter,
    on UTF-8 bytes: [%XX] becomes the byte it spells; [None] stands for
    the URIError on a [%] that two hexadecimal digits do not follow.  (The
    further check that the decoded bytes are well-formed UTF-8 is left
    out.) *)
Definition unhex (c : ascii) : option nat :=
  let n := nat_of_ascii c in
  if ((48 <=? n) && (n <=? 57))%nat then Some (n - 48)%nat
  else if ((65 <=? n) && (n <=? 70))%nat then Some (n - 55)%nat
  else if ((97 <=? n) && (n <=? 102))%nat then Some (n - 87)%nat
  else None.

Fixpoint decodeURIComponent (s : string) : option string :=
  match s with
  | EmptyString => Some EmptyString
  | String c rest =>
      if Ascii.eqb c "%" then
        match rest with
        | String h (String l rest') =>
            match unhex h, unhex l, decodeURIComponent rest' with
            | Some a, Some b, Some t =>
                Some (String (ascii_of_nat (16 * a + b)) t)
            | _, _, _ => None
            end
        | _ => None
        end
      else
        match decodeURIComponent rest with
        | Some t => Some (String c t)
        | None => None
        end
  end.

Fixpoint decode_all (segments : list string) : option (list string) :=
  match segments with
  | [] => Some []
  | s :: rest =>
      match decodeURIComponent s, decode_all rest with
      | Some t, Some ts => Some (t :: ts)
      | _, _ => None
      end
  end.

(** The request the route table sees for a call of the page: the path
    split at its separators, each segment decoded. *)
Definition routed (c : Client.call) (part : option multer.file)
  : option request :=
  match decode_all (segments (Client.call_path c)) with
  | Some params =>
      Some {| method := Client.call_method c;
              path := Client.call_path c;
              url := params;
              file := part |}
  | None => None
  end.

(** What [res.download(filePath)] sends when [filePath] denotes a file:
    status 200 and the bytes of the file. *)
Definition res_download (r : response) (w : world) : option (Z * string) :=
  match r with
  | Download filePath =>
      match fs.entry filePath w with
      | Some (fs.File data _ _) => Some (200, data)
      | _ => None
      end
  | Answer _ _ => None
  end.

(** *** What happens on the page *)

(** What the user and the network do to the page, in the order it happens:
    files dropped or chosen, the remove, upload and refresh buttons, and
    the events of the upload request. *)
Inductive action : Type :=
| choose (files : list Client.File)
| click_remove
| click_upload (throws : bool)
| click_refresh
| xhr (e : Client.xhr_event).

Definition act (API_URL : string) (u : Client.ui) (a : action) : Client.ui :=
  match a with
  | choose files => Client.handleFileDrop files u
  | click_remove => Client.removeFile u
  | click_upload throws => Client.uploadFile API_URL throws u
  | click_refresh => Client.loadFiles API_URL u
  | xhr e => Client.listen API_URL e u
  end.

(** The file passes the checks of [handleFileDrop]. *)
Definition acceptable (f : Client.File) : bool :=
  JS.endsWith (Client.name f) ".csv" && (Client.size f <=? 104857600)%N.

(** A request of the client that is either not an upload, or an upload of
    one acceptable file under the field name [csv]. *)
Definition checked_call (c : Client.call) : bool :=
  match Client.call_method c, Client.call_form c with
  | POST, [(field, f)] => String.eqb field "csv" && acceptable f
  | POST, _ => false
  | _, _ => true
  end.

(* ===================================================================== *)
(** ** Concrete disks, requests and files *)
(* ===================================================================== *)

Definition probe_world : world :=
  {| fs.disk := {["uploads" := fs.Dir 4096 1700000000000 1700000000000]};
     fs.clock := 1705324245123;
     fs.io_errors := []; fs.io_times := [] |}.

Definition no_disk : world :=
  {| fs.disk := ∅; fs.clock := 1705324245123; fs.io_errors := [];
     fs.io_times := [] |}.

Definition txt_part : multer.file :=
  {| multer.originalname := "data.txt";
     multer.path := "/tmp/uploads/0f3a9c";
     multer.size := 5 |}.

Definition txt_upload : request :=
  {| method := POST; path := "/upload"; url := ["upload"];
     file := Some txt_part |}.

Definition txt_world : world :=
  {| fs.disk :=
       {["uploads" := fs.Dir 4096 1700000000000 1700000000000]}
       ∪ {["/tmp/uploads" := fs.Dir 4096 1700000000000 1700000000000]}
       ∪ {["/tmp/uploads/0f3a9c" := fs.File "hello" 1705324245000 1705324245000]};
     fs.clock := 1705324245123;
     fs.io_errors := []; fs.io_times := [] |}.

(** A disk with one stored file under [uploads/] of the working directory. *)
Definition stored_world : world :=
  {| fs.disk :=
       {["." := fs.Dir 4096 1700000000000 1700000000000]}
       ∪ {["uploads" := fs.Dir 4096 1700000000000 1700000000000]}
       ∪ {["uploads/1705324245123-test1.csv"
           := fs.File "a,b" 1705324245123 1705324245123]};
     fs.clock := 1705324250000;
     fs.io_errors := []; fs.io_times := [] |}.

(** A container's disk: the storage root [/app/uploads] and, beside it, a
    directory whose name begins with the same characters. *)
Definition sibling_world : world :=
  {| fs.disk :=
       {["/app" := fs.Dir 4096 1700000000000 1700000000000]}
       ∪ {["/app/uploads" := fs.Dir 4096 1700000000000 1700000000000]}
       ∪ {["/app/uploads-backup" := fs.Dir 4096 1700000000000 1700000000000]}
       ∪ {["/app/uploads-backup/secret.csv"
           := fs.File "id,token" 1700000000001 1700000000002]};
     fs.clock := 1705324250000;
     fs.io_errors := []; fs.io_times := [] |}.

Definition sales_csv : Client.File :=
  {| Client.name := "sales.csv"; Client.size := 17; Client.blob := "blob:sales" |}.

Definition notes_txt : Client.File :=
  {| Client.name := "notes.txt"; Client.size := 17; Client.blob := "blob:notes" |}.

Definition huge_csv : Client.File :=
  {| Client.name := "huge.csv"; Client.size := 104857601; Client.blob := "blob:huge" |}.

Definition csv_part : multer.file :=
  {| multer.originalname := "sales.csv";
     multer.path := "/tmp/uploads/0f3a9c";
     multer.size := 7 |}.

Definition csv_upload : request :=
  {| method := POST; path := "/upload"; url := ["upload"];
     file := Some csv_part |}.

(** The disk when the handler starts on [csv_upload]: the storage root and
    multer's temporary file. *)
Definition csv_world : world :=
  {| fs.disk :=
       {["uploads" := fs.Dir 4096 1700000000000 1700000000000]}
       ∪ {["/tmp/uploads" := fs.Dir 4096 1700000000000 1700000000000]}
       ∪ {["/tmp/uploads/0f3a9c" := fs.File "a,b 1,2" 1705324245000 1705324245000]};
     fs.clock := 1705324245123;
     fs.io_errors := []; fs.io_times := [] |}.

(** The disk of [csv_world] when the two disk calls of an upload take
    time: the copy is stamped at ...124 and returns at ...125, the removal
    returns at ...127. *)
Definition slow_world : world :=
  {| fs.disk := fs.disk csv_world;
     fs.clock := 1705324245123;
     fs.io_errors := [];
     fs.io_times := [(1705324245124, 1705324245125);
                     (1705324245126, 1705324245127)] |}.

(** A second part with the same file name, and the disk when two uploads
    of it arrive together. *)
Definition twin_part : multer.file :=
  {| multer.originalname := "sales.csv";
     multer.path := "/tmp/uploads/77b1e2";
     multer.size := 7 |}.

Definition twin_upload : request :=
  {| method := POST; path := "/upload"; url := ["upload"];
     file := Some twin_part |}.

Definition twin_world : world :=
  {| fs.disk :=
       <["/tmp/uploads/77b1e2" := fs.File "x,y 8,9" 1705324245001 1705324245001]>
         (fs.disk csv_world);
     fs.clock := 1705324245123;
     fs.io_errors := []; fs.io_times := [] |}.

(** The disk of [csv_world] when the first removal of a file will fail. *)
Definition flaky_world : world :=
  {| fs.disk := fs.disk csv_world;
     fs.clock := 1705324245123;
     fs.io_errors := [false; true; false]; fs.io_times := [] |}.

(** The disk of [csv_world] with a file where the storage root should
    be. *)
Definition file_root_world : world :=
  {| fs.disk :=
       <["uploads" := fs.File "not a directory" 1700000000000 1700000000000]>
         (fs.disk csv_world);
     fs.clock := 1705324245123;
     fs.io_errors := []; fs.io_times := [] |}.

(** A list answer with one entry, as the page receives it. *)
Definition one_file_list : Page.value :=
  Page.Obj
    [("success", Page.Bool true);
     ("message", Page.Str "Files listed successfully");
     ("directory", Page.Str "uploads");
     ("fileCount", Page.Num 1);
     ("files",
      Page.Arr
        [Page.Obj [("fileName", Page.Str "1705324245123-test1.csv");
                   ("size", Page.Num 3);
                   ("createdAt", Page.Str "2024-01-15T13:10:45.123Z");
                   ("modifiedAt", Page.Str "2024-01-15T13:10:45.123Z");
                   ("path", Page.Str "uploads/1705324245123-test1.csv")]])].

(* ===================================================================== *)
(** * Properties *)
(* ===================================================================== *)

(** ** [path.join] on known inputs (the values Node prints) *)

Example join_default : path.join ["./uploads"; "a.csv"] = "uploads/a.csv".
Proof. reflexivity. Qed.

Example join_doc :
  path.join ["/foo"; "bar"; "baz/asdf"; "quux"; ".."] = "/foo/bar/baz/asdf".
Proof. reflexivity. Qed.

Example normalize_doc :
  path.normalize "/foo/bar//baz/asdf/quux/.." = "/foo/bar/baz/asdf".
Proof. reflexivity. Qed.

Example normalize_up : path.normalize "a/../../b" = "../b".
Proof. reflexivity. Qed.

Example normalize_upup : path.normalize "../../a/./b/" = "../../a/b/".
Proof. reflexivity. Qed.

Example normalize_dot : path.normalize "a/b/../.." = ".".
Proof. reflexivity. Qed.

Example normalize_root : path.normalize "/.." = "/".
Proof. reflexivity. Qed.

Example normalize_dots3 : path.normalize "./.../x" = ".../x".
Proof. reflexivity. Qed.

Example join_sibling :
  path.join ["/app/uploads"; "../uploads-old/x.csv"] = "/app/uploads-old/x.csv".
Proof. reflexivity. Qed.

Example join_dot_slash : path.join ["./"; "./"] = "./".
Proof. reflexivity. Qed.

(** ** The other primitives on known inputs *)

Example toString_ex : JS.Number_toString 1705324245123 = "1705324245123".
Proof. reflexivity. Qed.

Example endsWith_ex :
  JS.endsWith "sales.csv" ".csv" = true
  /\ JS.endsWith "csv" ".csv" = false
  /\ JS.endsWith "a.CSV" ".csv" = false.
Proof. repeat split; reflexivity. Qed.

Example json_accepts :
  JSON.valid ("{" +:+ quoted "success" +:+ ":true, " +:+ quoted "size"
              +:+ ": 17, " +:+ quoted "tags" +:+ ": [1, -2.5e3, null, {}]}")
  = true
  /\ JSON.valid " [ ] " = true.
Proof. split; reflexivity. Qed.

Example json_rejects :
  JSON.valid "" = false /\ JSON.valid "<html>" = false
  /\ JSON.valid "[1,]" = false /\ JSON.valid "01" = false
  /\ JSON.valid "{}x" = false.
Proof. repeat split; reflexivity. Qed.

(** ** What [path.join] never returns *)

Lemma dot_led_app_sep (s t : string) :
  s <> "" -> dot_led (s +:+ String "/" t) = dot_led s.
Proof.
  destruct s as [|a [|b s]]; simpl; intros Hs; try congruence.
  now rewrite andb_true_r.
Qed.

Lemma dot_led_slice (s : string) (k : nat) :
  String.get k s = Some "/"%char ->
  dot_led (String.substring 0 k s) = true -> dot_led s = true.
Proof.
  destruct s as [|a [|b s]]; destruct k as [|[|k]]; simpl; try discriminate.
  - intros [= ->] Ha. now rewrite Ha.
  - auto.
Qed.

Lemma dot_led_snoc (s : string) (c : ascii) :
  c <> "/"%char ->
  (dot_led s = true -> s = ".") ->
  dot_led (s +:+ String c "") = true -> s +:+ String c "" = ".".
Proof.
  intros Hc Hs.
  destruct s as [|a [|b s]]; simpl in *.
  - intros H. apply Ascii.eqb_eq in H. now subst.
  - intros H. apply andb_true_iff in H as [_ H].
    apply Ascii.eqb_eq in H. contradiction.
  - intros H. specialize (Hs H). discriminate.
Qed.

Lemma lastIndexOf_from_spec (c : ascii) (s : string) (i acc r : Z) :
  JS.lastIndexOf_from c s i acc = r ->
  r = acc \/ (i <= r /\ String.get (Z.to_nat (r - i)) s = Some c).
Proof.
  revert i acc. induction s as [|a s IH]; simpl; intros i acc H.
  - now left.
  - apply IH in H as [H | [Hle Hget]].
    + destruct (Ascii.eqb_spec a c) as [->|_]; [|now left].
      right. subst r. split; [lia|]. now rewrite Z.sub_diag.
    + right. split; [lia|].
      replace (Z.to_nat (r - i)) with (S (Z.to_nat (r - (i + 1)))) by lia.
      exact Hget.
Qed.

Lemma lastIndexOf_found (s : string) (c : ascii) :
  JS.lastIndexOf s c <> -1 ->
  String.get (Z.to_nat (JS.lastIndexOf s c)) s = Some c.
Proof.
  intros H. unfold JS.lastIndexOf in *.
  destruct (lastIndexOf_from_spec c s 0 (-1) _ eq_refl) as [E | [_ E]].
  - contradiction.
  - now rewrite Z.sub_0_r in E.
Qed.

Lemma len_pos_nonempty (s : string) : (0 <? JS.len s) = true -> s <> "".
Proof. intros H ->. discriminate. Qed.

Lemma scan_ok_fresh (r : string) (n : Z) :
  dot_led r = false ->
  scan_ok {| path.res := r; path.lastSegmentLength := n;
             path.seg := ""; path.dots := 0 |}.
Proof. intros H. split; simpl; auto; discriminate. Qed.

Lemma scan_ok_separator (allow : bool) (st : path.scan) :
  scan_ok st -> scan_ok (path.at_separator allow st).
Proof.
  intros [Hres Hempty Hdot Hseg]. unfold path.at_separator.
  repeat case_match; apply scan_ok_fresh; auto.
  all: change ("/" +:+ path.seg st) with (String "/" (path.seg st)).
  all: try match goal with
           | H : (0 <? JS.len _) = true |- _ =>
               rewrite dot_led_app_sep by (apply len_pos_nonempty, H); exact Hres
           end.
  - destruct (dot_led (JS.slice0 _ _)) eqn:E; [|reflexivity].
    rewrite <- Hres. symmetry. eapply dot_led_slice; [|exact E].
    apply lastIndexOf_found. apply Z.eqb_neq. assumption.
  - destruct (dot_led (path.seg st)) eqn:E; [|reflexivity].
    specialize (Hseg eq_refl). specialize (Hdot Hseg).
    match goal with H : _ || (path.dots st =? 1) = false |- _ =>
      apply orb_false_iff in H as [_ H]; apply Z.eqb_neq in H end.
    contradiction.
Qed.

Lemma snoc_is_dot (s : string) (c : ascii) :
  s +:+ String c "" = "." -> s = "" /\ c = "."%char.
Proof.
  destruct s as [|a s]; simpl.
  - intros [= ->]. auto.
  - intros [= _ H]. destruct s; discriminate.
Qed.

Lemma scan_ok_char (c : ascii) (st : path.scan) :
  c <> "/"%char -> scan_ok st -> scan_ok (path.at_char c st).
Proof.
  intros Hc [Hres Hempty Hdot Hseg]. split; simpl.
  - exact Hres.
  - intros H. destruct (path.seg st); discriminate.
  - intros H. apply snoc_is_dot in H as [Hs ->].
    rewrite (Hempty Hs). reflexivity.
  - now apply dot_led_snoc.
Qed.

Lemma scan_ok_step (allow : bool) (c : ascii) (st : path.scan) :
  scan_ok st -> scan_ok (path.step allow c st).
Proof.
  intros H. unfold path.step, path.isPosixPathSeparator.
  destruct (Ascii.eqb_spec c path.CHAR_FORWARD_SLASH) as [_|Hc].
  - now apply scan_ok_separator.
  - now apply scan_ok_char.
Qed.

Lemma scan_ok_chars (allow : bool) (p : string) (st : path.scan) :
  scan_ok st -> scan_ok (path.scan_chars allow p st).
Proof.
  revert st. induction p as [|c p IH]; simpl; intros st H; [exact H|].
  apply IH. now apply scan_ok_step.
Qed.

Lemma normalizeString_not_dot_led (p : string) (allow : bool) :
  dot_led (path.normalizeString p allow) = false.
Proof.
  unfold path.normalizeString.
  assert (H : scan_ok (path.scan_chars allow p path.scan0)).
  { apply scan_ok_chars. now apply scan_ok_fresh. }
  destruct (path.trailingSeparator p).
  - apply H.
  - now apply scan_ok_separator.
Qed.

(** [path.normalize] returns ["."], ["./"], or a text whose first segment
    is not ["."]. *)
Lemma normalize_shape (p : string) :
  path.normalize p = "." \/ path.normalize p = "./"
  \/ dot_led (path.normalize p) = false.
Proof.
  unfold path.normalize.
  destruct (String.eqb p ""); [now left|].
  pose proof (normalizeString_not_dot_led p
                (negb (JS.charAt_is p 0 path.CHAR_FORWARD_SLASH))) as Hq.
  set (q := path.normalizeString p _) in *.
  destruct (String.eqb_spec q "") as [_|Hne].
  - destruct (JS.charAt_is p 0 path.CHAR_FORWARD_SLASH); [now right; right|].
    destruct (path.trailingSeparator p); auto.
  - right; right.
    destruct (JS.charAt_is p 0 path.CHAR_FORWARD_SLASH).
    + simpl. now destruct (if path.trailingSeparator p then _ else _).
    + destruct (path.trailingSeparator p); [|exact Hq].
      now rewrite dot_led_app_sep.
Qed.

Lemma join_shape (args : list string) :
  path.join args = "." \/ path.join args = "./"
  \/ dot_led (path.join args) = false.
Proof.
  unfold path.join. destruct (fold_left _ args None); [|now left].
  apply normalize_shape.
Qed.

Lemma prefix_cons (a b : ascii) (s t : string) :
  String.prefix (String a s) (String b t) = true ->
  a = b /\ String.prefix s t = true.
Proof.
  cbn [String.prefix]. destruct (Ascii.ascii_dec a b); [auto | discriminate].
Qed.

Lemma prefix_nil_r (a : ascii) (s : string) :
  String.prefix (String a s) "" = false.
Proof. reflexivity. Qed.

(** A text that begins with a root spelled ["./..."], longer than ["./"],
    is none of the three shapes. *)
Lemma startsWith_dot_slash (r root : string) :
  String.prefix "./" root = true -> root <> "./" ->
  JS.startsWith r root = true ->
  r <> "." /\ r <> "./" /\ dot_led r = true.
Proof.
  unfold JS.startsWith. intros Hp Hne Hr.
  destruct root as [|a [|b [|c root]]]; try discriminate Hp.
  - apply prefix_cons in Hp as [_ Hp]. discriminate Hp.
  - apply prefix_cons in Hp as [<- Hp]. apply prefix_cons in Hp as [<- _].
    contradiction.
  - apply prefix_cons in Hp as [<- Hp]. apply prefix_cons in Hp as [<- _].
    destruct r as [|x [|y [|z r]]]; try discriminate Hr.
    + apply prefix_cons in Hr as [_ Hr]. discriminate Hr.
    + apply prefix_cons in Hr as [_ Hr]. apply prefix_cons in Hr as [_ Hr].
      discriminate Hr.
    + apply prefix_cons in Hr as [<- Hr]. apply prefix_cons in Hr as [<- _].
      repeat split; discriminate.
Qed.

(** The guard [filePath.startsWith(root)] fails on every joined path when
    the root is spelled with a leading ["./"] and is longer than ["./"]. *)
Lemma guard_fails_under_dot_slash (root : string) (args : list string) :
  String.prefix "./" root = true -> root <> "./" ->
  JS.startsWith (path.join args) root = false.
Proof.
  intros Hp Hne.
  destruct (JS.startsWith (path.join args) root) eqn:E; [|reflexivity].
  destruct (startsWith_dot_slash _ _ Hp Hne E) as (H1 & H2 & H3).
  destruct (join_shape args) as [H | [H | H]]; congruence.
Qed.

(** ** Where [path.join] puts a plain name *)

#[local] Arguments String.append : simpl nomatch.

Lemma append_nil_r (s : string) : s +:+ "" = s.
Proof. induction s as [|a s IH]; simpl; congruence. Qed.

Lemma append_assoc (s t u : string) : (s +:+ t) +:+ u = s +:+ t +:+ u.
Proof. induction s as [|a s IH]; simpl; congruence. Qed.

Lemma get_last (a : ascii) (s : string) :
  String.get (String.length s) (String a s)
  = match s with
    | EmptyString => Some a
    | String b s' => String.get (String.length s') (String b s')
    end.
Proof. destruct s; reflexivity. Qed.

Lemma trailingSeparator_last (s : string) :
  path.trailingSeparator s = last_is_sep s.
Proof.
  unfold path.trailingSeparator, JS.charAt_is, JS.len.
  destruct s as [|a s]; [reflexivity|].
  replace (Z.of_nat (String.length (String a s)) - 1)
    with (Z.of_nat (String.length s)) by (simpl String.length; lia).
  destruct (Z.ltb_spec (Z.of_nat (String.length s)) 0) as [H|_]; [lia|].
  rewrite Nat2Z.id. revert a. induction s as [|b s IH]; intros a.
  - reflexivity.
  - rewrite get_last. rewrite IH. reflexivity.
Qed.

Lemma last_is_sep_app (s t : string) :
  t <> "" -> last_is_sep (s +:+ t) = last_is_sep t.
Proof.
  intros Ht. induction s as [|a s IH]; [reflexivity|].
  simpl. destruct (s +:+ t) eqn:E; [|exact IH].
  destruct s; simpl in E; [contradiction|discriminate].
Qed.

Lemma no_sep_last (s : string) : no_sep s = true -> last_is_sep s = false.
Proof.
  induction s as [|a s IH]; [reflexivity|]. simpl.
  intros H. apply andb_true_iff in H as [Ha Hs].
  destruct s; [now apply negb_true_iff in Ha | auto].
Qed.

Lemma no_sep_app (s t : string) :
  no_sep (s +:+ t) = no_sep s && no_sep t.
Proof.
  induction s as [|a s IH]; [reflexivity|]. simpl.
  now rewrite IH, andb_assoc.
Qed.

Lemma scan_chars_app (allow : bool) (p q : string) (st : path.scan) :
  path.scan_chars allow (p +:+ q) st
  = path.scan_chars allow q (path.scan_chars allow p st).
Proof. revert st. induction p as [|c p IH]; intros st; simpl; auto. Qed.

Lemma seg_at_separator (allow : bool) (st : path.scan) :
  path.seg (path.at_separator allow st) = ""
  /\ path.dots (path.at_separator allow st) = 0.
Proof. unfold path.at_separator. repeat case_match; auto. Qed.

Lemma res_at_separator_idle (allow : bool) (st : path.scan) :
  path.seg st = "" ->
  path.res (path.at_separator allow st) = path.res st.
Proof. intros H. unfold path.at_separator. now rewrite H. Qed.

Lemma seg_after_trailing (allow : bool) (p : string) (st : path.scan) :
  last_is_sep p = true -> path.seg (path.scan_chars allow p st) = "".
Proof.
  revert st. induction p as [|c p IH]; intros st; [discriminate|].
  simpl. destruct p as [|d p].
  - intros H. simpl. unfold path.step, path.isPosixPathSeparator.
    change path.CHAR_FORWARD_SLASH with "/"%char. rewrite H.
    apply seg_at_separator.
  - intros H. now apply IH.
Qed.

(** After the characters of a root and a separator, the scan holds the
    normal form of the root and an empty segment. *)
Lemma scan_root_then_separator (allow : bool) (root : string) :
  let st := path.at_separator allow (path.scan_chars allow root path.scan0) in
  path.res st = path.normalizeString root allow
  /\ path.seg st = "" /\ path.dots st = 0.
Proof.
  simpl. split; [|apply seg_at_separator].
  unfold path.normalizeString. rewrite trailingSeparator_last.
  destruct (last_is_sep root) eqn:E; [|reflexivity].
  apply res_at_separator_idle. now apply seg_after_trailing.
Qed.

(** Scanning characters that are not separators only grows the segment;
    once a character other than a dot was seen, [dots] stays [-1]. *)
Lemma scan_plain (allow : bool) (s : string) (st : path.scan) :
  no_sep s = true ->
  let st' := path.scan_chars allow s st in
  path.res st' = path.res st
  /\ path.lastSegmentLength st' = path.lastSegmentLength st
  /\ path.seg st' = path.seg st +:+ s
  /\ (path.dots st = -1 -> path.dots st' = -1).
Proof.
  revert st. induction s as [|c s IH]; intros st Hs; simpl.
  - repeat split; auto. now rewrite append_nil_r.
  - simpl in Hs. apply andb_true_iff in Hs as [Hc Hs].
    unfold path.step, path.isPosixPathSeparator.
    change path.CHAR_FORWARD_SLASH with "/"%char.
    apply negb_true_iff in Hc. rewrite Hc.
    destruct (IH (path.at_char c st) Hs) as (H1 & H2 & H3 & H4).
    rewrite H1, H2, H3. simpl. repeat split.
    + now rewrite append_assoc.
    + intros Hd. apply H4. simpl. rewrite Hd.
      now rewrite andb_false_r.
Qed.

Lemma scan_name (allow : bool) (c : ascii) (s : string) (st : path.scan) :
  c <> "."%char -> no_sep (String c s) = true -> path.seg st = "" ->
  let st' := path.scan_chars allow (String c s) st in
  path.res st' = path.res st /\ path.seg st' = String c s
  /\ path.dots st' = -1.
Proof.
  intros Hc Hs Hseg. simpl in Hs. apply andb_true_iff in Hs as [Hsl Hs].
  simpl. unfold path.step, path.isPosixPathSeparator.
  change path.CHAR_FORWARD_SLASH with "/"%char.
  apply negb_true_iff in Hsl. rewrite Hsl.
  destruct (scan_plain allow s (path.at_char c st) Hs) as (H1 & _ & H3 & H4).
  rewrite H1, H3. simpl. rewrite Hseg. repeat split.
  apply H4. simpl. unfold path.CHAR_DOT.
  destruct (Ascii.eqb_spec c "."); [contradiction|reflexivity].
Qed.

Lemma at_separator_push (allow : bool) (st : path.scan) :
  path.seg st <> "" -> path.dots st = -1 ->
  path.res (path.at_separator allow st)
  = if 0 <? JS.len (path.res st)
    then path.res st +:+ "/" +:+ path.seg st else path.seg st.
Proof.
  intros Hseg Hdots. unfold path.at_separator. rewrite Hdots.
  apply String.eqb_neq in Hseg. rewrite Hseg. reflexivity.
Qed.

Lemma len_pos (s : string) : (0 <? JS.len s) = negb (String.eqb s "").
Proof. now destruct s. Qed.

(** [path.join(root, name)] for a name that holds no separator and does not
    begin with a dot: the normal form of the root, a separator unless that
    form is empty, and the name. *)
Lemma join_plain_name (root : string) (c : ascii) (s : string) :
  root <> "" -> c <> "."%char -> no_sep (String c s) = true ->
  let isAbsolute := JS.charAt_is root 0 path.CHAR_FORWARD_SLASH in
  let r := path.normalizeString root (negb isAbsolute) in
  path.join [root; String c s]
  = (if isAbsolute then "/" else "")
    +:+ (if String.eqb r "" then "" else r +:+ "/") +:+ String c s.
Proof.
  intros Hroot Hc Hs isAbs r.
  unfold path.join. cbn [fold_left].
  apply String.eqb_neq in Hroot. rewrite Hroot.
  change (String.eqb (String c s) "") with false. cbv beta iota.
  unfold path.normalize.
  assert (Hne : String.eqb (root +:+ "/" +:+ String c s) "" = false).
  { destruct root; [discriminate Hroot | reflexivity]. }
  rewrite Hne.
  assert (Habs : JS.charAt_is (root +:+ "/" +:+ String c s) 0
                              path.CHAR_FORWARD_SLASH = isAbs).
  { destruct root; [discriminate Hroot | reflexivity]. }
  rewrite Habs.
  assert (Htr : path.trailingSeparator (root +:+ "/" +:+ String c s) = false).
  { rewrite trailingSeparator_last, last_is_sep_app by discriminate.
    change (last_is_sep (String c s) = false). now apply no_sep_last. }
  rewrite Htr.
  assert (Hq : path.normalizeString (root +:+ "/" +:+ String c s) (negb isAbs)
               = (if String.eqb r "" then "" else r +:+ "/") +:+ String c s).
  { unfold path.normalizeString. rewrite Htr, scan_chars_app.
    change (path.scan_chars (negb isAbs) ("/" +:+ String c s) ?st)
      with (path.scan_chars (negb isAbs) (String c s)
              (path.at_separator (negb isAbs) st)).
    destruct (scan_root_then_separator (negb isAbs) root) as (Hres & Hseg & _).
    destruct (scan_name (negb isAbs) c s _ Hc Hs Hseg) as (H1 & H2 & H3).
    rewrite at_separator_push; rewrite ?H1, ?H2, ?H3, ?Hres;
      [|discriminate|reflexivity].
    fold r. rewrite len_pos. destruct (String.eqb r ""); simpl.
    - reflexivity.
    - now rewrite append_assoc. }
  rewrite Hq.
  assert (Hq' : String.eqb ((if String.eqb r "" then "" else r +:+ "/")
                            +:+ String c s) "" = false).
  { destruct (String.eqb r ""); [reflexivity|].
    destruct r; reflexivity. }
  rewrite Hq'. destruct isAbs; reflexivity.
Qed.

(** ** [path.normalize] is stable on what it returns *)

Lemma len_append (s t : string) : JS.len (s +:+ t) = JS.len s + JS.len t.
Proof.
  unfold JS.len. induction s as [|a s IH]; simpl String.length; [reflexivity|].
  simpl. lia.
Qed.

Lemma lastIndexOf_from_plain (s : string) (i acc : Z) :
  no_sep s = true -> JS.lastIndexOf_from "/" s i acc = acc.
Proof.
  revert i acc. induction s as [|a s IH]; intros i acc H; [reflexivity|].
  simpl in *. apply andb_true_iff in H as [Ha Hs].
  apply negb_true_iff in Ha. rewrite Ha. now apply IH.
Qed.

Lemma lastIndexOf_from_app (c : ascii) (s t : string) (i acc : Z) :
  JS.lastIndexOf_from c (s +:+ t) i acc
  = JS.lastIndexOf_from c t (i + JS.len s) (JS.lastIndexOf_from c s i acc).
Proof.
  revert i acc. induction s as [|a s IH]; intros i acc; simpl.
  - f_equal. unfold JS.len. simpl. lia.
  - rewrite IH. f_equal. unfold JS.len. simpl String.length. lia.
Qed.

Lemma lastIndexOf_plain (s : string) :
  no_sep s = true -> JS.lastIndexOf s "/" = -1.
Proof. intros H. now apply lastIndexOf_from_plain. Qed.

Lemma lastIndexOf_snoc_seg (r s : string) :
  no_sep s = true -> JS.lastIndexOf (r +:+ "/" +:+ s) "/" = JS.len r.
Proof.
  intros H. unfold JS.lastIndexOf. rewrite lastIndexOf_from_app.
  simpl. now rewrite lastIndexOf_from_plain.
Qed.

Lemma lastseg_len_plain (s : string) :
  no_sep s = true -> lastseg_len s = JS.len s.
Proof.
  intros H. unfold lastseg_len. change path.CHAR_FORWARD_SLASH with "/"%char.
  rewrite lastIndexOf_plain by assumption. lia.
Qed.

Lemma lastseg_len_snoc (r s : string) :
  no_sep s = true -> lastseg_len (r +:+ "/" +:+ s) = JS.len s.
Proof.
  intros H. unfold lastseg_len. change path.CHAR_FORWARD_SLASH with "/"%char.
  rewrite lastIndexOf_snoc_seg by assumption.
  rewrite !len_append. change (JS.len "/") with 1. lia.
Qed.

Lemma slice0_app (r t : string) : JS.slice0 (r +:+ t) (JS.len r) = r.
Proof.
  unfold JS.slice0, JS.len. rewrite Nat2Z.id.
  induction r as [|a r IH]; simpl.
  - now destruct t.
  - now rewrite IH.
Qed.

Lemma charAt_is_app_r (r t : string) (i : Z) (c : ascii) :
  0 <= i -> JS.charAt_is (r +:+ t) (JS.len r + i) c = JS.charAt_is t i c.
Proof.
  intros Hi. unfold JS.charAt_is, JS.len.
  destruct (Z.ltb_spec (Z.of_nat (String.length r) + i) 0) as [?|_]; [lia|].
  destruct (Z.ltb_spec i 0) as [?|_]; [lia|].
  replace (Z.to_nat (Z.of_nat (String.length r) + i))
    with (String.length r + Z.to_nat i)%nat by lia.
  induction r as [|a r IH]; simpl; [reflexivity|exact IH].
Qed.

Lemma dots_from_snoc (d : Z) (s : string) (c : ascii) :
  dots_from d (s +:+ String c "") = dot_step (dots_from d s) c.
Proof. revert d. induction s as [|a s IH]; intros d; simpl; auto. Qed.

Lemma dots_from_dead (s : string) : dots_from (-1) s = -1.
Proof.
  induction s as [|a s IH]; [reflexivity|]. simpl.
  unfold dot_step. now rewrite andb_false_r.
Qed.

Lemma dots_from_range (d : Z) (s : string) :
  dots_from d s = -1 \/ dots_from d s = d + JS.len s.
Proof.
  revert d. induction s as [|a s IH]; intros d; simpl.
  - right. unfold JS.len. simpl. lia.
  - unfold dot_step.
    destruct (Ascii.eqb a path.CHAR_DOT && negb (d =? -1)) eqn:E.
    + destruct (IH (d + 1)) as [H|H]; [now left|].
      right. rewrite H. unfold JS.len. simpl String.length. lia.
    + left. apply dots_from_dead.
Qed.

(** [dots] is 1 exactly on the segment ["."] and 2 exactly on [".."]. *)
Lemma dots_from_one (s : string) : dots_from 0 s = 1 -> s = ".".
Proof.
  intros H. destruct (dots_from_range 0 s) as [E|E]; [lia|].
  rewrite H in E. destruct s as [|a [|b s]].
  - discriminate E.
  - cbn [dots_from] in H. unfold dot_step in H.
    destruct (Ascii.eqb_spec a path.CHAR_DOT) as [Ha|Ha];
      [subst a; reflexivity|].
    cbn [andb] in H. lia.
  - unfold JS.len in E. simpl String.length in E. lia.
Qed.

Lemma dots_from_two (s : string) : dots_from 0 s = 2 -> s = "..".
Proof.
  intros H. destruct (dots_from_range 0 s) as [E|E]; [lia|].
  rewrite H in E. destruct s as [|a [|b [|c s]]].
  - discriminate E.
  - discriminate E.
  - cbn [dots_from] in H. unfold dot_step in H.
    destruct (Ascii.eqb_spec a path.CHAR_DOT) as [Ha|Ha]; cbn [andb] in H.
    + destruct (Ascii.eqb_spec b path.CHAR_DOT) as [Hb|Hb];
        [subst a b; reflexivity|].
      cbn [andb] in H. lia.
    + change (-1 =? -1) with true in H. rewrite andb_false_r in H. lia.
  - unfold JS.len in E. simpl String.length in E. lia.
Qed.

Lemma ups_nonempty (r : string) : ups r -> r <> "".
Proof. intros [|r' H]; [discriminate|]. destruct r'; discriminate. Qed.

Lemma canon_nonempty (allow : bool) (r : string) : canon allow r -> r <> "".
Proof.
  intros [r' _ H|s (H & _)|r' s _ _]; auto using ups_nonempty.
  destruct r'; discriminate.
Qed.

Lemma len_nonempty (r : string) : r <> "" -> (0 <? JS.len r) = true.
Proof. destruct r; [contradiction|reflexivity]. Qed.

(** A run of [..] segments ends with two dots that form its last segment. *)
Lemma ups_tail (r : string) :
  ups r ->
  2 <= JS.len r /\ lastseg_len r = 2
  /\ JS.charAt_is r (JS.len r - 1) path.CHAR_DOT = true
  /\ JS.charAt_is r (JS.len r - 2) path.CHAR_DOT = true.
Proof.
  intros [|r' H].
  - repeat split; reflexivity || (unfold JS.len; simpl; lia).
  - pose proof (lastseg_len_snoc r' ".." eq_refl) as Hl.
    change (r' +:+ "/" +:+ "..") with (r' +:+ "/..") in Hl.
    rewrite len_append. change (JS.len "/..") with 3.
    assert (0 <= JS.len r') by (unfold JS.len; lia).
    repeat split; [lia|exact Hl|..].
    + replace (JS.len r' + 3 - 1) with (JS.len r' + 2) by lia.
      now rewrite charAt_is_app_r.
    + replace (JS.len r' + 3 - 2) with (JS.len r' + 1) by lia.
      now rewrite charAt_is_app_r.
Qed.

Lemma last_not_up_ups (r : string) :
  ups r -> last_not_up r (lastseg_len r) = false.
Proof.
  intros H. unfold last_not_up.
  destruct (ups_tail r H) as (Hl & -> & -> & ->).
  destruct (Z.ltb_spec (JS.len r) 2); [lia|reflexivity].
Qed.

Lemma two_chars (s : string) :
  JS.len s = 2 -> exists a b : ascii, s = String a (String b "").
Proof.
  destruct s as [|a [|b [|c s]]]; unfold JS.len; simpl String.length;
    try lia. eauto.
Qed.

Lemma last_not_up_normal (r s : string) :
  normal s ->
  last_not_up s (lastseg_len s) = true
  /\ last_not_up (r +:+ "/" +:+ s) (lastseg_len (r +:+ "/" +:+ s)) = true.
Proof.
  intros (Hne & Hsep & Hdot & Hup).
  rewrite lastseg_len_plain, lastseg_len_snoc by assumption.
  unfold last_not_up. destruct (Z.eqb_spec (JS.len s) 2) as [E|E];
    [|simpl; rewrite !orb_true_r; auto].
  destruct (two_chars s E) as (a & b & ->).
  assert (Hab : negb (Ascii.eqb b path.CHAR_DOT)
                || negb (Ascii.eqb a path.CHAR_DOT) = true).
  { destruct (Ascii.eqb_spec b path.CHAR_DOT) as [Hb|]; [|reflexivity].
    destruct (Ascii.eqb_spec a path.CHAR_DOT) as [Ha|]; [|reflexivity].
    subst a b. contradiction. }
  split.
  - change (JS.charAt_is (String a (String b "")) (JS.len (String a (String b "")) - 1) path.CHAR_DOT)
      with (Ascii.eqb b path.CHAR_DOT).
    change (JS.charAt_is (String a (String b "")) (JS.len (String a (String b "")) - 2) path.CHAR_DOT)
      with (Ascii.eqb a path.CHAR_DOT).
    revert Hab.
    destruct (Ascii.eqb b path.CHAR_DOT), (Ascii.eqb a path.CHAR_DOT);
      simpl; intros Hab; try discriminate Hab; now rewrite ?orb_true_r.
  - rewrite (len_append r). change (JS.len ("/" +:+ String a (String b ""))) with 3.
    assert (0 <= JS.len r) by (unfold JS.len; lia).
    replace (JS.len r + 3 - 1) with (JS.len r + 2) by lia.
    replace (JS.len r + 3 - 2) with (JS.len r + 1) by lia.
    rewrite !charAt_is_app_r by lia.
    change (JS.charAt_is ("/" +:+ String a (String b "")) 2 path.CHAR_DOT)
      with (Ascii.eqb b path.CHAR_DOT).
    change (JS.charAt_is ("/" +:+ String a (String b "")) 1 path.CHAR_DOT)
      with (Ascii.eqb a path.CHAR_DOT).
    revert Hab.
    destruct (Ascii.eqb b path.CHAR_DOT), (Ascii.eqb a path.CHAR_DOT);
      simpl; intros Hab; try discriminate Hab; now rewrite ?orb_true_r.
Qed.

Lemma scan_canon_fresh (allow : bool) (r : string) :
  r = "" \/ canon allow r ->
  scan_canon allow {| path.res := r; path.lastSegmentLength := lastseg_len r;
                      path.seg := ""; path.dots := 0 |}.
Proof. intros H. split; simpl; auto. Qed.

Lemma canon_last (allow : bool) (r : string) :
  canon allow r ->
  ups r
  \/ (exists s, normal s /\ r = s)
  \/ (exists r0 s, canon allow r0 /\ normal s /\ r = r0 +:+ "/" +:+ s).
Proof.
  intros [r' _ H|s H|r0 s H0 H].
  - now left.
  - right; left. eauto.
  - right; right. eauto 6.
Qed.

Lemma scan_canon_separator (allow : bool) (st : path.scan) :
  scan_canon allow st -> scan_canon allow (path.at_separator allow st).
Proof.
  intros [Hres Hlen Hseg Hdots]. unfold path.at_separator.
  fold (last_not_up (path.res st) (path.lastSegmentLength st)).
  destruct (String.eqb (path.seg st) "" || (path.dots st =? 1)) eqn:E1.
  { split; simpl; auto. }
  apply orb_false_iff in E1 as [Hne Hone].
  apply String.eqb_neq in Hne. apply Z.eqb_neq in Hone.
  destruct (path.dots st =? 2) eqn:E2.
  - (* the segment is [..] *)
    rewrite Hlen.
    destruct (last_not_up (path.res st) (lastseg_len (path.res st))) eqn:E3.
    + destruct (2 <? JS.len (path.res st)) eqn:E4.
      * destruct (JS.lastIndexOf (path.res st) path.CHAR_FORWARD_SLASH =? -1)
          eqn:E5.
        { apply (scan_canon_fresh allow ""). now left. }
        apply Z.eqb_neq in E5.
        destruct Hres as [Hr|Hr]; [rewrite Hr in E4; discriminate E4|].
        destruct (canon_last allow _ Hr)
          as [Hu | [(s & Hs & Er) | (r0 & s & Hr0 & Hs & Er)]].
        -- rewrite (last_not_up_ups _ Hu) in E3. discriminate E3.
        -- exfalso. apply E5. rewrite Er. apply lastIndexOf_plain, Hs.
        -- rewrite Er. change path.CHAR_FORWARD_SLASH with "/"%char.
           rewrite lastIndexOf_snoc_seg by apply Hs.
           rewrite slice0_app. apply scan_canon_fresh. now right.
      * destruct (negb (JS.len (path.res st) =? 0)) eqn:E5.
        { apply (scan_canon_fresh allow ""). now left. }
        destruct allow eqn:Ea; [|split; simpl; auto].
        apply negb_false_iff, Z.eqb_eq in E5.
        destruct (path.res st) eqn:Er; [|discriminate E5].
        apply (scan_canon_fresh true ".."). right.
        apply canon_ups; [reflexivity|constructor].
    + destruct allow eqn:Ea; [|split; simpl; auto].
      destruct Hres as [Hr|Hr]; [rewrite Hr in E3; discriminate E3|].
      assert (Hu : ups (path.res st)).
      { destruct (canon_last true _ Hr)
          as [Hu | [(s & Hs & Er) | (r0 & s & Hr0 & Hs & Er)]]; [exact Hu|..].
        - rewrite Er in E3.
          rewrite (proj1 (last_not_up_normal "" s Hs)) in E3. discriminate E3.
        - rewrite Er in E3.
          rewrite (proj2 (last_not_up_normal r0 s Hs)) in E3. discriminate E3. }
      rewrite (len_nonempty _ (ups_nonempty _ Hu)).
      pose proof (lastseg_len_snoc (path.res st) ".." eq_refl) as Hl.
      change (path.res st +:+ "/" +:+ "..") with (path.res st +:+ "/..") in Hl.
      change (JS.len "..") with 2 in Hl. rewrite <- Hl.
      apply scan_canon_fresh. right.
      apply canon_ups; [reflexivity|now constructor].
  - (* any other segment is appended *)
    apply Z.eqb_neq in E2.
    assert (Hs : normal (path.seg st)).
    { repeat split; auto.
      - intros E. rewrite E in Hdots. now apply Hone.
      - intros E. rewrite E in Hdots. now apply E2. }
    destruct Hres as [Hr|Hr].
    + rewrite Hr. simpl.
      rewrite <- (lastseg_len_plain (path.seg st)) by apply Hs.
      apply scan_canon_fresh. right. now apply canon_seg.
    + rewrite (len_nonempty _ (canon_nonempty _ _ Hr)).
      rewrite <- (lastseg_len_snoc (path.res st) (path.seg st)) by apply Hs.
      apply scan_canon_fresh. right. now apply canon_snoc.
Qed.

Lemma scan_canon_char (allow : bool) (c : ascii) (st : path.scan) :
  c <> "/"%char -> scan_canon allow st -> scan_canon allow (path.at_char c st).
Proof.
  intros Hc [Hres Hlen Hseg Hdots]. split; simpl; auto.
  - rewrite no_sep_app, Hseg. simpl.
    destruct (Ascii.eqb_spec c "/"); [contradiction|reflexivity].
  - rewrite dots_from_snoc, <- Hdots. reflexivity.
Qed.

Lemma scan_canon_chars (allow : bool) (p : string) (st : path.scan) :
  scan_canon allow st -> scan_canon allow (path.scan_chars allow p st).
Proof.
  revert st. induction p as [|c p IH]; intros st H; [exact H|].
  simpl. apply IH. unfold path.step, path.isPosixPathSeparator.
  destruct (Ascii.eqb_spec c path.CHAR_FORWARD_SLASH) as [_|Hc].
  - now apply scan_canon_separator.
  - now apply scan_canon_char.
Qed.

(** What [normalizeString] returns is empty or canonical. *)
Lemma normalizeString_canon (p : string) (allow : bool) :
  path.normalizeString p allow = ""
  \/ canon allow (path.normalizeString p allow).
Proof.
  unfold path.normalizeString.
  assert (H : scan_canon allow (path.scan_chars allow p path.scan0)).
  { apply scan_canon_chars. apply (scan_canon_fresh allow ""). now left. }
  destruct (path.trailingSeparator p).
  - apply H.
  - now apply scan_canon_separator.
Qed.

(** Scanning a segment's characters: [dots] follows [dots_from]. *)
Lemma scan_segment (allow : bool) (s : string) (st : path.scan) :
  no_sep s = true ->
  let st' := path.scan_chars allow s st in
  path.res st' = path.res st
  /\ path.lastSegmentLength st' = path.lastSegmentLength st
  /\ path.seg st' = path.seg st +:+ s
  /\ path.dots st' = dots_from (path.dots st) s.
Proof.
  revert st. induction s as [|c s IH]; intros st Hs; simpl.
  - repeat split; auto. now rewrite append_nil_r.
  - simpl in Hs. apply andb_true_iff in Hs as [Hc Hs].
    unfold path.step, path.isPosixPathSeparator.
    change path.CHAR_FORWARD_SLASH with "/"%char.
    apply negb_true_iff in Hc. rewrite Hc.
    destruct (IH (path.at_char c st) Hs) as (H1 & H2 & H3 & H4).
    rewrite H1, H2, H3, H4. simpl. repeat split.
    now rewrite append_assoc.
Qed.

(** Reading a normal segment and the separator after it appends it. *)
Lemma scan_normal_segment (allow : bool) (s : string) (st : path.scan) :
  normal s -> path.seg st = "" -> path.dots st = 0 ->
  let st' := path.at_separator allow (path.scan_chars allow s st) in
  path.res st'
  = (if 0 <? JS.len (path.res st) then path.res st +:+ "/" +:+ s else s)
  /\ path.lastSegmentLength st' = JS.len s
  /\ path.seg st' = "" /\ path.dots st' = 0.
Proof.
  intros (Hne & Hsep & Hdot & Hup) Hseg Hdots.
  destruct (scan_segment allow s st Hsep) as (H1 & H2 & H3 & H4).
  rewrite Hseg in H3. rewrite Hdots in H4. simpl in H3.
  cbv zeta. split; [|split; [|apply seg_at_separator]];
    unfold path.at_separator; rewrite H1, H3, H4.
  all: apply String.eqb_neq in Hne; rewrite Hne.
  all: destruct (Z.eqb_spec (dots_from 0 s) 1) as [E|_];
    [apply dots_from_one in E; contradiction|].
  all: destruct (Z.eqb_spec (dots_from 0 s) 2) as [E|_];
    [apply dots_from_two in E; contradiction|].
  all: reflexivity.
Qed.

Lemma scan_chars_sep (allow : bool) (p q : string) (st : path.scan) :
  path.scan_chars allow (p +:+ "/" +:+ q) st
  = path.scan_chars allow q
      (path.at_separator allow (path.scan_chars allow p st)).
Proof. rewrite scan_chars_app. reflexivity. Qed.

(** Reading [..] and the separator after it, on top of nothing or of a run
    of [..] segments, appends it when the path may climb. *)
Lemma scan_up_segment (st : path.scan) :
  path.seg st = "" -> path.dots st = 0 ->
  path.res st = ""
  \/ (ups (path.res st) /\ path.lastSegmentLength st = 2) ->
  let st' := path.at_separator true (path.scan_chars true ".." st) in
  path.res st'
  = (if 0 <? JS.len (path.res st) then path.res st +:+ "/.." else "..")
  /\ path.lastSegmentLength st' = 2
  /\ path.seg st' = "" /\ path.dots st' = 0.
Proof.
  intros Hseg Hdots Hres.
  destruct (scan_segment true ".." st eq_refl) as (H1 & H2 & H3 & H4).
  rewrite Hseg in H3. rewrite Hdots in H4.
  change ("" +:+ "..") with ".." in H3.
  change (dots_from 0 "..") with 2 in H4.
  cbv zeta. split; [|split; [|apply seg_at_separator]];
    unfold path.at_separator; rewrite H1, H2, H3, H4;
    change (String.eqb ".." "" || (2 =? 1)) with false;
    change (2 =? 2) with true; cbv iota;
    fold (last_not_up (path.res st) (path.lastSegmentLength st)).
  all: destruct Hres as [Hr | [Hu Hl]].
  all: try (rewrite Hr; reflexivity).
  all: rewrite Hl; rewrite <- (proj1 (proj2 (ups_tail _ Hu))) at 1;
    rewrite (last_not_up_ups _ Hu); reflexivity.
Qed.

Lemma rescan_ups (r : string) (st : path.scan) :
  ups r -> path.res st = "" -> path.seg st = "" -> path.dots st = 0 ->
  let st' := path.at_separator true (path.scan_chars true r st) in
  path.res st' = r /\ path.lastSegmentLength st' = 2
  /\ path.seg st' = "" /\ path.dots st' = 0.
Proof.
  intros Hu Hres Hseg Hdots. induction Hu as [|r Hu IH].
  - destruct (scan_up_segment st Hseg Hdots (or_introl Hres))
      as (H1 & H2 & H3 & H4).
    rewrite Hres in H1. auto.
  - destruct IH as (I1 & I2 & I3 & I4).
    change (r +:+ "/..") with (r +:+ "/" +:+ "..").
    cbv zeta. rewrite scan_chars_sep.
    destruct (scan_up_segment _ I3 I4) as (H1 & H2 & H3 & H4).
    { right. rewrite I1. auto. }
    rewrite I1 in H1. rewrite (len_nonempty _ (ups_nonempty _ Hu)) in H1.
    auto.
Qed.

(** Scanning a canonical text, from a state that holds nothing, rebuilds
    that text. *)
Lemma rescan (allow : bool) (r : string) (st : path.scan) :
  canon allow r -> path.res st = "" -> path.seg st = "" -> path.dots st = 0 ->
  let st' := path.at_separator allow (path.scan_chars allow r st) in
  path.res st' = r /\ path.seg st' = "" /\ path.dots st' = 0.
Proof.
  intros Hc Hres Hseg Hdots. induction Hc as [r Ha Hu|s Hs|r s Hr IH Hs].
  - subst allow. destruct (rescan_ups r st Hu Hres Hseg Hdots)
      as (H1 & _ & H3 & H4). auto.
  - destruct (scan_normal_segment allow s st Hs Hseg Hdots)
      as (H1 & _ & H3 & H4).
    rewrite Hres in H1. auto.
  - destruct IH as (I1 & I3 & I4).
    cbv zeta. rewrite scan_chars_sep.
    destruct (scan_normal_segment allow s _ Hs I3 I4) as (H1 & _ & H3 & H4).
    rewrite I1 in H1. rewrite (len_nonempty _ (canon_nonempty _ _ Hr)) in H1.
    auto.
Qed.

Lemma charAt0_app (r t : string) (c : ascii) :
  r <> "" -> JS.charAt_is (r +:+ t) 0 c = JS.charAt_is r 0 c.
Proof. destruct r; [contradiction|reflexivity]. Qed.

Lemma normal_head (s : string) : normal s -> JS.charAt_is s 0 "/" = false.
Proof.
  intros (Hne & Hsep & _). destruct s as [|a s]; [contradiction|].
  simpl in Hsep. apply andb_true_iff in Hsep as [Ha _].
  now apply negb_true_iff in Ha.
Qed.

(** A canonical text neither begins nor ends with a separator. *)
Lemma canon_head (allow : bool) (r : string) :
  canon allow r -> JS.charAt_is r 0 "/" = false.
Proof.
  intros H. induction H as [r _ Hu|s Hs|r s Hr IH Hs].
  - induction Hu as [|r Hu IH]; [reflexivity|].
    now rewrite charAt0_app by (now apply ups_nonempty).
  - now apply normal_head.
  - now rewrite charAt0_app by (now apply canon_nonempty in Hr).
Qed.

Lemma canon_tail (allow : bool) (r : string) :
  canon allow r -> last_is_sep r = false.
Proof.
  intros [r' _ Hu|s Hs|r' s Hr Hs].
  - destruct Hu as [|r'' Hu]; [reflexivity|].
    now rewrite last_is_sep_app.
  - apply no_sep_last, Hs.
  - rewrite last_is_sep_app by discriminate.
    destruct Hs as (Hne & Hsep & _).
    change (last_is_sep ("/" +:+ s)) with (last_is_sep (String "/" s)).
    destruct s as [|a s]; [contradiction|].
    change (last_is_sep (String a s) = false). now apply no_sep_last.
Qed.

(** [path.normalize] returns a canonical text, after the root separator of
    an absolute path, as it is. *)
Lemma normalize_canon (isAbsolute : bool) (r : string) :
  canon (negb isAbsolute) r ->
  path.normalize ((if isAbsolute then "/" else "") +:+ r)
  = (if isAbsolute then "/" else "") +:+ r.
Proof.
  intros Hc. pose proof (canon_nonempty _ _ Hc) as Hne.
  set (p := (if isAbsolute then "/" else "") +:+ r).
  assert (Hp : String.eqb p "" = false).
  { unfold p. destruct isAbsolute; [reflexivity|].
    now apply String.eqb_neq. }
  assert (Habs : JS.charAt_is p 0 path.CHAR_FORWARD_SLASH = isAbsolute).
  { unfold p. destruct isAbsolute; [reflexivity|].
    apply (canon_head _ _ Hc). }
  assert (Htr : path.trailingSeparator p = false).
  { rewrite trailingSeparator_last. unfold p.
    rewrite last_is_sep_app by assumption. apply (canon_tail _ _ Hc). }
  assert (Hq : path.normalizeString p (negb isAbsolute) = r).
  { unfold path.normalizeString. rewrite Htr. unfold p.
    rewrite scan_chars_app.
    apply (rescan (negb isAbsolute) r); [exact Hc|..];
      destruct isAbsolute; reflexivity. }
  unfold path.normalize. rewrite Hp, Habs, Htr, Hq.
  apply String.eqb_neq in Hne. rewrite Hne.
  unfold p. destruct isAbsolute; reflexivity.
Qed.

Lemma normalize_canon_slash (isAbsolute : bool) (r : string) :
  canon (negb isAbsolute) r ->
  path.normalize ((if isAbsolute then "/" else "") +:+ r +:+ "/")
  = (if isAbsolute then "/" else "") +:+ r +:+ "/".
Proof.
  intros Hc. pose proof (canon_nonempty _ _ Hc) as Hne.
  set (p := (if isAbsolute then "/" else "") +:+ r +:+ "/").
  assert (Hp : String.eqb p "" = false).
  { unfold p. destruct isAbsolute; [reflexivity|].
    destruct r; [contradiction|reflexivity]. }
  assert (Habs : JS.charAt_is p 0 path.CHAR_FORWARD_SLASH = isAbsolute).
  { unfold p. destruct isAbsolute; [reflexivity|].
    simpl. rewrite charAt0_app by assumption. apply (canon_head _ _ Hc). }
  assert (Htr : path.trailingSeparator p = true).
  { rewrite trailingSeparator_last. unfold p.
    rewrite <- append_assoc. now rewrite last_is_sep_app. }
  assert (Hq : path.normalizeString p (negb isAbsolute) = r).
  { unfold path.normalizeString. rewrite Htr. unfold p.
    rewrite scan_chars_app.
    change (r +:+ "/") with (r +:+ "/" +:+ "").
    rewrite scan_chars_sep.
    apply (rescan (negb isAbsolute) r); [exact Hc|..];
      destruct isAbsolute; reflexivity. }
  unfold path.normalize. rewrite Hp, Habs, Htr, Hq.
  apply String.eqb_neq in Hne. rewrite Hne.
  unfold p. destruct isAbsolute; reflexivity.
Qed.

(** [path.normalize] changes nothing in a text it returned. *)
Lemma normalize_idempotent (p : string) :
  path.normalize (path.normalize p) = path.normalize p.
Proof.
  unfold path.normalize at 2 3.
  destruct (String.eqb p ""); [reflexivity|].
  set (isAbs := JS.charAt_is p 0 path.CHAR_FORWARD_SLASH).
  set (q := path.normalizeString p (negb isAbs)).
  destruct (String.eqb_spec q "") as [Hq|Hq].
  - destruct isAbs; [reflexivity|].
    destruct (path.trailingSeparator p); reflexivity.
  - destruct (normalizeString_canon p (negb isAbs)) as [E|Hc];
      [contradiction|]. fold q in Hc.
    destruct (path.trailingSeparator p).
    + pose proof (normalize_canon_slash isAbs q Hc) as H.
      destruct isAbs; exact H.
    + pose proof (normalize_canon isAbs q Hc) as H.
      destruct isAbs; exact H.
Qed.

Lemma plain_name_normal (c : ascii) (s : string) :
  c <> "."%char -> no_sep (String c s) = true -> normal (String c s).
Proof.
  intros Hc Hs. repeat split; try discriminate; auto.
  - intros [= E _]. contradiction.
  - intros [= E _]. contradiction.
Qed.

Lemma key_stable (p : string) :
  path.normalize p = p -> path.trailingSeparator p = false -> fs.key p = p.
Proof. intros Hn Ht. unfold fs.key. now rewrite Hn, Ht. Qed.

(** The key of a root, from the normal form of its text. *)
Lemma key_root (root : string) :
  root <> "" ->
  let isAbsolute := JS.charAt_is root 0 path.CHAR_FORWARD_SLASH in
  let r := path.normalizeString root (negb isAbsolute) in
  fs.key root
  = if String.eqb r "" then (if isAbsolute then "/" else ".")
    else (if isAbsolute then "/" else "") +:+ r.
Proof.
  intros Hroot isAbs r. unfold fs.key, path.normalize.
  apply String.eqb_neq in Hroot. rewrite Hroot.
  fold isAbs. fold r.
  destruct (String.eqb_spec r "") as [Hr|Hr].
  - destruct isAbs; [reflexivity|].
    destruct (path.trailingSeparator root); reflexivity.
  - destruct (normalizeString_canon root (negb isAbs)) as [E|Hc];
      [contradiction|]. fold r in Hc.
    set (P := if isAbs then "/" else "").
    assert (HP' : (if isAbs then "/" +:+ r else r) = P +:+ r).
    { unfold P. now destruct isAbs. }
    destruct (path.trailingSeparator root).
    + replace (if isAbs then "/" +:+ r +:+ "/" else r +:+ "/")
        with ((P +:+ r) +:+ "/") by (unfold P; now destruct isAbs).
      rewrite trailingSeparator_last, last_is_sep_app by discriminate.
      change (last_is_sep "/") with true.
      assert (Hne : String.eqb ((P +:+ r) +:+ "/") "/" = false).
      { apply String.eqb_neq. intros E. apply (f_equal JS.len) in E.
        rewrite !len_append in E. change (JS.len "/") with 1 in E.
        assert (0 <= JS.len P) by (unfold JS.len; lia).
        assert (0 < JS.len r) by (destruct r; [contradiction|];
                                  unfold JS.len; simpl String.length; lia).
        lia. }
      rewrite Hne. simpl andb. cbv iota.
      rewrite len_append. change (JS.len "/") with 1.
      replace (JS.len (P +:+ r) + 1 - 1) with (JS.len (P +:+ r)) by lia.
      apply slice0_app.
    + rewrite HP'. rewrite trailingSeparator_last.
      assert (Hl : last_is_sep (P +:+ r) = false).
      { rewrite last_is_sep_app by assumption. apply (canon_tail _ _ Hc). }
      now rewrite Hl.
Qed.

Lemma substring_skip (r t : string) (n m : nat) :
  String.substring (String.length r + n) m (r +:+ t) = String.substring n m t.
Proof. induction r as [|a r IH]; simpl; auto. Qed.

Lemma substring_all (t : string) (m : nat) :
  (String.length t <= m)%nat -> String.substring 0 m t = t.
Proof.
  revert m. induction t as [|a t IH]; intros m Hm; simpl.
  - now destruct m.
  - destruct m as [|m]; simpl in Hm; [lia|]. rewrite IH by lia. reflexivity.
Qed.

Lemma length_append (s t : string) :
  String.length (s +:+ t) = (String.length s + String.length t)%nat.
Proof. induction s as [|a s IH]; simpl; auto. Qed.

Lemma dirname_snoc (x name : string) :
  x <> "" -> no_sep name = true ->
  fs.dirname (x +:+ "/" +:+ name) = x /\ fs.basename (x +:+ "/" +:+ name) = name.
Proof.
  intros Hx Hn. unfold fs.dirname, fs.basename.
  change path.CHAR_FORWARD_SLASH with "/"%char.
  rewrite lastIndexOf_snoc_seg by assumption.
  assert (Hl : 0 < JS.len x)
    by (destruct x; [contradiction|]; unfold JS.len; simpl String.length; lia).
  destruct (Z.eqb_spec (JS.len x) (-1)); [lia|].
  destruct (Z.eqb_spec (JS.len x) 0); [lia|].
  split; [apply slice0_app|].
  unfold JS.len. replace (Z.to_nat (Z.of_nat (String.length x) + 1))
    with (String.length x + 1)%nat by lia.
  rewrite substring_skip. change ("/" +:+ name) with (String "/" name).
  simpl String.substring. apply substring_all.
  rewrite length_append. simpl. lia.
Qed.

Lemma dirname_top (name : string) :
  no_sep name = true ->
  fs.dirname ("/" +:+ name) = "/" /\ fs.basename ("/" +:+ name) = name.
Proof.
  intros Hn. unfold fs.dirname, fs.basename.
  change path.CHAR_FORWARD_SLASH with "/"%char.
  change ("/" +:+ name) with ("" +:+ "/" +:+ name).
  rewrite lastIndexOf_snoc_seg by assumption.
  split; [reflexivity|].
  change ("" +:+ "/" +:+ name) with (String "/" name).
  simpl. apply substring_all. lia.
Qed.

Lemma dirname_here (name : string) :
  no_sep name = true ->
  fs.dirname name = "." /\ fs.basename name = name.
Proof.
  intros Hn. unfold fs.dirname, fs.basename.
  change path.CHAR_FORWARD_SLASH with "/"%char.
  rewrite lastIndexOf_plain by assumption.
  split; [reflexivity|]. simpl. now apply substring_all.
Qed.

(** Where [path.join(root, name)] lies, for a name that holds no separator
    and does not begin with a dot: it is its own key, its directory is the
    root's key and its last segment is the name. *)
Lemma stored_path (root : string) (c : ascii) (s : string) :
  root <> "" -> c <> "."%char -> no_sep (String c s) = true ->
  let filePath := path.join [root; String c s] in
  filePath <> ""
  /\ path.trailingSeparator filePath = false
  /\ fs.key filePath = filePath
  /\ fs.dirname filePath = fs.key root
  /\ fs.basename filePath = String c s.
Proof.
  intros Hroot Hc Hs. cbv zeta.
  rewrite (join_plain_name root c s Hroot Hc Hs).
  rewrite (key_root root Hroot).
  set (isAbs := JS.charAt_is root 0 path.CHAR_FORWARD_SLASH).
  set (r := path.normalizeString root (negb isAbs)).
  pose proof (plain_name_normal c s Hc Hs) as Hn.
  set (name := String c s) in *.
  set (P := if isAbs then "/" else "").
  assert (Hshape : exists t : string,
             canon (negb isAbs) t
             /\ P +:+ (if String.eqb r "" then "" else r +:+ "/") +:+ name
                = P +:+ t
             /\ fs.dirname (P +:+ t)
                = (if String.eqb r "" then (if isAbs then "/" else ".")
                   else P +:+ r)
             /\ fs.basename (P +:+ t) = name).
  { destruct (String.eqb_spec r "") as [Hr|Hr].
    - exists name. split; [now apply canon_seg|]. split; [reflexivity|].
      unfold P. destruct isAbs.
      + now apply dirname_top.
      + now apply dirname_here.
    - exists (r +:+ "/" +:+ name).
      destruct (normalizeString_canon root (negb isAbs)) as [E|Hcr];
        [contradiction|]. fold r in Hcr.
      split; [now apply canon_snoc|].
      split; [now rewrite append_assoc|].
      rewrite <- append_assoc. apply dirname_snoc; [|assumption].
      unfold P. destruct isAbs; [discriminate|assumption]. }
  destruct Hshape as (t & Hct & -> & Hdir & Hbase).
  assert (Htr : path.trailingSeparator (P +:+ t) = false).
  { rewrite trailingSeparator_last.
    rewrite last_is_sep_app by (now apply canon_nonempty in Hct).
    apply (canon_tail _ _ Hct). }
  split; [|split; [exact Htr|split; [|split; [exact Hdir|exact Hbase]]]].
  - apply canon_nonempty in Hct. unfold P.
    destruct isAbs; [discriminate|assumption].
  - apply key_stable; [|exact Htr]. apply (normalize_canon isAbs t Hct).
Qed.

(** ** The disk operations *)

Lemma entry_after_io (p : string) (w : world) :
  fs.entry p (after_io w) = fs.entry p w.
Proof. reflexivity. Qed.

Lemma entry_deleted (p : string) (d : gmap string fs.node) (w : world) :
  fs.entry p (with_disk (delete (fs.key p) d) w) = None.
Proof.
  unfold fs.entry, with_disk; simpl.
  destruct (String.eqb p ""); [reflexivity|].
  now rewrite lookup_delete_eq.
Qed.

Lemma unlinkSync_file (p : string) (w : world) (d : string) (b m : Z) :
  hd false (fs.io_errors w) = false ->
  fs.entry p w = Some (fs.File d b m) ->
  fs.unlinkSync p w
  = (Return tt, with_disk (delete (fs.key p) (fs.disk w)) (after_io w)).
Proof.
  intros Hio He. unfold fs.unlinkSync, fs.io_error. rewrite Hio.
  fold (after_io w). rewrite entry_after_io, He. reflexivity.
Qed.

(** Whatever [unlinkSync] does, the path is gone when it returns, and the
    disk is as it was when it throws. *)
Lemma unlinkSync_cases (p : string) (w : world) :
  (exists w', fs.unlinkSync p w = (Return tt, w') /\ fs.entry p w' = None)
  \/ (exists e, fs.unlinkSync p w = (Throw e, after_io w)).
Proof.
  unfold fs.unlinkSync, fs.io_error. fold (after_io w).
  destruct (hd false (fs.io_errors w)); [right; eauto|].
  rewrite entry_after_io.
  destruct (fs.entry p w) as [[d b m|s b m]|] eqn:E; [left|right; eauto..].
  eexists. split; [reflexivity|]. apply entry_deleted.
Qed.


Lemma entry_inserted_file (p k : string) (w : world) (d : string) (b m : Z) :
  is_file (fs.entry p w) = true ->
  is_file (fs.entry p (with_disk (<[k := fs.File d b m]> (fs.disk w)) w)) = true.
Proof.
  unfold fs.entry, with_disk; simpl.
  destruct (String.eqb p ""); [easy|].
  destruct (decide (k = fs.key p)) as [->|Hne].
  - rewrite lookup_insert_eq.
    destruct (fs.disk w !! fs.key p) as [[]|]; try easy.
    now destruct (path.trailingSeparator p).
  - now rewrite lookup_insert_ne.
Qed.

(** [copyFileSync] takes one scripted outcome and leaves its source a
    file, whether it returns or throws. *)
Lemma copyFileSync_keeps_source (src dest : string) (w w' : world)
      (o : outcome unit) :
  is_file (fs.entry src w) = true ->
  fs.copyFileSync src dest w = (o, w') ->
  is_file (fs.entry src w') = true /\ fs.io_errors w' = tl (fs.io_errors w).
Proof.
  intros Hsrc. unfold fs.copyFileSync, fs.io_error, fs.set_disk.
  fold (after_io w).
  destruct (hd false (fs.io_errors w)); [intros [= <- <-]; auto|].
  rewrite entry_after_io.
  destruct (fs.entry src w) as [[d b m|]|] eqn:E; try discriminate Hsrc.
  destruct (_ || _); [intros [= <- <-]; rewrite entry_after_io, E; auto|].
  simpl fs.disk.
  repeat case_match; intros [= <- <-];
    try (rewrite entry_after_io, E; auto).
  all: split; [|reflexivity].
  all: apply (entry_inserted_file src _ (after_io w));
       now rewrite entry_after_io, E.
Qed.

(** ** The probes *)

(** C9: [health] always answers 200 with exactly [{status: 'ok',
    timestamp, service: 'csv-upload'}], the timestamp being the clock's
    reading; [liveness] always answers 200 with exactly [{live: true}];
    [readiness] answers 200 with exactly
    [{ready: true, storage: 'available'}] whenever something exists at the
    storage root's path, be it a directory or not, and 503 with exactly
    [{ready: false, storage: 'unavailable'}] when nothing exists there.
    None of them changes the world. *)
Theorem probes_answer (root : string) (w : world) :
  health w
  = (Return (Answer 200 (JObj [("status", JStr "ok");
                               ("timestamp", JTime (fs.clock w));
                               ("service", JStr "csv-upload")])), w)
  /\ liveness w = (Return (Answer 200 (JObj [("live", JBool true)])), w)
  /\ (is_Some (fs.entry root w) ->
      readiness root w
      = (Return (Answer 200 (JObj [("ready", JBool true);
                                   ("storage", JStr "available")])), w))
  /\ (fs.entry root w = None ->
      readiness root w
      = (Return (Answer 503 (JObj [("ready", JBool false);
                                   ("storage", JStr "unavailable")])), w)).
Proof.
  repeat split.
  - intros H. unfold readiness, try_catch, fs.existsSync; simpl.
    unfold mbind, M_bind, mret, M_ret; simpl.
    now rewrite bool_decide_eq_true_2.
  - intros H. unfold readiness, try_catch, fs.existsSync; simpl.
    unfold mbind, M_bind, mret, M_ret; simpl.
    rewrite bool_decide_eq_false_2; [reflexivity|].
    rewrite H. intros [? ?]; discriminate.
Qed.

Lemma probes_answer_witness :
  readiness "./uploads" probe_world
  = (Return (Answer 200 (JObj [("ready", JBool true);
                               ("storage", JStr "available")])), probe_world)
  /\ readiness "./uploads" no_disk
     = (Return (Answer 503 (JObj [("ready", JBool false);
                                  ("storage", JStr "unavailable")])), no_disk).
Proof.
  split.
  - apply (probes_answer "./uploads" probe_world).
    exists (fs.Dir 4096 1700000000000 1700000000000). vm_compute. reflexivity.
  - apply (probes_answer "./uploads" no_disk). vm_compute. reflexivity.
Defined.

(** The claim as the specification words it, "200 when the storage root is
    accessible, 503 otherwise", fails where the root's path is a regular
    file: it cannot be listed, and [readiness] answers 200 with
    [storage: 'available']. *)
Lemma readiness_accepts_a_file_root :
  fs.entry "uploads" file_root_world
  = Some (fs.File "not a directory" 1700000000000 1700000000000)
  /\ (fs.readdirSync "uploads" file_root_world).1
     = Throw "ENOTDIR: not a directory, scandir"
  /\ readiness "uploads" file_root_world
     = (Return (Answer 200 (JObj [("ready", JBool true);
                                  ("storage", JStr "available")])),
        file_root_world).
Proof. vm_compute. repeat split. Qed.

(** ** [handleUpload] *)

Ltac run_handler :=
  unfold handleUpload, try_catch, mbind, M_bind, mret, M_ret; simpl.

(** A request that carries no file part is answered 400 and nothing is
    touched. *)
Lemma handleUpload_missing_file (root : string) (req : request) (w : world) :
  file req = None ->
  handleUpload root req w
  = (Return (res_json 400 [("success", JBool false);
                           ("error", JStr "No file provided")]), w).
Proof. intros H. run_handler. now rewrite H. Qed.




Lemma cleanup_cases (p : string) (w : world) :
  (exists w', cleanup p w = (Return tt, w') /\ fs.entry p w' = None)
  \/ (exists e w', cleanup p w = (Throw e, w')).
Proof.
  unfold cleanup, mbind, M_bind, mret, M_ret, fs.existsSync.
  destruct (bool_decide (is_Some (fs.entry p w))) eqn:E.
  - destruct (unlinkSync_cases p w) as [(w' & -> & H) | (e & ->)]; eauto.
  - left. exists w. split; [reflexivity|].
    apply bool_decide_eq_false_1 in E.
    destruct (fs.entry p w); [|reflexivity]. exfalso; eauto.
Qed.

Lemma cleanup_returns (p : string) (w : world) :
  is_file (fs.entry p w) = true -> hd false (fs.io_errors w) = false ->
  exists w', cleanup p w = (Return tt, w').
Proof.
  intros Hf Hio.
  unfold cleanup, mbind, M_bind, mret, M_ret, fs.existsSync.
  destruct (fs.entry p w) as [[d b m|]|] eqn:E; try discriminate Hf.
  rewrite bool_decide_eq_true_2 by eauto.
  rewrite (unlinkSync_file p w d b m) by assumption. eauto.
Qed.

Lemma handleUpload_unfold (root : string) (req : request) (f : multer.file)
      (w : world) :
  file req = Some f ->
  handleUpload root req w
  = match
      (if negb (JS.endsWith (multer.originalname f) ".csv") then
         fs.unlinkSync (multer.path f);;
         mret (res_json 400 [("success", JBool false);
                             ("error", JStr "Only CSV files are allowed")])
       else
         now ← fs.Date_now;
         let fileName :=
           JS.Number_toString now +:+ "-" +:+ multer.originalname f in
         let filePath := path.join [root; fileName] in
         fs.copyFileSync (multer.path f) filePath;;
         fs.unlinkSync (multer.path f);;
         uploadedAt ← fs.Date_now;
         mret (res_json 200 [("success", JBool true);
                             ("message", JStr "File uploaded successfully");
                             ("fileName", JStr (multer.originalname f));
                             ("savedAs", JStr fileName);
                             ("size", JNum (multer.size f));
                             ("path", JStr filePath);
                             ("uploadedAt", JTime uploadedAt)])) w
    with
    | (Throw e, w') =>
        (cleanup (multer.path f);;
         mret (res_json 500 [("success", JBool false);
                             ("error", JStr "Failed to upload file");
                             ("message", JStr e)])) w'
    | r => r
    end.
Proof. intros H. unfold handleUpload, try_catch. rewrite H. reflexivity. Qed.

(** C10: for a request with a file part, whenever [handleUpload] answers
    (400, 200 or 500) the temporary file at [req.file.path] is gone; and it
    does answer when multer wrote that file and no writing call after the
    first one fails for a reason outside the disk. *)
Theorem temp_file_removed (root : string) (req : request) (f : multer.file)
        (w : world) :
  file req = Some f ->
  (forall (r : response) (w' : world),
      handleUpload root req w = (Return r, w') ->
      fs.entry (multer.path f) w' = None)
  /\ (is_file (fs.entry (multer.path f) w) = true ->
      forallb negb (tl (fs.io_errors w)) = true ->
      exists (r : response) (w' : world),
        handleUpload root req w = (Return r, w')).
Proof.
  intros Hf. rewrite (handleUpload_unfold root req f w Hf).
  unfold mbind, M_bind, mret, M_ret, fs.Date_now.
  set (p := multer.path f).
  assert (Hcatch : forall (e : string) (w1 : world) (r : response) (w' : world),
             match cleanup p w1 with
             | (Return _, w2) =>
                 (Return (res_json 500 [("success", JBool false);
                                        ("error", JStr "Failed to upload file");
                                        ("message", JStr e)]), w2)
             | (Throw e', w2) => (Throw e', w2)
             end = (Return r, w') -> fs.entry p w' = None).
  { intros e w1 r w'.
    destruct (cleanup_cases p w1) as [(w2 & -> & H) | (e' & w2 & ->)].
    - now intros [= _ <-].
    - discriminate. }
  split.
  - intros r w'.
    destruct (negb (JS.endsWith (multer.originalname f) ".csv")).
    + destruct (unlinkSync_cases p w) as [(w1 & -> & H) | (e & ->)].
      * now intros [= _ <-].
      * apply Hcatch.
    + destruct (fs.copyFileSync p _ w) as [[[]|e] w1].
      * destruct (unlinkSync_cases p w1) as [(w2 & -> & H) | (e & ->)].
        -- now intros [= _ <-].
        -- apply Hcatch.
      * apply Hcatch.
  - intros Hfile Hio.
    assert (Hhd : hd false (tl (fs.io_errors w)) = false).
    { destruct (fs.io_errors w) as [|x [|y l]]; try reflexivity.
      simpl in Hio. apply andb_true_iff in Hio as [Hy _].
      now destruct y. }
    destruct (negb (JS.endsWith (multer.originalname f) ".csv")).
    + destruct (unlinkSync_cases p w) as [(w1 & -> & H) | (e & ->)]; [eauto|].
      destruct (cleanup_returns p (after_io w)) as [w2 ->]; eauto.
    + destruct (fs.copyFileSync p _ w) as [o w1] eqn:Ec.
      apply copyFileSync_keeps_source in Ec as [Hsrc Hio1]; [|assumption].
      destruct o as [[]|e].
      * destruct (fs.entry p w1) as [[d b m|]|] eqn:E; try discriminate Hsrc.
        rewrite (unlinkSync_file p w1 d b m); [eauto| |assumption].
        now rewrite Hio1.
      * destruct (cleanup_returns p w1) as [w2 ->]; eauto.
        now rewrite Hio1.
Qed.

(** ** The stored name *)

Lemma all_digits_uint (d : Decimal.uint) :
  all_digits (NilEmpty.string_of_uint d) = true.
Proof. induction d; simpl; auto. Qed.

Lemma string_of_uint_nonnil (d : Decimal.uint) :
  d <> Decimal.Nil ->
  NilZero.string_of_uint d = NilEmpty.string_of_uint d
  /\ NilEmpty.string_of_uint d <> "".
Proof. destruct d; [contradiction|split; [reflexivity|discriminate]..]. Qed.

(** [`${n}`] of a non-negative integer is a non-empty string of digits. *)
Lemma Number_toString_digits (n : Z) :
  0 <= n ->
  JS.Number_toString n <> "" /\ all_digits (JS.Number_toString n) = true.
Proof.
  intros Hn. unfold JS.Number_toString.
  destruct n as [|p|p]; [split; [discriminate|reflexivity]| |lia].
  simpl.
  destruct (string_of_uint_nonnil (Pos.to_uint p)
              (DecimalPos.Unsigned.to_uint_nonnil p)) as [-> Hne].
  split; [exact Hne|apply all_digits_uint].
Qed.

Lemma all_digits_no_sep (s : string) : all_digits s = true -> no_sep s = true.
Proof.
  induction s as [|c s IH]; [reflexivity|]. simpl.
  intros H. apply andb_true_iff in H as [Hc Hs]. rewrite (IH Hs), andb_true_r.
  destruct (Ascii.eqb_spec c "/") as [->|]; [discriminate Hc|reflexivity].
Qed.

(** The stored name [`${Date.now()}-${originalname}`] begins with a digit
    and holds no separator when the original name holds none. *)
Lemma stored_name_plain (now : Z) (originalname : string) :
  0 <= now -> no_sep originalname = true ->
  exists (c : ascii) (s : string),
    JS.Number_toString now +:+ "-" +:+ originalname = String c s
    /\ c <> "."%char /\ no_sep (String c s) = true.
Proof.
  intros Hn Ho. destruct (Number_toString_digits now Hn) as [Hne Hd].
  destruct (JS.Number_toString now) as [|c s] eqn:E; [contradiction|].
  exists c, (s +:+ "-" +:+ originalname). split; [reflexivity|].
  pose proof (all_digits_no_sep _ Hd) as Hs.
  simpl in Hd, Hs. apply andb_true_iff in Hd as [Hc _].
  apply andb_true_iff in Hs as [Hc' Hs]. split.
  - intros ->. discriminate Hc.
  - simpl. rewrite Hc'. rewrite no_sep_app, Hs. simpl. exact Ho.
Qed.

Lemma copyFileSync_file (src dest : string) (w : world) (d : string)
      (b m : Z) :
  hd false (fs.io_errors w) = false ->
  fs.entry src w = Some (fs.File d b m) ->
  dest <> "" -> path.trailingSeparator dest = false ->
  is_dir (fs.disk w !! fs.dirname (fs.key dest)) = true ->
  is_dir (fs.disk w !! fs.key dest) = false ->
  exists b' : Z,
    fs.copyFileSync src dest w
    = (Return tt,
       with_disk (<[fs.key dest := fs.File d b' (fs.io_time w).1]> (fs.disk w))
                 (after_io w)).
Proof.
  intros Hio Hsrc Hne Htr Hdir Hfree.
  unfold fs.copyFileSync, fs.io_error. cbv zeta. rewrite Hio.
  fold (after_io w).
  rewrite entry_after_io, Hsrc.
  apply String.eqb_neq in Hne. rewrite Hne, Htr. simpl.
  destruct (fs.disk w !! fs.dirname (fs.key dest)) as [[|]|];
    try discriminate Hdir.
  destruct (fs.disk w !! fs.key dest) as [[d0 b0 m0|]|];
    try discriminate Hfree; eexists; reflexivity.
Qed.

(** The successful run of [handleUpload], with the destination's
    conditions spelled out on the joined path. *)
Lemma handleUpload_run (root : string) (req : request) (f : multer.file)
      (w : world) (d : string) (b m : Z) :
  let fileName :=
    JS.Number_toString (fs.clock w) +:+ "-" +:+ multer.originalname f in
  let filePath := path.join [root; fileName] in
  file req = Some f ->
  JS.endsWith (multer.originalname f) ".csv" = true ->
  fs.entry (multer.path f) w = Some (fs.File d b m) ->
  hd false (fs.io_errors w) = false ->
  hd false (tl (fs.io_errors w)) = false ->
  filePath <> "" -> path.trailingSeparator filePath = false ->
  is_dir (fs.disk w !! fs.dirname (fs.key filePath)) = true ->
  is_dir (fs.disk w !! fs.key filePath) = false ->
  fs.key (multer.path f) <> fs.key filePath ->
  exists b' : Z,
    handleUpload root req w
    = (Return (Answer 200
                 (JObj [("success", JBool true);
                        ("message", JStr "File uploaded successfully");
                        ("fileName", JStr (multer.originalname f));
                        ("savedAs", JStr fileName);
                        ("size", JNum (multer.size f));
                        ("path", JStr filePath);
                        ("uploadedAt",
                         JTime (fs.clock (after_io (after_io w))))])),
       with_disk (delete (fs.key (multer.path f))
                    (<[fs.key filePath := fs.File d b' (fs.io_time w).1]>
                       (fs.disk w)))
                 (after_io (after_io w))).
Proof.
  intros fileName filePath Hf Hcsv Hsrc Hio1 Hio2 Hne Htr Hdir Hfree Hkeys.
  rewrite (handleUpload_unfold root req f w Hf). rewrite Hcsv.
  change (negb true) with false.
  unfold mbind, M_bind, mret, M_ret, fs.Date_now.
  cbv beta iota zeta. fold fileName. fold filePath.
  destruct (copyFileSync_file (multer.path f) filePath w d b m)
    as [b' ->]; try assumption.
  exists b'.
  rewrite (unlinkSync_file (multer.path f) _ d b m).
  - reflexivity.
  - exact Hio2.
  - unfold fs.entry, with_disk in *. simpl.
    destruct (String.eqb (multer.path f) ""); [discriminate Hsrc|].
    rewrite lookup_insert_ne by congruence. exact Hsrc.
Qed.

Lemma LOCAL_UPLOAD_DIR_nonempty (UPLOAD_DIR : option string) :
  LOCAL_UPLOAD_DIR_of UPLOAD_DIR <> "".
Proof.
  destruct UPLOAD_DIR as [d|]; simpl; [|discriminate].
  destruct (String.eqb_spec d ""); [discriminate|assumption].
Qed.

(** C6: an upload whose original name ends in [.csv] (multer having
    written the temporary file and kept the base name of the part, the
    storage root being a directory, and the two disk calls succeeding) is
    answered 200 with a body of exactly these members: [success],
    [message], the original name, the stored name
    [`${Date.now()}-${originalname}`], that is decimal digits, a hyphen and
    the original name, the size, the joined path, and as upload time what
    the clock reads when the handler answers (a reading of its own, after
    the disk calls).  The bytes of the temporary file are then those of the
    file at the joined path, which lies directly in the storage root under
    the stored name, and the temporary file is gone. *)
Theorem handleUpload_stores (UPLOAD_DIR : option string) (req : request)
        (f : multer.file) (w : world) (d : string) (b m : Z) :
  let root := LOCAL_UPLOAD_DIR_of UPLOAD_DIR in
  let savedAs :=
    JS.Number_toString (fs.clock w) +:+ "-" +:+ multer.originalname f in
  let filePath := path.join [root; savedAs] in
  file req = Some f ->
  JS.endsWith (multer.originalname f) ".csv" = true ->
  no_sep (multer.originalname f) = true ->
  0 <= fs.clock w ->
  fs.entry (multer.path f) w = Some (fs.File d b m) ->
  is_dir (fs.disk w !! fs.key root) = true ->
  is_dir (fs.disk w !! filePath) = false ->
  fs.key (multer.path f) <> filePath ->
  hd false (fs.io_errors w) = false ->
  hd false (tl (fs.io_errors w)) = false ->
  exists w' : world,
    handleUpload root req w
    = (Return (Answer 200
                 (JObj [("success", JBool true);
                        ("message", JStr "File uploaded successfully");
                        ("fileName", JStr (multer.originalname f));
                        ("savedAs", JStr savedAs);
                        ("size", JNum (multer.size f));
                        ("path", JStr filePath);
                        ("uploadedAt", JTime (fs.clock w'))])), w')
    /\ (exists digits : string,
           savedAs = digits +:+ "-" +:+ multer.originalname f
           /\ digits <> "" /\ all_digits digits = true)
    /\ (exists b' m' : Z, fs.entry filePath w' = Some (fs.File d b' m'))
    /\ fs.dirname (fs.key filePath) = fs.key root
    /\ fs.basename (fs.key filePath) = savedAs
    /\ fs.entry (multer.path f) w' = None.
Proof.
  intros root savedAs filePath Hf Hcsv Hplain Hclock Hsrc Hroot Hfree Htmp
         Hio1 Hio2.
  destruct (stored_name_plain (fs.clock w) (multer.originalname f)
              Hclock Hplain) as (c & s & Ename & Hc & Hs).
  destruct (stored_path root c s (LOCAL_UPLOAD_DIR_nonempty UPLOAD_DIR) Hc Hs)
    as (Hne & Htr & Hkey & Hdir & Hbase).
  rewrite <- Ename in Hne, Htr, Hkey, Hdir, Hbase.
  fold savedAs in Hne, Htr, Hkey, Hdir, Hbase.
  fold filePath in Hne, Htr, Hkey, Hdir, Hbase.
  destruct (handleUpload_run root req f w d b m) as [b' Hrun];
    try assumption.
  { fold savedAs. fold filePath. now rewrite Hkey, Hdir. }
  { fold savedAs. fold filePath. now rewrite Hkey. }
  { fold savedAs. fold filePath. now rewrite Hkey. }
  fold savedAs in Hrun. fold filePath in Hrun.
  match type of Hrun with _ = (_, ?w0) => exists w0 end.
  split; [exact Hrun|]. split; [|split; [|split; [|split]]].
  - exists (JS.Number_toString (fs.clock w)). split; [reflexivity|].
    now apply Number_toString_digits.
  - exists b', (fs.io_time w).1. unfold fs.entry, with_disk. simpl.
    apply String.eqb_neq in Hne. rewrite Hne, Hkey.
    rewrite lookup_delete_ne by assumption.
    rewrite lookup_insert_eq. now rewrite Htr.
  - now rewrite Hkey.
  - now rewrite Hkey.
  - apply entry_deleted.
Qed.

Lemma handleUpload_stores_witness :
  exists w' : world,
    handleUpload "./uploads" csv_upload slow_world
    = (Return (Answer 200
                 (JObj [("success", JBool true);
                        ("message", JStr "File uploaded successfully");
                        ("fileName", JStr "sales.csv");
                        ("savedAs", JStr "1705324245123-sales.csv");
                        ("size", JNum 7);
                        ("path", JStr "uploads/1705324245123-sales.csv");
                        ("uploadedAt", JTime 1705324245127)])), w')
    /\ (exists b' m' : Z,
           fs.entry "uploads/1705324245123-sales.csv" w'
           = Some (fs.File "a,b 1,2" b' m'))
    /\ fs.entry "/tmp/uploads/0f3a9c" w' = None.
Proof.
  destruct (handleUpload_stores None csv_upload csv_part slow_world
              "a,b 1,2" 1705324245000 1705324245000)
    as (w' & H1 & _ & H3 & _ & _ & H6).
  - reflexivity.
  - vm_compute; reflexivity.
  - vm_compute; reflexivity.
  - vm_compute; discriminate.
  - vm_compute; reflexivity.
  - vm_compute; reflexivity.
  - vm_compute; reflexivity.
  - vm_compute; discriminate.
  - reflexivity.
  - reflexivity.
  - assert (E : 1705324245127 = fs.clock w').
    { pose proof H1 as H. vm_compute in H |- *. congruence. }
    exists w'. split; [|split; [exact H3|exact H6]].
    rewrite E. exact H1.
Defined.

Lemma temp_file_removed_witness :
  (forall (r : response) (w' : world),
      handleUpload "./uploads" txt_upload txt_world = (Return r, w') ->
      fs.entry "/tmp/uploads/0f3a9c" w' = None)
  /\ exists (r : response) (w' : world),
      handleUpload "./uploads" txt_upload txt_world = (Return r, w').
Proof.
  destruct (temp_file_removed "./uploads" txt_upload txt_part txt_world
              eq_refl) as [H1 H2].
  split; [exact H1|]. apply H2; reflexivity.
Defined.

(** ** The traversal guard of [getFileMetadata] and [downloadFile] *)

Lemma getFileMetadata_denied (root fileName : string) (w : world) :
  JS.startsWith (path.join [root; fileName]) root = false ->
  getFileMetadata root fileName w = (Return accessDenied, w).
Proof.
  intros H. unfold getFileMetadata, try_catch. now rewrite H.
Qed.

Lemma downloadFile_denied (root fileName : string) (w : world) :
  JS.startsWith (path.join [root; fileName]) root = false ->
  downloadFile root fileName w = (Return accessDenied, w).
Proof.
  intros H. unfold downloadFile, try_catch. now rewrite H.
Qed.

(** C3, amended: when the storage root is spelled with a leading ["./"]
    and is not ["./"] itself (the default ["./uploads"] is such a root),
    [path.join(root, name)] never begins with the root, so
    [getFileMetadata] and [downloadFile] answer 403 "Access denied" for
    every name and every disk, stored files included. *)
Theorem dot_slash_root_denies_every_name (root fileName : string) (w : world) :
  String.prefix "./" root = true -> root <> "./" ->
  JS.startsWith (path.join [root; fileName]) root = false
  /\ getFileMetadata root fileName w = (Return accessDenied, w)
  /\ downloadFile root fileName w = (Return accessDenied, w).
Proof.
  intros Hp Hne.
  pose proof (guard_fails_under_dot_slash root [root; fileName] Hp Hne) as H.
  split; [exact H|]. split.
  - now apply getFileMetadata_denied.
  - now apply downloadFile_denied.
Qed.

Lemma dot_slash_root_denies_every_name_witness :
  is_Some (fs.entry "uploads/1705324245123-test1.csv" stored_world)
  /\ getFileMetadata (LOCAL_UPLOAD_DIR_of None) "1705324245123-test1.csv"
       stored_world
     = (Return accessDenied, stored_world)
  /\ downloadFile (LOCAL_UPLOAD_DIR_of None) "1705324245123-test1.csv"
       stored_world
     = (Return accessDenied, stored_world).
Proof.
  split; [eexists; vm_compute; reflexivity|].
  apply (dot_slash_root_denies_every_name
           "./uploads" "1705324245123-test1.csv" stored_world).
  - reflexivity.
  - discriminate.
Defined.

(** C3 as stated fails for the root ["./"]: [path.join("./", "./")] is
    ["./"], which begins with the root, and both handlers answer 200. *)
Lemma dot_slash_root_itself_admits :
  String.prefix "./" "./" = true
  /\ JS.startsWith (path.join ["./"; "./"]) "./" = true
  /\ answered (getFileMetadata "./" "./" stored_world) = Some 200
  /\ (downloadFile "./" "./" stored_world).1
     = Return (Download "./").
Proof. vm_compute. repeat split; reflexivity. Qed.

(** C4 fails on the code: with the root [/app/uploads], the name
    [../uploads-backup/secret.csv] joins to a path outside the root that
    still begins with the root's characters; the guard lets it through,
    [getFileMetadata] stats the outside file and [downloadFile] sends it. *)
Theorem sibling_directory_passes_guard :
  let root := "/app/uploads" in
  let fileName := "../uploads-backup/secret.csv" in
  let filePath := path.join [root; fileName] in
  filePath = "/app/uploads-backup/secret.csv"
  /\ within (fs.key root) filePath = false
  /\ JS.startsWith filePath root = true
  /\ getFileMetadata root fileName sibling_world
     = (Return (res_json 200
                  [("success", JBool true);
                   ("file", describe fileName filePath
                              {| fs.size := 8;
                                 fs.birthtime := 1700000000001;
                                 fs.mtime := 1700000000002 |})]),
        sibling_world)
  /\ downloadFile root fileName sibling_world
     = (Return (Download filePath), sibling_world)
  /\ fs.entry filePath sibling_world
     = Some (fs.File "id,token" 1700000000001 1700000000002).
Proof. vm_compute. repeat split; reflexivity. Qed.

(** ** Requests the route table does not know *)

(** No route is registered for DELETE: every such request reaches the last
    handler, which answers 404 and leaves the world as it is. *)
Lemma delete_unrouted (root : string) (req : request) (w : world) :
  method req = DELETE -> app root req w = notFound req w.
Proof. intros H. unfold app. now rewrite H. Qed.

(** C2 fails on the code: [DELETE /delete/:fileName] is answered 404 by the
    catch-all handler for every name, stored or not; the disk is untouched,
    so [listFiles] answers after it what it answered before. *)
Theorem delete_request_removes_nothing (root sent fileName : string)
        (part : option multer.file) (w : world) :
  let req := {| method := DELETE; path := sent; url := ["delete"; fileName];
                file := part |} in
  app root req w
  = (Return (res_json 404 [("success", JBool false);
                           ("error", JStr "Not found");
                           ("path", JStr sent);
                           ("method", JStr "DELETE")]), w)
  /\ listFiles root (app root req w).2 = listFiles root w.
Proof. intros req. split; reflexivity. Qed.

(** On the disk with one stored file, that file is listed before the
    DELETE request and after it. *)
Example delete_request_on_stored_file :
  let req := {| method := DELETE; path := "/delete/1705324245123-test1.csv";
                url := ["delete"; "1705324245123-test1.csv"];
                file := None |} in
  listed_names (listFiles "uploads" stored_world) = ["1705324245123-test1.csv"]
  /\ answered (app "uploads" req stored_world) = Some 404
  /\ listed_names (listFiles "uploads" (app "uploads" req stored_world).2)
     = ["1705324245123-test1.csv"].
Proof. vm_compute. repeat split; reflexivity. Qed.

(** ** The Upload Client: selecting a file *)

Lemma pad_two_digits (c : N) :
  (c < 100)%N ->
  (if (c <? 10)%N then "0" else "") +:+ Client.N_toString c = two_digits c.
Proof.
  intros Hc.
  assert (H : forallb
                (fun k : nat =>
                   String.eqb
                     ((if (N.of_nat k <? 10)%N then "0" else "")
                      +:+ Client.N_toString (N.of_nat k))
                     (two_digits (N.of_nat k)))
                (seq 0 100) = true) by (vm_compute; reflexivity).
  rewrite forallb_forall in H. specialize (H (N.to_nat c)).
  rewrite N2Nat.id in H. apply String.eqb_eq, H, in_seq. lia.
Qed.

(** [(size / 1024).toFixed(2)] shows the hundredth of a kilobyte nearest to
    the size, the upper one on a tie, with two digits after the point. *)
Lemma kilobytes_toFixed2_spec (size : N) :
  exists n : N,
    (1024 * n <= 100 * size + 512 < 1024 * n + 1024)%N
    /\ Client.kilobytes_toFixed2 size
       = Client.N_toString (n / 100) +:+ "." +:+ two_digits (n mod 100).
Proof.
  exists ((size * 100 + 512) / 1024)%N. split.
  - pose proof (N.div_mod (size * 100 + 512) 1024 ltac:(lia)) as Hd.
    pose proof (N.mod_lt (size * 100 + 512) 1024 ltac:(lia)) as Hm.
    revert Hd Hm.
    generalize ((size * 100 + 512) / 1024)%N ((size * 100 + 512) mod 1024)%N.
    intros q r Hd Hm. lia.
  - unfold Client.kilobytes_toFixed2. cbv zeta.
    rewrite <- pad_two_digits by (apply N.mod_lt; lia).
    reflexivity.
Qed.

(** C7: [handleFileDrop] returns without any effect on an empty selection.
    When the first file's name does not end in [.csv] the toast shows
    "Please select a CSV file" as an error, and when the name is in order
    but the size exceeds 104,857,600 bytes it shows "File size must be less
    than 100MB" as an error; in both cases nothing else on the page
    changes, so the file does not become the pending candidate.  Otherwise
    the file becomes the pending candidate, the file panel is made visible
    and shows its name and its size in kilobytes, rounded to the nearest
    hundredth and printed with two decimals, and the upload button is
    enabled. *)
Theorem selectFile_validates (files : list Client.File) (u : Client.ui) :
  (files = [] -> Client.handleFileDrop files u = u)
  /\ (forall (file : Client.File) (rest : list Client.File),
         files = file :: rest ->
         let u' := Client.handleFileDrop files u in
         (JS.endsWith (Client.name file) ".csv" = false
          \/ (104857600 < Client.size file)%N ->
          Client.toast u'
          = Some (if JS.endsWith (Client.name file) ".csv"
                  then "File size must be less than 100MB"
                  else "Please select a CSV file", "error")
          /\ Client.selectedFile u' = Client.selectedFile u
          /\ Client.file_name u' = Client.file_name u
          /\ Client.file_size u' = Client.file_size u
          /\ Client.fileInfo_hidden u' = Client.fileInfo_hidden u
          /\ Client.uploadBtn_disabled u' = Client.uploadBtn_disabled u
          /\ Client.fileInput_value u' = Client.fileInput_value u
          /\ Client.progressContainer_hidden u'
             = Client.progressContainer_hidden u
          /\ Client.progress u' = Client.progress u
          /\ Client.loadingState_hidden u' = Client.loadingState_hidden u
          /\ Client.filesContainer_hidden u' = Client.filesContainer_hidden u
          /\ Client.emptyState_hidden u' = Client.emptyState_hidden u
          /\ Client.sent u' = Client.sent u)
         /\ (JS.endsWith (Client.name file) ".csv" = true ->
             (Client.size file <= 104857600)%N ->
             Client.selectedFile u' = Some file
             /\ Client.toast u' = Client.toast u
             /\ Client.fileInfo_hidden u' = false
             /\ Client.uploadBtn_disabled u' = false
             /\ Client.file_name u' = Client.name file
             /\ Client.fileInput_value u' = Client.fileInput_value u
             /\ Client.progressContainer_hidden u'
                = Client.progressContainer_hidden u
             /\ Client.progress u' = Client.progress u
             /\ Client.sent u' = Client.sent u
             /\ exists n : N,
                 (1024 * n <= 100 * Client.size file + 512 < 1024 * n + 1024)%N
                 /\ Client.file_size u'
                    = Client.N_toString (n / 100) +:+ "."
                      +:+ two_digits (n mod 100) +:+ " KB")).
Proof.
  split; [now intros ->|].
  intros file rest ->. cbv zeta. unfold Client.handleFileDrop. split.
  - intros [Hcsv | Hsize].
    + rewrite Hcsv. simpl. repeat split.
    + destruct (JS.endsWith (Client.name file) ".csv"); simpl negb; cbv iota;
        [|repeat split].
      change (100 * 1024 * 1024)%N with 104857600%N.
      apply N.ltb_lt in Hsize. rewrite Hsize. repeat split.
  - intros Hcsv Hsize. rewrite Hcsv. simpl negb. cbv iota.
    change (100 * 1024 * 1024)%N with 104857600%N.
    apply N.ltb_ge in Hsize. rewrite Hsize. simpl.
    repeat split.
    destruct (kilobytes_toFixed2_spec (Client.size file)) as (n & Hn & ->).
    exists n. split; [exact Hn|]. now rewrite !append_assoc.
Qed.

Lemma selectFile_validates_witness :
  Client.handleFileDrop [] Client.page = Client.page
  /\ Client.toast (Client.handleFileDrop [notes_txt] Client.page)
     = Some ("Please select a CSV file", "error")
  /\ Client.selectedFile (Client.handleFileDrop [notes_txt] Client.page)
     = None
  /\ Client.toast (Client.handleFileDrop [huge_csv] Client.page)
     = Some ("File size must be less than 100MB", "error")
  /\ Client.selectedFile (Client.handleFileDrop [huge_csv] Client.page)
     = None
  /\ Client.selectedFile (Client.handleFileDrop [sales_csv] Client.page)
     = Some sales_csv
  /\ Client.fileInfo_hidden (Client.handleFileDrop [sales_csv] Client.page)
     = false.
Proof.
  destruct (selectFile_validates [] Client.page) as (H0 & _).
  destruct (proj2 (selectFile_validates [notes_txt] Client.page)
                  notes_txt [] eq_refl) as (H1 & _).
  destruct (proj2 (selectFile_validates [huge_csv] Client.page)
                  huge_csv [] eq_refl) as (H2 & _).
  destruct (proj2 (selectFile_validates [sales_csv] Client.page)
                  sales_csv [] eq_refl) as (_ & H3).
  cbv zeta in H1, H2, H3.
  destruct H1 as (T1 & S1 & _); [left; reflexivity|].
  destruct H2 as (T2 & S2 & _); [right; reflexivity|].
  destruct H3 as (S3 & _ & F3 & _); [reflexivity|discriminate|].
  split; [now apply H0|].
  split; [exact T1|]. split; [exact S1|]. split; [exact T2|].
  split; [exact S2|]. split; [exact S3|exact F3].
Defined.

Example sales_csv_shown :
  Client.file_size (Client.handleFileDrop [sales_csv] Client.page) = "0.02 KB".
Proof. reflexivity. Qed.

(** ** [JSON.valid] does not depend on its fuel *)

Lemma skip_ws_length (s : string) :
  (String.length (JSON.skip_ws s) <= String.length s)%nat.
Proof.
  induction s as [|c s IH]; simpl; [lia|].
  destruct (JSON.is_ws c); simpl; lia.
Qed.

Lemma skip_digits_length (s : string) :
  (String.length (JSON.skip_digits s) <= String.length s)%nat.
Proof.
  induction s as [|c s IH]; simpl; [lia|].
  destruct (JSON.is_digit c); simpl; lia.
Qed.

Lemma digits1_length (s r : string) :
  JSON.digits1 s = Some r -> (String.length r < String.length s)%nat.
Proof.
  destruct s as [|c s]; simpl; [discriminate|].
  destruct (JSON.is_digit c); [|discriminate].
  intros [= <-]. pose proof (skip_digits_length s). lia.
Qed.

Lemma exponent_length (s r : string) :
  JSON.exponent s = Some r -> (String.length r <= String.length s)%nat.
Proof.
  unfold JSON.exponent. destruct s as [|c s]; [now intros [= <-]|].
  destruct (_ || _); [|intros [= <-]; simpl; lia].
  destruct s as [|d s]; [discriminate|].
  destruct (_ || _); intros H; apply digits1_length in H; simpl in *; lia.
Qed.

Lemma fraction_length (s r : string) :
  JSON.fraction s = Some r -> (String.length r <= String.length s)%nat.
Proof.
  unfold JSON.fraction. destruct s as [|c s]; [now intros [= <-]|].
  destruct (Ascii.eqb c ".").
  - destruct (JSON.digits1 s) as [t|] eqn:E; [|discriminate].
    intros H. apply exponent_length in H. apply digits1_length in E.
    simpl. lia.
  - intros H. now apply exponent_length in H.
Qed.

Lemma number_length (s r : string) :
  JSON.number s = Some r -> (String.length r < String.length s)%nat.
Proof.
  unfold JSON.number.
  set (s1 := match s with
             | String c s' => if Ascii.eqb c "-" then s' else s
             | EmptyString => s
             end).
  assert (H1 : (String.length s1 <= String.length s)%nat).
  { unfold s1. destruct s as [|c s]; [simpl; lia|].
    destruct (Ascii.eqb c "-"); simpl; lia. }
  destruct s1 as [|c t]; [discriminate|]. simpl in H1.
  destruct (Ascii.eqb c "0").
  - intros H. apply fraction_length in H. lia.
  - destruct (JSON.is_digit c); [|discriminate].
    intros H. apply fraction_length in H.
    pose proof (skip_digits_length t). lia.
Qed.

Lemma string_body_length (s r : string) :
  JSON.string_body s = Some r -> (String.length r < String.length s)%nat.
Proof.
  remember (String.length s) as n eqn:Hn. revert s r Hn.
  induction n as [n IH] using lt_wf_ind. intros s r -> H.
  assert (Hrec : forall t : string,
             (String.length t < String.length s)%nat ->
             JSON.string_body t = Some r ->
             (String.length r < String.length s)%nat).
  { intros t Ht Hb. pose proof (IH _ Ht t r eq_refl Hb). lia. }
  destruct s as [|c s]; [discriminate|]. simpl in H.
  destruct (Ascii.eqb c JSON.DQUOTE); [injection H as <-; simpl; lia|].
  destruct (Ascii.eqb c JSON.BACKSLASH).
  - destruct s as [|e s]; [discriminate|].
    destruct (_ || _).
    + apply Hrec in H; [exact H | simpl; lia].
    + destruct (Ascii.eqb e "u"); [|discriminate].
      destruct s as [|h1 [|h2 [|h3 [|h4 s]]]]; try discriminate.
      destruct (_ && _); [|discriminate].
      apply Hrec in H; [exact H | simpl; lia].
  - destruct (_ <? _)%nat; [discriminate|].
    apply Hrec in H; [exact H | simpl; lia].
Qed.

Lemma keyword_length (k s r : string) :
  JSON.keyword k s = Some r ->
  (String.length r + String.length k = String.length s)%nat.
Proof.
  revert s. induction k as [|a k IH]; intros s; simpl.
  - intros [= <-]. lia.
  - destruct s as [|b s]; [discriminate|].
    destruct (Ascii.eqb a b); [|discriminate].
    intros H. apply IH in H. simpl. lia.
Qed.

Ltac text_lengths :=
  repeat match goal with
    | H : JSON.skip_ws ?s = _ |- _ =>
        let F := fresh "F" in
        pose proof (skip_ws_length s) as F; rewrite H in F; clear H
    | H : JSON.string_body _ = Some _ |- _ => apply string_body_length in H
    | H : JSON.number _ = Some _ |- _ => apply number_length in H
    | H : JSON.keyword _ _ = Some _ |- _ => apply keyword_length in H
    end.

(** What [value], [members] and [elements] return is shorter than what they
    were given. *)
Lemma value_consumes (n : nat) :
  forall s r : string,
    (JSON.value n s = Some r -> (String.length r < String.length s)%nat)
    /\ (JSON.members n s = Some r -> (String.length r < String.length s)%nat)
    /\ (JSON.elements n s = Some r -> (String.length r < String.length s)%nat).
Proof.
  induction n as [|n IH]; intros s r; [repeat split; discriminate|].
  assert (IHv : forall s r, JSON.value n s = Some r ->
                            (String.length r < String.length s)%nat)
    by (intros s' r' H'; exact (proj1 (IH s' r') H')).
  assert (IHm : forall s r, JSON.members n s = Some r ->
                            (String.length r < String.length s)%nat)
    by (intros s' r' H'; exact (proj1 (proj2 (IH s' r')) H')).
  assert (IHe : forall s r, JSON.elements n s = Some r ->
                            (String.length r < String.length s)%nat)
    by (intros s' r' H'; exact (proj2 (proj2 (IH s' r')) H')).
  clear IH.
  repeat split; cbn [JSON.value JSON.members JSON.elements]; intros H;
    repeat case_match; simplify_eq;
    repeat match goal with
      | H : JSON.value n _ = Some _ |- _ => apply IHv in H
      | H : JSON.members n _ = Some _ |- _ => apply IHm in H
      | H : JSON.elements n _ = Some _ |- _ => apply IHe in H
      end;
    text_lengths; cbn [String.length] in *; lia.
Qed.

Ltac call_lengths :=
  repeat match goal with
    | H : JSON.value _ _ = Some _ |- _ => apply value_consumes in H
    | H : JSON.members _ _ = Some _ |- _ => apply value_consumes in H
    | H : JSON.elements _ _ = Some _ |- _ => apply value_consumes in H
    end;
  text_lengths; cbn [String.length] in *; lia.

(** With fuel above twice the length of the text, more fuel gives the same
    result. *)
Lemma fuel_stable (n : nat) :
  forall (m : nat) (s : string),
    (n <= m)%nat ->
    ((2 * String.length s < n)%nat -> JSON.value n s = JSON.value m s)
    /\ ((2 * String.length s < n)%nat -> JSON.members n s = JSON.members m s)
    /\ ((2 * String.length s + 1 < n)%nat ->
        JSON.elements n s = JSON.elements m s).
Proof.
  induction n as [|n IH]; intros m s Hle; [repeat split; lia|].
  destruct m as [|m]; [lia|]. apply le_S_n in Hle.
  assert (IHv : forall t, (2 * String.length t < n)%nat ->
                          JSON.value m t = JSON.value n t)
    by (intros t Ht; symmetry; now apply (IH m t Hle)).
  assert (IHm : forall t, (2 * String.length t < n)%nat ->
                          JSON.members m t = JSON.members n t)
    by (intros t Ht; symmetry; now apply (IH m t Hle)).
  assert (IHe : forall t, (2 * String.length t + 1 < n)%nat ->
                          JSON.elements m t = JSON.elements n t)
    by (intros t Ht; symmetry; now apply (IH m t Hle)).
  clear IH.
  repeat split; intros Hb; cbn [JSON.value JSON.members JSON.elements];
    repeat first
      [ reflexivity
      | match goal with
        | |- context [JSON.value m ?t] => rewrite (IHv t) by call_lengths
        | |- context [JSON.members m ?t] => rewrite (IHm t) by call_lengths
        | |- context [JSON.elements m ?t] => rewrite (IHe t) by call_lengths
        end
      | case_match ].
Qed.

(** [JSON.valid] gives its verdict whatever fuel, above its own, is
    supplied. *)
Lemma fuel_enough (text : string) (extra : nat) :
  JSON.value (2 * String.length text + 2 + extra) text
  = JSON.value (2 * String.length text + 2) text.
Proof.
  symmetry.
  apply (fuel_stable (2 * String.length text + 2)
           (2 * String.length text + 2 + extra) text); lia.
Qed.

(** ** The Upload Client: submitting *)

(** The failures the listeners and the [catch] block handle: the thrown
    transport exception, a status other than 200, and the ['error'] event.
    The pending file stays selected, an error toast is shown, the progress
    bar is reset and the button enabled. *)
Lemma upload_failure_handled (API_URL : string) (u : Client.ui)
      (file : Client.File) :
  Client.selectedFile u = Some file ->
  (let u' := Client.uploadFile API_URL true u in
   Client.selectedFile u' = Some file
   /\ Client.toast u' = Some ("Error uploading file", "error")
   /\ settled u')
  /\ (forall (status : Z) (responseText : string),
         status <> 200 ->
         let u' := Client.listen API_URL (Client.load_event status responseText)
                     (Client.uploadFile API_URL false u) in
         Client.selectedFile u' = Some file
         /\ Client.toast u' = Some ("Upload failed", "error")
         /\ settled u')
  /\ (let u' := Client.listen API_URL Client.error_event
                  (Client.uploadFile API_URL false u) in
      Client.selectedFile u' = Some file
      /\ Client.toast u' = Some ("Upload error. Please try again.", "error")
      /\ settled u').
Proof.
  intros Hsel. unfold settled, Client.uploadFile. rewrite Hsel.
  split; [|split].
  - simpl. auto.
  - intros status responseText Hst. simpl. unfold Client.on_load.
    apply Z.eqb_neq in Hst. rewrite Hst. simpl. auto.
  - simpl. auto.
Qed.

(** A 200 answer whose body [JSON.parse] accepts: success toast, selection
    cleared, list refreshed, progress bar reset and button enabled. *)
Lemma upload_success_handled (API_URL : string) (u : Client.ui)
      (file : Client.File) (responseText : string) :
  Client.selectedFile u = Some file ->
  JSON.valid responseText = true ->
  let u' := Client.listen API_URL (Client.load_event 200 responseText)
              (Client.uploadFile API_URL false u) in
  Client.selectedFile u' = None
  /\ Client.toast u' = Some ("File uploaded successfully!", "success")
  /\ settled u'.
Proof.
  intros Hsel Hjson. unfold settled, Client.uploadFile. rewrite Hsel.
  simpl. unfold Client.on_load. rewrite Hjson. simpl. auto.
Qed.

(** C8 fails on the code: when the request settles with status 200 and a
    body that [JSON.parse] rejects, the ['load'] listener throws at its
    first statement; the progress bar stays shown and the upload button
    stays disabled. *)
Theorem unparsable_answer_skips_cleanup (API_URL : string) (u : Client.ui)
        (file : Client.File) (responseText : string) :
  Client.selectedFile u = Some file ->
  JSON.valid responseText = false ->
  let u1 := Client.uploadFile API_URL false u in
  let u2 := Client.listen API_URL (Client.load_event 200 responseText) u1 in
  u2 = u1
  /\ Client.progressContainer_hidden u2 = false
  /\ Client.uploadBtn_disabled u2 = true.
Proof.
  intros Hsel Hjson. unfold Client.uploadFile. rewrite Hsel.
  simpl. unfold Client.on_load. rewrite Hjson. simpl. auto.
Qed.

Lemma unparsable_answer_skips_cleanup_witness :
  let u1 := Client.uploadFile "http://localhost:3000" false
              (Client.handleFileDrop [sales_csv] Client.page) in
  let u2 := Client.listen "http://localhost:3000"
              (Client.load_event 200 "<html>") u1 in
  u2 = u1
  /\ Client.progressContainer_hidden u2 = false
  /\ Client.uploadBtn_disabled u2 = true.
Proof.
  apply (unparsable_answer_skips_cleanup "http://localhost:3000"
           (Client.handleFileDrop [sales_csv] Client.page)
           sales_csv "<html>"); reflexivity.
Defined.

(** ** The request [uploadFile] sends and where the service routes it *)

(** C1 fails on the code: for a pending file [uploadFile] sends one
    multipart POST with the file under the field [csv], but to the path
    [/uploads3]; the service routes that path to its catch-all handler,
    which answers 404 and stores nothing, while its upload handler is
    registered at [/upload]. *)
Theorem upload_request_misses_route (API_URL root : string) (u : Client.ui)
        (file : Client.File) (part : option multer.file) (w : world) :
  Client.selectedFile u = Some file ->
  let c := {| Client.call_method := POST; Client.call_origin := API_URL;
              Client.call_path := "/uploads3";
              Client.call_form := [("csv", file)] |} in
  Client.sent (Client.uploadFile API_URL false u) = Client.sent u ++ [c]
  /\ answered (app root (request_of c part) w) = Some 404
  /\ (app root (request_of c part) w).2 = w
  /\ (let posted := {| method := POST; path := "/upload";
                       url := segments "/upload"; file := part |} in
      app root posted w = handleUpload root posted w).
Proof.
  intros Hsel c. unfold Client.uploadFile. rewrite Hsel. simpl.
  repeat split.
Qed.

Lemma upload_request_misses_route_witness :
  let c := {| Client.call_method := POST;
              Client.call_origin := "http://localhost:3000";
              Client.call_path := "/uploads3";
              Client.call_form := [("csv", sales_csv)] |} in
  Client.sent (Client.uploadFile "http://localhost:3000" false
                 (Client.handleFileDrop [sales_csv] Client.page)) = [c]
  /\ answered (app "./uploads" (request_of c None) stored_world) = Some 404.
Proof.
  destruct (upload_request_misses_route
              "http://localhost:3000" "./uploads"
              (Client.handleFileDrop [sales_csv] Client.page)
              sales_csv None stored_world eq_refl) as (H1 & H2 & _).
  split; [exact H1 | exact H2].
Defined.

(** ** Where [path.join] puts the name of a directory entry *)

(** helpers *)
Lemma join_normal_name (root b : string) :
  root <> "" -> normal b ->
  let isAbsolute := JS.charAt_is root 0 path.CHAR_FORWARD_SLASH in
  let r := path.normalizeString root (negb isAbsolute) in
  path.join [root; b]
  = (if isAbsolute then "/" else "")
    +:+ (if String.eqb r "" then "" else r +:+ "/") +:+ b.
Proof.
  intros Hroot Hb isAbs r.
  pose proof Hb as (Hb0 & Hsep & _).
  unfold path.join. cbn [fold_left].
  apply String.eqb_neq in Hroot. rewrite Hroot.
  apply String.eqb_neq in Hb0. rewrite Hb0. cbv beta iota.
  apply String.eqb_neq in Hb0.
  unfold path.normalize.
  assert (Hne : String.eqb (root +:+ "/" +:+ b) "" = false).
  { destruct root; [discriminate Hroot | reflexivity]. }
  rewrite Hne.
  assert (Habs : JS.charAt_is (root +:+ "/" +:+ b) 0
                              path.CHAR_FORWARD_SLASH = isAbs).
  { destruct root; [discriminate Hroot | reflexivity]. }
  rewrite Habs.
  assert (Htr : path.trailingSeparator (root +:+ "/" +:+ b) = false).
  { rewrite trailingSeparator_last, <- append_assoc, last_is_sep_app
      by assumption.
    now apply no_sep_last. }
  rewrite Htr.
  assert (Hq : path.normalizeString (root +:+ "/" +:+ b) (negb isAbs)
               = (if String.eqb r "" then "" else r +:+ "/") +:+ b).
  { unfold path.normalizeString. rewrite Htr, scan_chars_sep.
    destruct (scan_root_then_separator (negb isAbs) root) as (Hres & Hseg & Hd).
    destruct (scan_normal_segment (negb isAbs) b _ Hb Hseg Hd) as (H1 & _).
    rewrite H1, Hres. fold r. rewrite len_pos.
    destruct (String.eqb r ""); simpl.
    - reflexivity.
    - now rewrite append_assoc. }
  rewrite Hq.
  assert (Hq' : String.eqb ((if String.eqb r "" then "" else r +:+ "/")
                            +:+ b) "" = false).
  { destruct (String.eqb r "").
    - apply String.eqb_neq. exact Hb0.
    - destruct r; reflexivity. }
  rewrite Hq'. destruct isAbs; reflexivity.
Qed.

Lemma canon_not_dot (allow : bool) (r : string) : canon allow r -> r <> ".".
Proof.
  intros Hc E. subst r. apply canon_last in Hc.
  destruct Hc as [Hu|[(s & Hs & E)|(r0 & s & Hr0 & Hs & E)]].
  - apply ups_tail in Hu. destruct Hu as (Hl & _). unfold JS.len in Hl.
    simpl in Hl. lia.
  - subst s. now destruct Hs as (_ & _ & Hs & _).
  - apply (f_equal JS.len) in E. rewrite !len_append in E.
    apply canon_nonempty in Hr0. apply len_nonempty in Hr0.
    unfold JS.len in *. simpl in E. lia.
Qed.

(** A key made of segments is neither the root ["/"] nor ["."]. *)
Lemma canon_key_proper (isAbsolute : bool) (r : string) :
  canon (negb isAbsolute) r ->
  let k := (if isAbsolute then "/" else "") +:+ r in
  k <> "" /\ k <> "/" /\ k <> ".".
Proof.
  intros Hc k. unfold k. pose proof (canon_nonempty _ _ Hc) as Hne.
  pose proof (canon_head _ _ Hc) as Hh. pose proof (canon_not_dot _ _ Hc) as Hd.
  destruct isAbsolute; simpl.
  - repeat split; try discriminate. intros [= E]. contradiction.
  - repeat split; auto. intros E. subst r. discriminate Hh.
Qed.

(** [path.join(root, name)] from the key of the root, for a name that is an
    ordinary segment. *)
Lemma join_under (root b : string) :
  root <> "" -> normal b ->
  let d := fs.key root in
  path.join [root; b]
  = if String.eqb d "." then b
    else if String.eqb d "/" then "/" +:+ b
    else d +:+ "/" +:+ b.
Proof.
  intros Hroot Hb. cbv zeta.
  rewrite (join_normal_name root b Hroot Hb), (key_root root Hroot).
  set (isAbs := JS.charAt_is root 0 path.CHAR_FORWARD_SLASH).
  set (r := path.normalizeString root (negb isAbs)).
  destruct (String.eqb_spec r "") as [Hr|Hr].
  - destruct isAbs; reflexivity.
  - destruct (normalizeString_canon root (negb isAbs)) as [E|Hc];
      [contradiction|]. fold r in Hc.
    destruct (canon_key_proper isAbs r Hc) as (_ & H1 & H2).
    apply String.eqb_neq in H1, H2. rewrite H1, H2.
    destruct isAbs; simpl; now rewrite ?append_assoc.
Qed.

Lemma join_child_of (root b : string) :
  root <> "" -> normal b -> path.join [root; b] = child_of (fs.key root) b.
Proof. intros. unfold child_of. now apply join_under. Qed.

Lemma key_fixed_shape (k : string) :
  fs.key k = k ->
  k = "/" \/ k = "."
  \/ exists (isAbsolute : bool) (r : string),
       canon (negb isAbsolute) r
       /\ k = (if isAbsolute then "/" else "") +:+ r.
Proof.
  intros Hk.
  assert (Hne : k <> "") by (intros ->; discriminate Hk).
  rewrite (key_root k Hne) in Hk.
  set (isAbs := JS.charAt_is k 0 path.CHAR_FORWARD_SLASH) in *.
  set (r := path.normalizeString k (negb isAbs)) in *.
  destruct (String.eqb_spec r "") as [Hr|Hr].
  - destruct isAbs; auto.
  - destruct (normalizeString_canon k (negb isAbs)) as [E|Hc];
      [contradiction|]. fold r in Hc.
    right; right. exists isAbs, r. auto.
Qed.

Lemma ups_basename (isAbsolute : bool) (r : string) :
  ups r -> fs.basename ((if isAbsolute then "/" else "") +:+ r) = "..".
Proof.
  intros [|r' Hr'].
  - now destruct isAbsolute.
  - change (r' +:+ "/..") with (r' +:+ "/" +:+ "..").
    rewrite <- append_assoc.
    apply dirname_snoc; [|reflexivity].
    destruct isAbsolute; [discriminate|now apply ups_nonempty].
Qed.

(** A key is the child, in its directory, that its last segment names. *)
Lemma key_split (k : string) :
  fs.key k = k ->
  fs.basename k <> "" -> fs.basename k <> "." -> fs.basename k <> ".." ->
  normal (fs.basename k)
  /\ k = child_of (fs.dirname k) (fs.basename k)
  /\ path.trailingSeparator k = false.
Proof.
  intros Hk H0 H1 H2.
  destruct (key_fixed_shape k Hk) as [->|[->|(isAbs & r & Hc & ->)]];
    [now contradiction H0|now contradiction H1|].
  assert (Htr : path.trailingSeparator ((if isAbs then "/" else "") +:+ r)
                = false).
  { rewrite trailingSeparator_last.
    rewrite last_is_sep_app by (now apply canon_nonempty in Hc).
    apply (canon_tail _ _ Hc). }
  split; [|split; [|exact Htr]]; revert H0 H1 H2.
  all: destruct (canon_last _ _ Hc)
         as [Hu|[(s & Hs & ->)|(r0 & s & Hr0 & Hs & ->)]].
  all: try (rewrite (ups_basename isAbs r Hu); intros _ _ H;
            now contradiction H).
  all: pose proof Hs as (_ & Hsep & _).
  - destruct isAbs; cbv iota.
    + destruct (dirname_top s Hsep) as (_ & ->). auto.
    + change ("" +:+ s) with s.
      destruct (dirname_here s Hsep) as (_ & ->). auto.
  - rewrite <- append_assoc.
    destruct (dirname_snoc ((if isAbs then "/" else "") +:+ r0) s) as (_ & ->);
      auto.
    destruct isAbs; [discriminate|now apply canon_nonempty in Hr0].
  - intros _ _ _. destruct isAbs; cbv iota.
    + destruct (dirname_top s Hsep) as (-> & ->). reflexivity.
    + change ("" +:+ s) with s.
      destruct (dirname_here s Hsep) as (-> & ->). reflexivity.
  - intros _ _ _. rewrite <- append_assoc.
    destruct (canon_key_proper isAbs r0 Hr0) as (Hx0 & Hx1 & Hx2).
    destruct (dirname_snoc ((if isAbs then "/" else "") +:+ r0) s Hx0 Hsep)
      as (-> & ->).
    unfold child_of. apply String.eqb_neq in Hx1, Hx2. now rewrite Hx1, Hx2.
Qed.

Lemma tidy_lookup (d : gmap string fs.node) (k : string) (n : fs.node) :
  tidy d = true -> d !! k = Some n -> fs.key k = k.
Proof.
  unfold tidy. rewrite forallb_forall. intros H Hk.
  apply String.eqb_eq. apply (H (k, n)).
  apply list_elem_of_In. now apply elem_of_map_to_list.
Qed.

(** What [readdirSync] lists are the entries of the disk whose path is a
    child of the directory. *)
Lemma children_spec (d : string) (m : gmap string fs.node) (b : string) :
  tidy m = true ->
  b ∈ fs.children d m ->
  normal b /\ exists n : fs.node, m !! child_of d b = Some n
  /\ fs.key (child_of d b) = child_of d b
  /\ path.trailingSeparator (child_of d b) = false.
Proof.
  intros Ht. unfold fs.children. rewrite list_elem_of_omap.
  intros ((k & n) & Hin & Hsome). simpl in Hsome.
  apply elem_of_map_to_list in Hin.
  pose proof (tidy_lookup m k n Ht Hin) as Hk.
  destruct (String.eqb_spec (fs.dirname k) d) as [Hd|]; [|discriminate].
  destruct (String.eqb_spec k d); [discriminate|].
  destruct (String.eqb_spec (fs.basename k) ""); [discriminate|].
  destruct (String.eqb_spec (fs.basename k) "."); [discriminate|].
  destruct (String.eqb_spec (fs.basename k) ".."); [discriminate|].
  simpl in Hsome. injection Hsome as <-.
  destruct (key_split k Hk) as (Hn & Hc & Htr); auto.
  rewrite Hd in Hc. rewrite <- Hc. eauto.
Qed.

(** ** [listFiles] *)

Lemma mapM_pure {A B : Type} (f : A -> fs.M B) (g : A -> B) (xs : list A)
      (w : world) :
  (forall x, x ∈ xs -> f x w = (Return (g x), w)) ->
  mapM f xs w = (Return (map g xs), w).
Proof.
  induction xs as [|x xs IH]; intros H; [reflexivity|].
  cbn [mapM map]. unfold mbind, M_bind at 1.
  rewrite (H x) by left. unfold mbind, M_bind at 1.
  rewrite IH by (intros y Hy; apply H; now right). reflexivity.
Qed.

Lemma is_dir_entry (p : string) (w : world) :
  is_dir (fs.entry p w) = true ->
  p <> "" /\ is_dir (fs.disk w !! fs.key p) = true.
Proof.
  unfold fs.entry. destruct (String.eqb_spec p ""); [discriminate|].
  destruct (fs.disk w !! fs.key p) as [[]|]; try discriminate; auto.
  destruct (path.trailingSeparator p); discriminate.
Qed.

(** The entry a child's path denotes. *)
Lemma entry_child (root b : string) (w : world) :
  root <> "" -> tidy (fs.disk w) = true ->
  b ∈ fs.children (fs.key root) (fs.disk w) ->
  exists n : fs.node,
    fs.disk w !! path.join [root; b] = Some n
    /\ fs.entry (path.join [root; b]) w = Some n.
Proof.
  intros Hroot Ht Hb.
  destruct (children_spec _ _ _ Ht Hb) as (Hn & n & Hl & Hk & Htr).
  rewrite (join_child_of root b Hroot Hn).
  exists n. split; [exact Hl|].
  unfold fs.entry. rewrite Hk, Hl, Htr.
  destruct (String.eqb_spec (child_of (fs.key root) b) "") as [E|_].
  - rewrite E in Hk. discriminate Hk.
  - now destruct n.
Qed.

Lemma listFiles_run (root : string) (w : world) :
  tidy (fs.disk w) = true ->
  is_dir (fs.entry root w) = true ->
  let names := fs.children (fs.key root) (fs.disk w) in
  listFiles root w
  = (Return (res_json 200
               [("success", JBool true);
                ("message", JStr "Files listed successfully");
                ("directory", JStr root);
                ("fileCount", JNum (Z.of_nat (length names)));
                ("files", JArr (map (descriptor root w) names))]), w).
Proof.
  intros Ht Hd names.
  destruct (is_dir_entry root w Hd) as (Hroot & _).
  unfold listFiles, try_catch. unfold mbind, M_bind at 1.
  unfold fs.readdirSync.
  destruct (fs.entry root w) as [[|]|]; try discriminate Hd.
  fold names. unfold mbind, M_bind at 1.
  rewrite (mapM_pure _ (descriptor root w) names w).
  - unfold mret, M_ret. now rewrite length_map.
  - intros b Hb. unfold mbind, M_bind, fs.statSync, descriptor.
    destruct (entry_child root b w Hroot Ht Hb) as (n & _ & ->).
    reflexivity.
Qed.

Lemma listFiles_fails (root : string) (w : world) :
  is_dir (fs.entry root w) = false ->
  exists e : string,
    listFiles root w
    = (Return (res_json 500 [("success", JBool false);
                             ("error", JStr "Failed to list files");
                             ("message", JStr e)]), w).
Proof.
  intros Hd. unfold listFiles, try_catch. unfold mbind, M_bind at 1.
  unfold fs.readdirSync.
  destruct (fs.entry root w) as [[|]|]; try discriminate Hd; eauto.
Qed.

(** X1: [listFiles] answers 200 with one descriptor per entry directly under
    the storage root, in the order [readdirSync] lists them, each holding
    the entry's name, the size and times [statSync] reports for it and its
    joined path, whenever the root is a directory (on a disk whose keys
    are resolved paths); it answers 500 "Failed to list files" whenever the
    root is not a directory. *)
Theorem listFiles_lists (root : string) (w : world) :
  tidy (fs.disk w) = true ->
  let names := fs.children (fs.key root) (fs.disk w) in
  (is_dir (fs.entry root w) = true ->
   exists details : list json,
     listFiles root w
     = (Return (res_json 200
                  [("success", JBool true);
                   ("message", JStr "Files listed successfully");
                   ("directory", JStr root);
                   ("fileCount", JNum (Z.of_nat (length names)));
                   ("files", JArr details)]), w)
     /\ Forall2 (fun (b : string) (j : json) =>
                   exists n : fs.node,
                     fs.disk w !! path.join [root; b] = Some n
                     /\ j = describe b (path.join [root; b]) (fs.stats_of n))
                names details)
  /\ (is_dir (fs.entry root w) = false ->
      exists e : string,
        listFiles root w
        = (Return (res_json 500 [("success", JBool false);
                                 ("error", JStr "Failed to list files");
                                 ("message", JStr e)]), w)).
Proof.
  intros Ht names. split; intros Hd.
  - destruct (is_dir_entry root w Hd) as (Hroot & _).
    exists (map (descriptor root w) names).
    split; [now apply listFiles_run|].
    apply Forall2_fmap_r, Forall_Forall2_diag, Forall_forall.
    intros b Hb. destruct (entry_child root b w Hroot Ht Hb) as (n & Hl & He).
    exists n. split; [exact Hl|]. unfold descriptor. now rewrite He.
  - now apply listFiles_fails.
Qed.

Lemma listFiles_lists_witness :
  exists details : list json,
    listFiles "uploads" stored_world
    = (Return (res_json 200
                 [("success", JBool true);
                  ("message", JStr "Files listed successfully");
                  ("directory", JStr "uploads");
                  ("fileCount", JNum 1);
                  ("files", JArr details)]), stored_world).
Proof.
  destruct (listFiles_lists "uploads" stored_world) as [H _];
    [vm_compute; reflexivity|].
  destruct H as (details & H & _); [vm_compute; reflexivity|].
  exists details. rewrite H. vm_compute. reflexivity.
Defined.

(** ** Which requests write *)

Lemma mapM_reads {A B : Type} (f : A -> fs.M B) (xs : list A) (w : world) :
  (forall x, exists o, f x w = (o, w)) ->
  exists o, mapM f xs w = (o, w).
Proof.
  intros H. induction xs as [|x xs (o & IH)]; [eexists; reflexivity|].
  cbn [mapM]. unfold mbind, M_bind at 1.
  destruct (H x) as ([y|e] & ->); [|eauto].
  unfold mbind, M_bind at 1. rewrite IH. destruct o; eauto.
Qed.

Lemma statSync_reads (p : string) (w : world) :
  exists o, fs.statSync p w = (o, w).
Proof. unfold fs.statSync. destruct (fs.entry p w); eauto. Qed.

Lemma listFiles_reads (root : string) (w : world) :
  exists r, listFiles root w = (Return r, w).
Proof.
  unfold listFiles, try_catch. unfold mbind, M_bind at 1.
  unfold fs.readdirSync.
  destruct (fs.entry root w) as [[|]|]; try (eexists; reflexivity).
  unfold mbind, M_bind at 1.
  match goal with |- context [mapM ?f ?xs w] =>
    destruct (mapM_reads f xs w) as ([ys|e] & ->)
  end; try (eexists; reflexivity).
  intros b. unfold mbind, M_bind.
  destruct (statSync_reads (path.join [root; b]) w) as ([s|e] & ->); eauto.
Qed.

Lemma getFileMetadata_reads (root fileName : string) (w : world) :
  exists r, getFileMetadata root fileName w = (Return r, w).
Proof.
  unfold getFileMetadata, try_catch.
  destruct (negb _); [eexists; reflexivity|].
  unfold mbind, M_bind, fs.existsSync.
  destruct (negb _); [eexists; reflexivity|].
  destruct (statSync_reads (path.join [root; fileName]) w) as ([s|e] & ->);
    eexists; reflexivity.
Qed.

Lemma downloadFile_reads (root fileName : string) (w : world) :
  exists r, downloadFile root fileName w = (Return r, w).
Proof.
  unfold downloadFile, try_catch.
  destruct (negb _); [eexists; reflexivity|].
  unfold mbind, M_bind, fs.existsSync.
  destruct (negb _); eexists; reflexivity.
Qed.

Lemma readiness_reads (root : string) (w : world) :
  exists r, readiness root w = (Return r, w).
Proof.
  unfold readiness, try_catch, mbind, M_bind, fs.existsSync.
  destruct (bool_decide _); eexists; reflexivity.
Qed.

(** X2: of all the routes only the upload writes.  A POST request whose
    path is the one segment [upload] is handled by [handleUpload]; every
    other request, a POST that misses [/upload] included, is answered and
    leaves the disk, the clock and the pending I/O failures as they
    were. *)
Theorem only_post_writes (root : string) (req : request) (w : world) :
  (forall a : string,
     method req = POST -> url req = [a] -> lit a "upload" = true ->
     app root req w = handleUpload root req w)
  /\ ((method req = POST ->
       forall a : string, url req = [a] -> lit a "upload" = false) ->
      exists r : response, app root req w = (Return r, w)).
Proof.
  unfold app. split.
  - intros a Hm Hu Hl. now rewrite Hm, Hu, Hl.
  - intros Hp.
    pose proof (listFiles_reads root w) as HL.
    pose proof (readiness_reads root w) as HR.
    assert (HN : exists r, notFound req w = (Return r, w))
      by (eexists; reflexivity).
    assert (HH : exists r, health w = (Return r, w))
      by (eexists; reflexivity).
    assert (HV : exists r, liveness w = (Return r, w))
      by (eexists; reflexivity).
    destruct (method req) eqn:Hm;
      destruct (url req) as [|a [|b [|c l]]] eqn:Hu; auto;
      try rewrite (Hp eq_refl a eq_refl);
      repeat match goal with
        | |- context [if ?c then _ else _] => destruct c
        end; auto using getFileMetadata_reads, downloadFile_reads.
Qed.

Lemma only_post_writes_witness :
  exists r : response,
    app "uploads" {| method := POST; path := "/files"; url := ["files"];
                     file := Some csv_part |} stored_world
    = (Return r, stored_world).
Proof.
  apply only_post_writes. intros _ a [= <-]. reflexivity.
Defined.

(** ** What [handleUpload] touches, and what its answers mean *)

Lemma kept_refl (ks : list string) (w : world) : kept ks w w.
Proof. intros k _. reflexivity. Qed.

Lemma kept_same (ks : list string) (w w' : world) :
  fs.disk w' = fs.disk w -> kept ks w w'.
Proof. intros D k _. now rewrite D. Qed.

Lemma kept_trans (ks : list string) (w1 w2 w3 : world) :
  kept ks w1 w2 -> kept ks w2 w3 -> kept ks w1 w3.
Proof.
  intros D1 D2 k Hk. now rewrite D2, D1.
Qed.

Lemma unlinkSync_kept (ks : list string) (p : string) (w w' : world)
      (o : outcome unit) :
  fs.key p ∈ ks -> fs.unlinkSync p w = (o, w') -> kept ks w w'.
Proof.
  intros Hin. unfold fs.unlinkSync, fs.io_error, fs.set_disk.
  destruct (hd false (fs.io_errors w)); [intros [= <- <-]; now apply kept_same|].
  destruct (fs.entry p _) as [[]|]; intros [= <- <-];
    try now apply kept_same.
  intros k Hk. simpl.
  apply lookup_delete_ne. intros <-. contradiction.
Qed.

Lemma copyFileSync_kept (ks : list string) (src dest : string) (w w' : world)
      (o : outcome unit) :
  fs.key dest ∈ ks -> fs.copyFileSync src dest w = (o, w') -> kept ks w w'.
Proof.
  intros Hin. unfold fs.copyFileSync, fs.io_error, fs.set_disk. cbv zeta.
  destruct (hd false (fs.io_errors w)); [intros [= <- <-]; now apply kept_same|].
  destruct (fs.entry src _) as [[]|]; [|intros [= <- <-]; now apply kept_same..].
  destruct (_ || _); [intros [= <- <-]; now apply kept_same|].
  simpl fs.disk.
  repeat case_match; intros [= <- <-]; try now apply kept_same.
  all: intros k Hk; simpl.
  all: apply lookup_insert_ne; intros <-; contradiction.
Qed.

Lemma cleanup_kept (ks : list string) (p : string) (w w' : world)
      (o : outcome unit) :
  fs.key p ∈ ks -> cleanup p w = (o, w') -> kept ks w w'.
Proof.
  intros Hin. unfold cleanup, mbind, M_bind, fs.existsSync.
  destruct (bool_decide _).
  - now apply unlinkSync_kept.
  - intros [= <- <-]. apply kept_refl.
Qed.

(** X3: whatever [handleUpload] does, with whatever outcome (an answer or an
    exception that leaves the handler), it touches no entry of the disk
    other than the temporary file of the part and the destination
    [path.join(root, savedAs)]; without a file part it changes nothing. *)
Theorem handleUpload_touches_two_paths (root : string) (req : request)
        (w : world) :
  let w' := (handleUpload root req w).2 in
  match file req with
  | None => w' = w
  | Some f =>
      kept [fs.key (multer.path f);
            fs.key (path.join [root; savedAs (fs.clock w) f])] w w'
  end.
Proof.
  cbv zeta. destruct (handleUpload root req w) as [o w'] eqn:Hrun.
  simpl snd. revert Hrun.
  destruct (file req) as [f|] eqn:Hf.
  2:{ rewrite (handleUpload_missing_file root req w Hf). now intros [= _ <-]. }
  rewrite (handleUpload_unfold root req f w Hf).
  set (ks := [fs.key (multer.path f);
              fs.key (path.join [root; savedAs (fs.clock w) f])]).
  assert (Hp : fs.key (multer.path f) ∈ ks) by (unfold ks; left).
  assert (Hd : fs.key (path.join [root; savedAs (fs.clock w) f]) ∈ ks)
    by (unfold ks; right; left).
  assert (Hcatch : forall (e : string) (w1 : world),
             kept ks w w1 ->
             (cleanup (multer.path f);;
              mret (res_json 500 [("success", JBool false);
                                  ("error", JStr "Failed to upload file");
                                  ("message", JStr e)])) w1 = (o, w') ->
             kept ks w w').
  { intros e w1 K1. unfold mbind, M_bind.
    destruct (cleanup (multer.path f) w1) as [[[]|e'] w2] eqn:E2;
      intros [= <- <-]; apply (kept_trans _ _ _ _ K1);
      now apply (cleanup_kept ks _ _ _ _ Hp E2). }
  destruct (negb _).
  - unfold mbind, M_bind at 1.
    destruct (fs.unlinkSync _ w) as [[[]|e] w1] eqn:E1;
      pose proof (unlinkSync_kept ks _ _ _ _ Hp E1) as K1.
    + now intros [= <- <-].
    + now apply Hcatch.
  - unfold mbind, M_bind at 1. unfold fs.Date_now at 1.
    unfold mbind, M_bind at 1. fold (savedAs (fs.clock w) f).
    destruct (fs.copyFileSync _ _ w) as [[[]|e] w1] eqn:E1;
      pose proof (copyFileSync_kept ks _ _ _ _ _ Hd E1) as K1;
      [|now apply Hcatch].
    unfold mbind, M_bind at 1.
    destruct (fs.unlinkSync _ w1) as [[[]|e] w2] eqn:E2;
      pose proof (unlinkSync_kept ks _ _ _ _ Hp E2) as K2;
      pose proof (kept_trans _ _ _ _ K1 K2) as K.
    + now intros [= <- <-].
    + now apply Hcatch.
Qed.

Lemma copyFileSync_returns (src dest : string) (w w1 : world) :
  fs.copyFileSync src dest w = (Return tt, w1) ->
  exists (d : string) (b m b' : Z),
    fs.entry src w = Some (fs.File d b m)
    /\ w1 = with_disk (<[fs.key dest := fs.File d b' (fs.io_time w).1]>
                         (fs.disk w))
                      (after_io w).
Proof.
  unfold fs.copyFileSync, fs.io_error, fs.set_disk. cbv zeta.
  fold (after_io w).
  destruct (hd false (fs.io_errors w)); [discriminate|].
  rewrite entry_after_io.
  destruct (fs.entry src w) as [[d b m|]|]; try discriminate.
  destruct (_ || _); [discriminate|]. simpl fs.disk.
  repeat case_match; try discriminate; intros [= <-]; eauto 6.
Qed.

Lemma unlinkSync_returns (p : string) (w w1 : world) :
  fs.unlinkSync p w = (Return tt, w1) ->
  w1 = with_disk (delete (fs.key p) (fs.disk w)) (after_io w).
Proof.
  unfold fs.unlinkSync, fs.io_error, fs.set_disk. fold (after_io w).
  destruct (hd false (fs.io_errors w)); [discriminate|].
  destruct (fs.entry p (after_io w)) as [[]|]; try discriminate.
  now intros [= <-].
Qed.

(** X4: [handleUpload] reports success only for what it has stored.  On
    every disk and with any I/O failures, if it answers 200 then the
    request carried a file part whose name ends in [.csv], and the path
    [path.join(root, savedAs)] now holds a file with the bytes the
    temporary file held, whatever times the file system gave it (the
    temporary file and the destination being different paths). *)
Theorem success_means_stored (root : string) (req : request) (w w' : world)
        (r : response) :
  handleUpload root req w = (Return r, w') ->
  answered (Return r, w') = Some 200 ->
  exists (f : multer.file) (d : string) (b m b' m' : Z),
    file req = Some f
    /\ JS.endsWith (multer.originalname f) ".csv" = true
    /\ fs.entry (multer.path f) w = Some (fs.File d b m)
    /\ member "savedAs" r = Some (JStr (savedAs (fs.clock w) f))
    /\ (fs.key (multer.path f)
        <> fs.key (path.join [root; savedAs (fs.clock w) f]) ->
        fs.disk w' !! fs.key (path.join [root; savedAs (fs.clock w) f])
        = Some (fs.File d b' m')).
Proof.
  destruct (file req) as [f|] eqn:Hf.
  2:{ rewrite (handleUpload_missing_file root req w Hf).
      intros [= <- <-]. discriminate. }
  rewrite (handleUpload_unfold root req f w Hf).
  assert (Hcatch : forall (e : string) (w1 : world),
             (cleanup (multer.path f);;
              mret (res_json 500 [("success", JBool false);
                                  ("error", JStr "Failed to upload file");
                                  ("message", JStr e)])) w1 = (Return r, w') ->
             answered (Return r, w') = Some 200 -> False).
  { intros e w1. unfold mbind, M_bind.
    destruct (cleanup (multer.path f) w1) as [[[]|e'] w2];
      intros [= <- <-]; discriminate. }
  destruct (JS.endsWith (multer.originalname f) ".csv") eqn:Hcsv; cbn [negb].
  - unfold mbind, M_bind at 1. unfold fs.Date_now at 1.
    unfold mbind, M_bind at 1. fold (savedAs (fs.clock w) f).
    destruct (fs.copyFileSync _ _ w) as [[[]|e] w1] eqn:E1;
      [|intros H1 H2; destruct (Hcatch _ _ H1 H2)].
    unfold mbind, M_bind at 1.
    destruct (fs.unlinkSync _ w1) as [[[]|e] w2] eqn:E2;
      [|intros H1 H2; destruct (Hcatch _ _ H1 H2)].
    apply copyFileSync_returns in E1 as (d & b & m & b' & Hsrc & ->).
    apply unlinkSync_returns in E2 as ->.
    intros [= <- <-] _. exists f, d, b, m, b', (fs.io_time w).1.
    repeat split; auto. intros Hne. simpl fs.disk.
    rewrite lookup_delete_ne by assumption. apply lookup_insert_eq.
  - unfold mbind, M_bind at 1.
    destruct (fs.unlinkSync _ w) as [[[]|e] w1] eqn:E1.
    + intros [= <- <-]. discriminate.
    + intros H1 H2. destruct (Hcatch _ _ H1 H2).
Qed.

Lemma success_means_stored_witness :
  exists (w' : world) (b' m' : Z),
    answered (handleUpload "uploads" csv_upload csv_world) = Some 200
    /\ (handleUpload "uploads" csv_upload csv_world).2 = w'
    /\ fs.disk w' !! "uploads/1705324245123-sales.csv"
       = Some (fs.File "a,b 1,2" b' m').
Proof.
  destruct (handleUpload "uploads" csv_upload csv_world) as [[r|e] w'] eqn:E;
    [|vm_compute in E; discriminate E].
  assert (H200 : answered (Return r, w') = Some 200).
  { vm_compute in E. injection E as <- <-. reflexivity. }
  destruct (success_means_stored "uploads" csv_upload csv_world w' r E H200)
    as (f & d & b & m & b' & m' & Hf & _ & Hsrc & _ & Hst).
  injection Hf as <-. vm_compute in Hsrc. injection Hsrc as <- _ _.
  exists w', b', m'. split; [exact H200|]. split; [reflexivity|].
  apply Hst. vm_compute. discriminate.
Defined.

Lemma copy_fails_without_storage (root : string) (req : request)
      (f : multer.file) (w : world) (d : string) (b m : Z) :
  root <> "" ->
  file req = Some f ->
  JS.endsWith (multer.originalname f) ".csv" = true ->
  no_sep (multer.originalname f) = true ->
  0 <= fs.clock w ->
  fs.entry (multer.path f) w = Some (fs.File d b m) ->
  is_dir (fs.disk w !! fs.key root) = false ->
  hd false (fs.io_errors w) = false ->
  hd false (tl (fs.io_errors w)) = false ->
  exists e : string,
    handleUpload root req w
    = (Return (res_json 500
                 [("success", JBool false);
                  ("error", JStr "Failed to upload file");
                  ("message", JStr e)]),
       with_disk (delete (fs.key (multer.path f)) (fs.disk w))
                 (after_io (after_io w))).
Proof.
  intros Hroot Hf Hcsv Hsep Hclock Htemp Hdir Hio1 Hio2.
  exists "ENOENT: no such file or directory, copyfile".
  rewrite (handleUpload_unfold root req f w Hf), Hcsv. cbn [negb].
  destruct (stored_name_plain (fs.clock w) (multer.originalname f) Hclock Hsep)
    as (c & s & Hname & Hc & Hs).
  destruct (stored_path root c s Hroot Hc Hs) as (Hne & Htr & Hkey & Hdn & _).
  unfold mbind, M_bind at 1. unfold fs.Date_now at 1.
  unfold mbind, M_bind at 1. rewrite Hname.
  set (filePath := path.join [root; String c s]) in *.
  assert (Hcopy : fs.copyFileSync (multer.path f) filePath w
                  = (Throw "ENOENT: no such file or directory, copyfile",
                     after_io w)).
  { unfold fs.copyFileSync, fs.io_error. rewrite Hio1. fold (after_io w).
    rewrite entry_after_io, Htemp.
    apply String.eqb_neq in Hne. rewrite Hne, Htr. simpl orb. cbv iota.
    simpl fs.disk. rewrite Hkey, Hdn.
    destruct (fs.disk w !! fs.key root) as [[]|]; try discriminate Hdir;
      reflexivity. }
  rewrite Hcopy.
  unfold mbind, M_bind at 1. unfold cleanup, mbind, M_bind at 1.
  unfold fs.existsSync. rewrite entry_after_io, Htemp.
  rewrite bool_decide_eq_true_2 by eauto.
  rewrite (unlinkSync_file _ (after_io w) d b m) by assumption.
  reflexivity.
Qed.

(** X5: when the storage root is not an existing directory, an upload that
    passes validation is answered 500 "Failed to upload file" with the
    message of the failed copy; the temporary file is removed and nothing
    else on the disk changes. *)
Theorem handleUpload_without_storage (root : string) (req : request)
        (f : multer.file) (w : world) (d : string) (b m : Z) :
  root <> "" ->
  file req = Some f ->
  JS.endsWith (multer.originalname f) ".csv" = true ->
  no_sep (multer.originalname f) = true ->
  0 <= fs.clock w ->
  fs.entry (multer.path f) w = Some (fs.File d b m) ->
  is_dir (fs.disk w !! fs.key root) = false ->
  hd false (fs.io_errors w) = false ->
  hd false (tl (fs.io_errors w)) = false ->
  exists e : string,
    handleUpload root req w
    = (Return (res_json 500
                 [("success", JBool false);
                  ("error", JStr "Failed to upload file");
                  ("message", JStr e)]),
       with_disk (delete (fs.key (multer.path f)) (fs.disk w))
                 (after_io (after_io w))).
Proof. apply copy_fails_without_storage. Qed.

Lemma handleUpload_without_storage_witness :
  exists (e : string) (w' : world),
    handleUpload "/srv/missing" csv_upload csv_world
    = (Return (res_json 500
                 [("success", JBool false);
                  ("error", JStr "Failed to upload file");
                  ("message", JStr e)]), w')
    /\ fs.entry "/tmp/uploads/0f3a9c" w' = None.
Proof.
  destruct (handleUpload_without_storage "/srv/missing" csv_upload csv_part
              csv_world "a,b 1,2" 1705324245000 1705324245000)
    as (e & H).
  - discriminate.
  - reflexivity.
  - vm_compute; reflexivity.
  - vm_compute; reflexivity.
  - vm_compute; discriminate.
  - vm_compute; reflexivity.
  - vm_compute; reflexivity.
  - reflexivity.
  - reflexivity.
  - exists e. eexists. split; [exact H|]. vm_compute; reflexivity.
Defined.

(** X6: a 500 answer does not mean that nothing was stored.  When the copy
    succeeds, the removal of the temporary file fails once for an outside
    reason and the [catch] block's second removal succeeds, [handleUpload]
    answers 500 with exactly [{success: false, error: 'Failed to upload
    file', message}] although a file with the uploaded bytes now sits at
    [path.join(root, savedAs)], with whatever times the file system gave
    it, and the temporary file is gone. *)
Theorem failed_cleanup_keeps_stored_copy (root : string) (req : request)
        (f : multer.file) (w : world) (d : string) (b m : Z)
        (later : list bool) :
  let filePath := path.join [root; savedAs (fs.clock w) f] in
  file req = Some f ->
  JS.endsWith (multer.originalname f) ".csv" = true ->
  no_sep (multer.originalname f) = true ->
  0 <= fs.clock w ->
  fs.entry (multer.path f) w = Some (fs.File d b m) ->
  is_dir (fs.entry root w) = true ->
  is_dir (fs.disk w !! filePath) = false ->
  fs.key (multer.path f) <> filePath ->
  fs.io_errors w = false :: true :: false :: later ->
  exists (e : string) (w' : world) (b' m' : Z),
    handleUpload root req w
    = (Return (Answer 500 (JObj [("success", JBool false);
                                 ("error", JStr "Failed to upload file");
                                 ("message", JStr e)])), w')
    /\ fs.entry filePath w' = Some (fs.File d b' m')
    /\ fs.entry (multer.path f) w' = None.
Proof.
  intros filePath Hf Hcsv Hsep Hclock Htemp Hroot Hdest Hdiff Hio.
  destruct (is_dir_entry root w Hroot) as (Hne & Hrd).
  destruct (stored_name_plain (fs.clock w) (multer.originalname f) Hclock Hsep)
    as (c & s & Hname & Hc & Hs).
  fold (savedAs (fs.clock w) f) in Hname.
  destruct (stored_path root c s Hne Hc Hs) as (Hp0 & Htr & Hkey & Hdn & _).
  rewrite <- Hname in Hp0, Htr, Hkey, Hdn.
  fold filePath in Hp0, Htr, Hkey, Hdn.
  rewrite (handleUpload_unfold root req f w Hf), Hcsv. cbn [negb].
  unfold mbind, M_bind at 1. unfold fs.Date_now at 1.
  unfold mbind, M_bind at 1. fold (savedAs (fs.clock w) f). fold filePath.
  destruct (copyFileSync_file (multer.path f) filePath w d b m)
    as (b' & Hcopy); auto.
  { now rewrite Hio. } { now rewrite Hkey, Hdn. } { now rewrite Hkey. }
  rewrite Hcopy, Hkey.
  set (w1 := with_disk _ (after_io w)).
  assert (Htemp1 : fs.entry (multer.path f) w1 = Some (fs.File d b m)).
  { unfold fs.entry in *. destruct (String.eqb (multer.path f) "");
      [discriminate|].
    unfold w1. simpl fs.disk. rewrite lookup_insert_ne by auto. exact Htemp. }
  unfold mbind, M_bind at 1.
  assert (Hun : fs.unlinkSync (multer.path f) w1
                = (Throw "EIO: i/o error, unlink", after_io w1)).
  { unfold fs.unlinkSync, fs.io_error, after_io, w1, with_disk.
    simpl fs.io_errors. rewrite Hio. reflexivity. }
  rewrite Hun.
  unfold mbind, M_bind at 1. unfold cleanup, mbind, M_bind at 1.
  unfold fs.existsSync. rewrite entry_after_io, Htemp1.
  rewrite bool_decide_eq_true_2 by eauto.
  rewrite (unlinkSync_file _ (after_io w1) d b m);
    [|unfold w1; simpl; now rewrite Hio|now rewrite entry_after_io].
  eexists _, _, b', _. split; [reflexivity|]. split.
  - unfold fs.entry. apply String.eqb_neq in Hp0. rewrite Hp0, Hkey.
    simpl fs.disk. rewrite lookup_delete_ne by assumption.
    now rewrite lookup_insert_eq, Htr.
  - apply entry_deleted.
Qed.

Lemma failed_cleanup_keeps_stored_copy_witness :
  exists (e : string) (w' : world) (b' m' : Z),
    handleUpload "uploads" csv_upload flaky_world
    = (Return (Answer 500 (JObj [("success", JBool false);
                                 ("error", JStr "Failed to upload file");
                                 ("message", JStr e)])), w')
    /\ fs.entry "uploads/1705324245123-sales.csv" w'
       = Some (fs.File "a,b 1,2" b' m').
Proof.
  destruct (failed_cleanup_keeps_stored_copy "uploads" csv_upload csv_part
              flaky_world "a,b 1,2" 1705324245000 1705324245000 [])
    as (e & w' & b' & m' & H1 & H2 & _).
  - reflexivity.
  - vm_compute; reflexivity.
  - vm_compute; reflexivity.
  - vm_compute; discriminate.
  - vm_compute; reflexivity.
  - vm_compute; reflexivity.
  - vm_compute; reflexivity.
  - vm_compute; discriminate.
  - reflexivity.
  - exists e, w', b', m'. split; [exact H1|exact H2].
Defined.

(** ** Ready, but not usable *)

(** X7: the readiness probe does not tell whether the storage is usable.
    When the storage root is an existing file instead of a directory,
    [readiness] answers 200 "available", while [listFiles] answers 500 and
    an upload that passes validation is answered 500 with its temporary
    file removed. *)
Theorem ready_although_root_is_a_file (root : string) (w : world)
        (data : string) (rb rm : Z) :
  fs.entry root w = Some (fs.File data rb rm) ->
  readiness root w
  = (Return (res_json 200 [("ready", JBool true);
                           ("storage", JStr "available")]), w)
  /\ (exists e : string,
         listFiles root w
         = (Return (res_json 500 [("success", JBool false);
                                  ("error", JStr "Failed to list files");
                                  ("message", JStr e)]), w))
  /\ forall (req : request) (f : multer.file) (d : string) (b m : Z),
       file req = Some f ->
       JS.endsWith (multer.originalname f) ".csv" = true ->
       no_sep (multer.originalname f) = true ->
       0 <= fs.clock w ->
       fs.entry (multer.path f) w = Some (fs.File d b m) ->
       hd false (fs.io_errors w) = false ->
       hd false (tl (fs.io_errors w)) = false ->
       exists (e : string) (w' : world),
         handleUpload root req w
         = (Return (res_json 500 [("success", JBool false);
                                  ("error", JStr "Failed to upload file");
                                  ("message", JStr e)]), w')
         /\ fs.entry (multer.path f) w' = None.
Proof.
  intros Hroot.
  assert (Hne : root <> "").
  { intros ->. discriminate Hroot. }
  assert (Hk : is_dir (fs.disk w !! fs.key root) = false).
  { unfold fs.entry in Hroot. apply String.eqb_neq in Hne.
    rewrite Hne in Hroot.
    destruct (fs.disk w !! fs.key root) as [[]|]; try discriminate.
    reflexivity. }
  split; [|split].
  - unfold readiness, try_catch, mbind, M_bind, fs.existsSync.
    rewrite Hroot, bool_decide_eq_true_2 by eauto. reflexivity.
  - apply listFiles_fails. now rewrite Hroot.
  - intros req f d b m Hf Hcsv Hsep Hclock Htemp Hio1 Hio2.
    destruct (copy_fails_without_storage root req f w d b m)
      as (e & ->); auto.
    eexists _, _. split; [reflexivity|]. apply entry_deleted.
Qed.

Lemma ready_although_root_is_a_file_witness :
  answered (readiness "uploads" file_root_world) = Some 200
  /\ answered (listFiles "uploads" file_root_world) = Some 500
  /\ answered (handleUpload "uploads" csv_upload file_root_world) = Some 500.
Proof.
  destruct (ready_although_root_is_a_file "uploads" file_root_world
              "not a directory" 1700000000000 1700000000000)
    as (H1 & (e & H2) & H3).
  - vm_compute; reflexivity.
  - destruct (H3 csv_upload csv_part "a,b 1,2" 1705324245000 1705324245000)
      as (e' & w' & H4 & _).
    + reflexivity.
    + vm_compute; reflexivity.
    + vm_compute; reflexivity.
    + vm_compute; discriminate.
    + vm_compute; reflexivity.
    + reflexivity.
    + reflexivity.
    + rewrite H1, H2, H4. repeat split.
Defined.

(** ** A stored upload is listed *)

Lemma tidy_spec (d : gmap string fs.node) :
  tidy d = true <-> forall k n, d !! k = Some n -> fs.key k = k.
Proof.
  split; [intros H k n; now apply tidy_lookup|].
  intros H. unfold tidy. apply forallb_forall. intros [k n] Hin.
  apply list_elem_of_In, elem_of_map_to_list in Hin.
  apply String.eqb_eq. simpl. eauto.
Qed.

Lemma key_idempotent (p : string) : fs.key (fs.key p) = fs.key p.
Proof.
  destruct (String.eqb_spec p "") as [->|Hp]; [reflexivity|].
  rewrite (key_root p Hp).
  set (isAbs := JS.charAt_is p 0 path.CHAR_FORWARD_SLASH).
  set (r := path.normalizeString p (negb isAbs)).
  destruct (String.eqb_spec r "") as [Hr|Hr].
  - now destruct isAbs.
  - destruct (normalizeString_canon p (negb isAbs)) as [E|Hc];
      [contradiction|]. fold r in Hc.
    apply key_stable; [now apply normalize_canon|].
    rewrite trailingSeparator_last.
    rewrite last_is_sep_app by (now apply canon_nonempty in Hc).
    apply (canon_tail _ _ Hc).
Qed.

Lemma tidy_insert (d : gmap string fs.node) (p : string) (n : fs.node) :
  tidy d = true -> tidy (<[fs.key p := n]> d) = true.
Proof.
  rewrite !tidy_spec. intros H k n'.
  destruct (decide (fs.key p = k)) as [<-|Hne].
  - intros _. apply key_idempotent.
  - rewrite lookup_insert_ne by assumption. apply H.
Qed.

Lemma tidy_delete (d : gmap string fs.node) (k : string) :
  tidy d = true -> tidy (delete k d) = true.
Proof.
  rewrite !tidy_spec. intros H k' n Hl.
  apply lookup_delete_Some in Hl as (_ & Hl). eauto.
Qed.

Lemma children_elem (d k : string) (n : fs.node) (m : gmap string fs.node) :
  m !! k = Some n -> fs.dirname k = d -> k <> d -> normal (fs.basename k) ->
  fs.basename k ∈ fs.children d m.
Proof.
  intros Hl Hd Hne (H0 & _ & H1 & H2).
  unfold fs.children. apply list_elem_of_omap.
  exists (k, n). split; [now apply elem_of_map_to_list|]. simpl.
  apply String.eqb_eq in Hd. apply String.eqb_neq in Hne, H0, H1, H2.
  now rewrite Hd, Hne, H0, H1, H2.
Qed.

(** X8: a stored upload is listed.  After [handleUpload] has answered 200,
    [listFiles] answers 200 with a list that holds the descriptor of the
    stored file: its name [savedAs], the byte length of the uploaded data
    as its size, its joined path, and the times the file system gave the
    file. *)
Theorem upload_then_list (root : string) (req : request) (f : multer.file)
        (w : world) (d : string) (b m : Z) :
  let filePath := path.join [root; savedAs (fs.clock w) f] in
  tidy (fs.disk w) = true ->
  file req = Some f ->
  JS.endsWith (multer.originalname f) ".csv" = true ->
  no_sep (multer.originalname f) = true ->
  0 <= fs.clock w ->
  fs.entry (multer.path f) w = Some (fs.File d b m) ->
  is_dir (fs.entry root w) = true ->
  is_dir (fs.disk w !! filePath) = false ->
  fs.key (multer.path f) <> filePath ->
  hd false (fs.io_errors w) = false ->
  hd false (tl (fs.io_errors w)) = false ->
  exists (r : response) (w' : world) (details : list json) (b' m' : Z),
    handleUpload root req w = (Return r, w')
    /\ member "savedAs" r = Some (JStr (savedAs (fs.clock w) f))
    /\ fs.entry filePath w' = Some (fs.File d b' m')
    /\ listFiles root w'
       = (Return (Answer 200
                    (JObj [("success", JBool true);
                           ("message", JStr "Files listed successfully");
                           ("directory", JStr root);
                           ("fileCount", JNum (Z.of_nat (length details)));
                           ("files", JArr details)])), w')
    /\ describe (savedAs (fs.clock w) f) filePath
         {| fs.size := JS.len d; fs.birthtime := b'; fs.mtime := m' |}
       ∈ details.
Proof.
  intros filePath Ht Hf Hcsv Hsep Hclock Htemp Hroot Hdest Hdiff Hio1 Hio2.
  destruct (is_dir_entry root w Hroot) as (Hne & Hrd).
  destruct (stored_name_plain (fs.clock w) (multer.originalname f) Hclock Hsep)
    as (c & s & Hname & Hc & Hs).
  fold (savedAs (fs.clock w) f) in Hname.
  destruct (stored_path root c s Hne Hc Hs) as (Hp0 & Htr & Hkey & Hdn & Hbn).
  rewrite <- Hname in Hp0, Htr, Hkey, Hdn, Hbn. fold filePath in Hp0, Htr, Hkey, Hdn, Hbn.
  destruct (handleUpload_run root req f w d b m Hf Hcsv Htemp Hio1 Hio2)
    as (b' & Hrun).
  { exact Hp0. } { exact Htr. }
  { fold (savedAs (fs.clock w) f). fold filePath. now rewrite Hkey, Hdn. }
  { fold (savedAs (fs.clock w) f). fold filePath. now rewrite Hkey. }
  { fold (savedAs (fs.clock w) f). fold filePath. now rewrite Hkey. }
  fold (savedAs (fs.clock w) f) in Hrun. fold filePath in Hrun.
  rewrite Hkey in Hrun.
  set (m' := (fs.io_time w).1) in *.
  set (disk' := delete (fs.key (multer.path f))
                  (<[filePath := fs.File d b' m']> (fs.disk w))) in *.
  set (w' := with_disk disk' (after_io (after_io w))) in *.
  assert (Hstored : disk' !! filePath = Some (fs.File d b' m')).
  { unfold disk'. rewrite lookup_delete_ne by assumption.
    apply lookup_insert_eq. }
  assert (Hrootk : fs.key root <> filePath).
  { intros E. rewrite E in Hrd. rewrite Hrd in Hdest. discriminate. }
  assert (Hrd' : is_dir (fs.entry root w') = true).
  { unfold fs.entry in *. apply String.eqb_neq in Hne. rewrite Hne in *.
    simpl fs.disk. unfold disk'.
    assert (Hk : fs.key (multer.path f) <> fs.key root).
    { intros E. unfold fs.entry in Htemp.
      destruct (String.eqb (multer.path f) ""); [discriminate|].
      rewrite E in Htemp.
      destruct (fs.disk w !! fs.key root) as [[]|]; discriminate. }
    rewrite lookup_delete_ne, lookup_insert_ne by auto. exact Hroot. }
  assert (Ht' : tidy (fs.disk w') = true).
  { simpl. unfold disk'. apply tidy_delete. rewrite <- Hkey.
    now apply tidy_insert. }
  eexists _, w', _, b', m'. split; [exact Hrun|]. split; [reflexivity|].
  split; [|split].
  - unfold fs.entry. apply String.eqb_neq in Hp0. rewrite Hp0, Hkey.
    simpl fs.disk. now rewrite Hstored, Htr.
  - rewrite (listFiles_run root w' Ht' Hrd'). now rewrite length_map.
  - apply list_elem_of_fmap.
    exists (savedAs (fs.clock w) f). split.
    + unfold descriptor. fold filePath.
      unfold fs.entry. apply String.eqb_neq in Hp0. rewrite Hp0, Hkey.
      simpl fs.disk. rewrite Hstored, Htr. reflexivity.
    + assert (Hin : fs.basename filePath
                      ∈ fs.children (fs.key root) (fs.disk w')).
      { apply (children_elem _ _ (fs.File d b' m')); auto.
        rewrite Hbn, Hname. now apply plain_name_normal. }
      rewrite Hbn in Hin. exact Hin.
Qed.

Lemma upload_then_list_witness :
  exists (r : response) (w' : world) (details : list json) (b' m' : Z),
    handleUpload "uploads" csv_upload csv_world = (Return r, w')
    /\ member "savedAs" r = Some (JStr "1705324245123-sales.csv")
    /\ answered (listFiles "uploads" w') = Some 200
    /\ describe "1705324245123-sales.csv" "uploads/1705324245123-sales.csv"
         {| fs.size := 7; fs.birthtime := b'; fs.mtime := m' |}
       ∈ details.
Proof.
  destruct (upload_then_list "uploads" csv_upload csv_part csv_world
              "a,b 1,2" 1705324245000 1705324245000)
    as (r & w' & details & b' & m' & H1 & H2 & _ & H3 & H4).
  - vm_compute; reflexivity.
  - reflexivity.
  - vm_compute; reflexivity.
  - vm_compute; reflexivity.
  - vm_compute; discriminate.
  - vm_compute; reflexivity.
  - vm_compute; reflexivity.
  - vm_compute; reflexivity.
  - vm_compute; discriminate.
  - reflexivity.
  - reflexivity.
  - exists r, w', details, b', m'. split; [exact H1|]. split; [exact H2|].
    split; [now rewrite H3|]. vm_compute in H4. exact H4.
Defined.

(** ** The traversal guard for a root in normal form *)

(** What [path.join] returns is in normal form. *)
Lemma join_normalized (args : list string) :
  path.normalize (path.join args) = path.join args.
Proof.
  unfold path.join. destruct (fold_left _ args None); [|reflexivity].
  apply normalize_idempotent.
Qed.

Lemma prefix_app (p t : string) : String.prefix p (p +:+ t) = true.
Proof.
  induction p as [|a p IH]; simpl; [now destruct t|].
  destruct (Ascii.ascii_dec a a); [exact IH|contradiction].
Qed.

Lemma prefix_split (p s : string) :
  String.prefix p s = true -> exists t : string, s = p +:+ t.
Proof.
  revert s. induction p as [|a p IH]; intros s H; [now exists s|].
  destruct s as [|b s]; [now rewrite prefix_nil_r in H|].
  apply prefix_cons in H as (-> & H). destruct (IH s H) as (t & ->).
  now exists t.
Qed.

Lemma last_is_sep_split (s : string) :
  last_is_sep s = true -> exists t : string, s = t +:+ "/".
Proof.
  induction s as [|a s IH]; [discriminate|].
  destruct s as [|b s].
  - simpl. intros H. apply Ascii.eqb_eq in H as ->. now exists "".
  - intros H. destruct (IH H) as (t & Ht). exists (String a t).
    simpl. now rewrite <- Ht.
Qed.

(** The forms of a root that is spelled in normal form. *)
Lemma normal_root_cases (root : string) :
  path.normalize root = root ->
  root = "/" \/ root = "." \/ root = "./"
  \/ exists (isAbsolute : bool) (q : string),
       canon (negb isAbsolute) q
       /\ fs.key root = (if isAbsolute then "/" else "") +:+ q
       /\ (root = fs.key root \/ root = fs.key root +:+ "/").
Proof.
  intros H.
  assert (Hne : root <> "") by (intros ->; discriminate H).
  pose proof (key_root root Hne) as Hk. cbv zeta in Hk.
  unfold path.normalize in H. apply String.eqb_neq in Hne. rewrite Hne in H.
  set (isAbs := JS.charAt_is root 0 path.CHAR_FORWARD_SLASH) in *.
  set (q := path.normalizeString root (negb isAbs)) in *.
  destruct (String.eqb_spec q "") as [Hq|Hq].
  - destruct isAbs; [auto|]. destruct (path.trailingSeparator root); auto.
  - destruct (normalizeString_canon root (negb isAbs)) as [E|Hc];
      [contradiction|]. fold q in Hc.
    right; right; right. exists isAbs, q. split; [exact Hc|].
    split; [exact Hk|]. rewrite Hk.
    destruct (path.trailingSeparator root); [right|left].
    + rewrite <- H at 1. destruct isAbs; simpl; now rewrite ?append_assoc.
    + rewrite <- H at 1. now destruct isAbs.
Qed.

Lemma key_trim (p t : string) :
  p <> "" -> path.normalize (p +:+ t) = p +:+ t ->
  fs.key (p +:+ t) = p +:+ t
  \/ (exists t' : string, t = t' +:+ "/" /\ fs.key (p +:+ t) = p +:+ t')
  \/ (t = "" /\ exists p' : string, p = p' +:+ "/").
Proof.
  intros Hp Hn. unfold fs.key. rewrite Hn, trailingSeparator_last.
  destruct (last_is_sep (p +:+ t)) eqn:Hl; [|now left].
  destruct (String.eqb_spec (p +:+ t) "/") as [E|_]; [now left|].
  simpl andb. cbv iota. right.
  destruct t as [|a t].
  - right. split; [reflexivity|]. rewrite append_nil_r in Hl.
    now apply last_is_sep_split.
  - left. rewrite last_is_sep_app in Hl by discriminate.
    destruct (last_is_sep_split _ Hl) as (t' & ->). exists t'.
    split; [reflexivity|].
    rewrite <- append_assoc, len_append. change (JS.len "/") with 1.
    replace (JS.len (p +:+ t') + 1 - 1) with (JS.len (p +:+ t')) by lia.
    apply slice0_app.
Qed.

Lemma segments_from_plain (cur s : string) :
  no_sep s = true ->
  segments_from cur s
  = if String.eqb (cur +:+ s) "" then [] else [cur +:+ s].
Proof.
  revert cur. induction s as [|c s IH]; intros cur H.
  - simpl. now rewrite append_nil_r.
  - simpl in H. apply andb_true_iff in H as (Hc & Hs).
    apply negb_true_iff in Hc. cbn [segments_from]. rewrite Hc.
    rewrite IH by assumption. rewrite append_assoc. reflexivity.
Qed.

Lemma segments_from_app (cur a u : string) :
  segments_from cur (a +:+ "/" +:+ u) = segments_from cur a ++ segments u.
Proof.
  revert cur. induction a as [|c a IH]; intros cur.
  - change ("" +:+ "/" +:+ u) with (String "/" u). cbn [segments_from].
    change (Ascii.eqb "/" "/") with true. reflexivity.
  - change (String c a +:+ "/" +:+ u) with (String c (a +:+ "/" +:+ u)).
    cbn [segments_from].
    destruct (Ascii.eqb c "/"); rewrite IH; [now rewrite app_assoc|reflexivity].
Qed.

Lemma segments_app (a u : string) :
  segments (a +:+ "/" +:+ u) = segments a ++ segments u.
Proof. apply segments_from_app. Qed.

Lemma segments_slash (q : string) : segments ("/" +:+ q) = segments q.
Proof. reflexivity. Qed.

Lemma ups_segments (r : string) :
  ups r -> exists n : nat, segments r = repeat ".." (S n).
Proof.
  induction 1 as [|r _ (n & IH)]; [now exists 0%nat|].
  exists (S n). change (r +:+ "/..") with (r +:+ "/" +:+ "..").
  rewrite segments_app, IH. change (segments "..") with [".."].
  now rewrite <- repeat_cons.
Qed.

(** The segments of a canonical text: first those that climb, then
    none. *)
Lemma canon_segments (allow : bool) (q : string) :
  canon allow q ->
  segments q <> []
  /\ exists (n : nat) (ns : list string),
       segments q = repeat ".." n ++ ns
       /\ Forall (fun s => s <> "..") ns.
Proof.
  induction 1 as [r _ Hu|s Hs|r s _ (_ & n & ns & IH & Hns) Hs].
  - destruct (ups_segments r Hu) as (n & ->). split; [discriminate|].
    exists (S n), []. now rewrite app_nil_r.
  - assert (E : segments s = [s]).
    { destruct Hs as (H0 & H1 & _). unfold segments.
      rewrite segments_from_plain by assumption. change ("" +:+ s) with s.
      apply String.eqb_neq in H0. now rewrite H0. }
    rewrite E. split; [discriminate|]. exists 0%nat, [s]. split; [reflexivity|].
    constructor; [apply Hs|constructor].
  - assert (E : segments s = [s]).
    { destruct Hs as (H0 & H1 & _). unfold segments.
      rewrite segments_from_plain by assumption. change ("" +:+ s) with s.
      apply String.eqb_neq in H0. now rewrite H0. }
    rewrite segments_app, E, IH. split.
    + intros H. apply app_eq_nil in H as [_ H]. discriminate H.
    + exists n, (ns ++ [s]). split; [now rewrite app_assoc|].
      apply Forall_app. split; [exact Hns|].
      constructor; [apply Hs|constructor].
Qed.

Lemma key_segments (k : string) :
  fs.key k = k ->
  exists (n : nat) (ns : list string),
    segments k = repeat ".." n ++ ns /\ Forall (fun s => s <> "..") ns.
Proof.
  intros H.
  destruct (key_fixed_shape k H) as [->|[->|(isAbs & q & Hc & ->)]].
  - now exists 0%nat, [].
  - exists 0%nat, ["."]. split; [reflexivity|].
    constructor; [discriminate|constructor].
  - destruct (canon_segments _ _ Hc) as (_ & n & ns & Hq & Hns).
    exists n, ns. split; [|exact Hns].
    destruct isAbs; [now rewrite segments_slash|exact Hq].
Qed.

(** In a walk that climbs first, what follows a step that does not climb
    never climbs. *)
Lemma climb_first_split (n : nat) (ns sd su : list string) :
  repeat ".." n ++ ns = sd ++ su ->
  Forall (fun s => s <> "..") ns ->
  sd <> [] -> last sd <> Some ".." ->
  Forall (fun s => s <> "..") su.
Proof.
  revert sd. induction n as [|n IH]; intros sd H Hns Hne Hl.
  - simpl in H. subst ns. now apply Forall_app in Hns.
  - destruct sd as [|x [|y sd]]; [contradiction| |].
    + simpl in H. injection H as <- _. contradiction.
    + simpl in H. injection H as _ H.
      apply (IH (y :: sd)); auto.
Qed.

Lemma below_app (rs xs : list string) :
  descends xs = true -> below rs (rs ++ xs) = true.
Proof.
  intros H. induction rs as [|r rs IH]; simpl; [now destruct xs|].
  now rewrite String.eqb_refl.
Qed.

Lemma descends_filter (f : string -> bool) (l : list string) :
  Forall (fun s => s <> "..") l -> descends (List.filter f l) = true.
Proof.
  induction 1 as [|x l Hx _ IH]; [reflexivity|]. simpl.
  destruct (f x); [|exact IH]. simpl.
  apply String.eqb_neq in Hx. now rewrite Hx.
Qed.

Lemma prefix_slash_app (d t : string) :
  d <> "" -> String.prefix "/" (d +:+ t) = String.prefix "/" d.
Proof.
  intros H. destruct d as [|a d]; [contradiction|].
  change (String a d +:+ t) with (String a (d +:+ t)). cbn [String.prefix].
  assert (P : forall s : string, String.prefix "" s = true)
    by (now intros []).
  destruct (Ascii.ascii_dec "/" a); [now rewrite !P|reflexivity].
Qed.

(** X9: for a storage root spelled in normal form with a trailing separator
    whose last segment is not [..] (such as [/tmp/uploads/] or
    [../uploads/], but not [../]), the guard of [getFileMetadata] and
    [downloadFile] is sound: whenever [path.join(root, name)] starts with
    the root, it denotes the root directory or something below it. *)
Theorem guard_sound_for_slash_root (root fileName : string) :
  path.normalize root = root ->
  path.trailingSeparator root = true ->
  last (segments (fs.key root)) <> Some ".." ->
  JS.startsWith (path.join [root; fileName]) root = true ->
  within (fs.key root) (path.join [root; fileName]) = true.
Proof.
  intros Hn Ht Hlast Hg. unfold JS.startsWith in Hg.
  pose proof (join_normalized [root; fileName]) as Hj.
  set (filePath := path.join [root; fileName]) in *.
  destruct (prefix_split _ _ Hg) as (rest & Hfp).
  destruct (normal_root_cases root Hn)
    as [->|[->|[->|(isAbs & q & Hc & Hk & [E|E])]]].
  - (* "/" *)
    reflexivity.
  - discriminate Ht.
  - (* "./" *)
    destruct (join_shape ["./"; fileName]) as [E|[E|E]]; fold filePath in E.
    + rewrite E in Hg. discriminate Hg.
    + rewrite E. reflexivity.
    + rewrite Hfp in E. discriminate E.
  - rewrite E in Ht. rewrite trailingSeparator_last, Hk, last_is_sep_app in Ht
      by (now apply canon_nonempty in Hc).
    rewrite (canon_tail _ _ Hc) in Ht. discriminate Ht.
  - destruct (canon_key_proper isAbs q Hc) as (H0 & H1 & H2).
    destruct (canon_segments _ _ Hc) as (Hq & _).
    rewrite <- Hk in H0, H1, H2.
    assert (HD : segments (fs.key root) <> []).
    { rewrite Hk. destruct isAbs; [now rewrite segments_slash|exact Hq]. }
    set (D := fs.key root) in *.
    assert (HK : exists (t : string) (su : list string),
               fs.key filePath = D +:+ t
               /\ segments (D +:+ t) = segments D ++ su).
    { rewrite Hfp, E, append_assoc in Hj |- *.
      destruct (key_trim D ("/" +:+ rest)) as [->|[(t' & Et & ->)|(Et & _)]];
        auto; try discriminate Et.
      - exists ("/" +:+ rest), (segments rest). split; [reflexivity|].
        apply segments_app.
      - destruct t' as [|a t'].
        + exists "", []. now rewrite append_nil_r, app_nil_r.
        + injection Et as <- Et. exists (String "/" t'), (segments t').
          split; [reflexivity|]. apply (segments_app D t'). }
    destruct HK as (t & su & HK & Hseg).
    destruct (key_segments (fs.key filePath) (key_idempotent filePath))
      as (n & ns & HKs & Hns).
    assert (Hdown : Forall (fun s => s <> "..") su).
    { apply (climb_first_split n ns (segments D) su); auto.
      now rewrite <- HKs, HK. }
    unfold within. cbv zeta. rewrite HK, (prefix_slash_app D t H0).
    unfold parts. rewrite Hseg, List.filter_app.
    rewrite below_app by now apply descends_filter.
    destruct (String.prefix "/" D); [|reflexivity].
    now destruct (List.filter _ (segments D)).
Qed.

Lemma guard_sound_for_slash_root_witness :
  JS.startsWith (path.join ["/tmp/uploads/"; "reports/../a.csv"])
                "/tmp/uploads/" = true
  /\ within "/tmp/uploads" (path.join ["/tmp/uploads/"; "reports/../a.csv"])
     = true.
Proof.
  split; [reflexivity|].
  apply (guard_sound_for_slash_root "/tmp/uploads/" "reports/../a.csv");
    [reflexivity|reflexivity|vm_compute; discriminate|reflexivity].
Defined.

(** A root spelled in normal form and not led by [.] is a prefix of the
    path of each of its children. *)
Lemma guard_passes (root b : string) :
  path.normalize root = root -> dot_led root = false -> normal b ->
  JS.startsWith (path.join [root; b]) root = true.
Proof.
  intros Hn Hd Hb.
  assert (Hne : root <> "") by (intros ->; discriminate Hn).
  rewrite (join_child_of root b Hne Hb). unfold JS.startsWith, child_of.
  destruct (normal_root_cases root Hn)
    as [->|[->|[->|(isAbs & q & Hc & Hk & E)]]]; try discriminate Hd.
  - change (fs.key "/") with "/". now destruct b.
  - destruct (canon_key_proper isAbs q Hc) as (H0 & H1 & H2).
    rewrite <- Hk in H0, H1, H2. apply String.eqb_neq in H1, H2.
    rewrite H1, H2. destruct E as [E|E]; rewrite E at 1.
    + apply prefix_app.
    + rewrite <- append_assoc. apply prefix_app.
Qed.

(** X10: a stored upload can be fetched, when the storage root is spelled in
    normal form and not led by [.] (such as [/app/uploads] or
    [/tmp/uploads/]).  After [handleUpload] has answered 200,
    [getFileMetadata] for the name [savedAs] answers 200 with exactly
    [{success: true, file}], the descriptor bearing the byte length of the
    uploaded data and the times the file system gave the stored file, and
    [downloadFile] sends the file at the stored path, which holds the
    uploaded bytes. *)
Theorem upload_then_fetch (root : string) (req : request) (f : multer.file)
        (w : world) (d : string) (b m : Z) :
  let name := savedAs (fs.clock w) f in
  let filePath := path.join [root; name] in
  path.normalize root = root -> dot_led root = false ->
  file req = Some f ->
  JS.endsWith (multer.originalname f) ".csv" = true ->
  no_sep (multer.originalname f) = true ->
  0 <= fs.clock w ->
  fs.entry (multer.path f) w = Some (fs.File d b m) ->
  is_dir (fs.entry root w) = true ->
  is_dir (fs.disk w !! filePath) = false ->
  fs.key (multer.path f) <> filePath ->
  hd false (fs.io_errors w) = false ->
  hd false (tl (fs.io_errors w)) = false ->
  exists (r : response) (w' : world) (b' m' : Z),
    handleUpload root req w = (Return r, w')
    /\ member "savedAs" r = Some (JStr name)
    /\ getFileMetadata root name w'
       = (Return (Answer 200
                    (JObj [("success", JBool true);
                           ("file", describe name filePath
                                      {| fs.size := JS.len d;
                                         fs.birthtime := b';
                                         fs.mtime := m' |})])), w')
    /\ downloadFile root name w' = (Return (Download filePath), w')
    /\ fs.entry filePath w' = Some (fs.File d b' m').
Proof.
  intros name filePath Hn Hdot Hf Hcsv Hsep Hclock Htemp Hroot Hdest Hdiff
         Hio1 Hio2.
  destruct (is_dir_entry root w Hroot) as (Hne & Hrd).
  destruct (stored_name_plain (fs.clock w) (multer.originalname f) Hclock Hsep)
    as (c & s & Hname & Hc & Hs).
  fold (savedAs (fs.clock w) f) in Hname. fold name in Hname.
  destruct (stored_path root c s Hne Hc Hs) as (Hp0 & Htr & Hkey & Hdn & Hbn).
  pose proof (guard_passes root (String c s) Hn Hdot
                (plain_name_normal c s Hc Hs)) as Hguard.
  rewrite <- Hname in Hp0, Htr, Hkey, Hdn, Hbn, Hguard.
  fold filePath in Hp0, Htr, Hkey, Hdn, Hbn, Hguard.
  destruct (handleUpload_run root req f w d b m Hf Hcsv Htemp Hio1 Hio2)
    as (b' & Hrun).
  { exact Hp0. } { exact Htr. }
  { fold (savedAs (fs.clock w) f). fold name filePath. now rewrite Hkey, Hdn. }
  { fold (savedAs (fs.clock w) f). fold name filePath. now rewrite Hkey. }
  { fold (savedAs (fs.clock w) f). fold name filePath. now rewrite Hkey. }
  fold (savedAs (fs.clock w) f) in Hrun. fold name filePath in Hrun.
  rewrite Hkey in Hrun.
  set (m' := (fs.io_time w).1) in Hrun.
  set (w' := with_disk _ _) in Hrun.
  assert (Hstored : fs.entry filePath w' = Some (fs.File d b' m')).
  { unfold fs.entry. apply String.eqb_neq in Hp0. rewrite Hp0, Hkey.
    unfold w'. simpl fs.disk. rewrite lookup_delete_ne by assumption.
    now rewrite lookup_insert_eq, Htr. }
  eexists _, w', b', m'. split; [exact Hrun|]. split; [reflexivity|].
  split; [|split; [|exact Hstored]].
  - unfold getFileMetadata, try_catch. fold filePath. rewrite Hguard.
    cbn [negb]. unfold mbind, M_bind, fs.existsSync, fs.statSync.
    rewrite Hstored, bool_decide_eq_true_2 by eauto.
    cbn [negb]. cbv beta iota. rewrite Hstored. reflexivity.
  - unfold downloadFile, try_catch. fold filePath. rewrite Hguard.
    cbn [negb]. unfold mbind, M_bind, fs.existsSync.
    rewrite Hstored, bool_decide_eq_true_2 by eauto. reflexivity.
Qed.

Lemma upload_then_fetch_witness :
  exists (r : response) (w' : world) (b' m' : Z),
    handleUpload "uploads" csv_upload csv_world = (Return r, w')
    /\ downloadFile "uploads" "1705324245123-sales.csv" w'
       = (Return (Download "uploads/1705324245123-sales.csv"), w')
    /\ fs.entry "uploads/1705324245123-sales.csv" w'
       = Some (fs.File "a,b 1,2" b' m').
Proof.
  destruct (upload_then_fetch "uploads" csv_upload csv_part csv_world
              "a,b 1,2" 1705324245000 1705324245000)
    as (r & w' & b' & m' & H1 & _ & _ & H2 & H3).
  - reflexivity.
  - reflexivity.
  - reflexivity.
  - vm_compute; reflexivity.
  - vm_compute; reflexivity.
  - vm_compute; discriminate.
  - vm_compute; reflexivity.
  - vm_compute; reflexivity.
  - vm_compute; reflexivity.
  - vm_compute; discriminate.
  - reflexivity.
  - reflexivity.
  - exists r, w', b', m'. split; [exact H1|]. split; [exact H2|exact H3].
Defined.

(** ** Two uploads at one instant *)

(** X11: two uploads of one file name collide when the second is handled
    while the clock still reads what it read for the first.  The first is
    answered 200 and stored at [path.join(root, savedAs)]; if the clock
    reads the same when it is done, the second is given the same stored
    name and path, is answered 200 as well, and silently replaces the
    bytes of the first. *)
Theorem same_instant_uploads_collide (root : string) (req1 req2 : request)
        (f1 f2 : multer.file) (w : world) (d1 d2 : string)
        (b1 m1 b2 m2 : Z) :
  let filePath := path.join [root; savedAs (fs.clock w) f1] in
  file req1 = Some f1 -> file req2 = Some f2 ->
  multer.originalname f2 = multer.originalname f1 ->
  JS.endsWith (multer.originalname f1) ".csv" = true ->
  no_sep (multer.originalname f1) = true ->
  0 <= fs.clock w ->
  fs.entry (multer.path f1) w = Some (fs.File d1 b1 m1) ->
  fs.entry (multer.path f2) w = Some (fs.File d2 b2 m2) ->
  fs.key (multer.path f1) <> fs.key (multer.path f2) ->
  is_dir (fs.entry root w) = true ->
  is_dir (fs.disk w !! filePath) = false ->
  fs.key (multer.path f1) <> filePath ->
  fs.key (multer.path f2) <> filePath ->
  forallb negb (firstn 4 (fs.io_errors w)) = true ->
  exists (w1 : world) (b' m' : Z),
    handleUpload root req1 w
    = (Return (Answer 200
                 (JObj [("success", JBool true);
                        ("message", JStr "File uploaded successfully");
                        ("fileName", JStr (multer.originalname f1));
                        ("savedAs", JStr (savedAs (fs.clock w) f1));
                        ("size", JNum (multer.size f1));
                        ("path", JStr filePath);
                        ("uploadedAt", JTime (fs.clock w1))])), w1)
    /\ fs.entry filePath w1 = Some (fs.File d1 b' m')
    /\ (fs.clock w1 = fs.clock w ->
        exists (w2 : world) (b'' m'' : Z),
          handleUpload root req2 w1
          = (Return (Answer 200
                       (JObj [("success", JBool true);
                              ("message", JStr "File uploaded successfully");
                              ("fileName", JStr (multer.originalname f2));
                              ("savedAs", JStr (savedAs (fs.clock w) f1));
                              ("size", JNum (multer.size f2));
                              ("path", JStr filePath);
                              ("uploadedAt", JTime (fs.clock w2))])), w2)
          /\ fs.entry filePath w2 = Some (fs.File d2 b'' m'')).
Proof.
  intros filePath Hf1 Hf2 Hsame Hcsv Hsep Hclock Ht1 Ht2 Hk12 Hroot Hdest
         Hk1 Hk2 Hio.
  assert (Hio' : hd false (fs.io_errors w) = false
                 /\ hd false (tl (fs.io_errors w)) = false
                 /\ hd false (tl (tl (fs.io_errors w))) = false
                 /\ hd false (tl (tl (tl (fs.io_errors w)))) = false).
  { destruct (fs.io_errors w) as [|[] [|[] [|[] [|[] l]]]]; simpl in Hio;
      try discriminate; auto. }
  destruct Hio' as (Hio1 & Hio2 & Hio3 & Hio4).
  destruct (is_dir_entry root w Hroot) as (Hne & Hrd).
  destruct (stored_name_plain (fs.clock w) (multer.originalname f1) Hclock Hsep)
    as (c & s & Hname & Hc & Hs).
  fold (savedAs (fs.clock w) f1) in Hname.
  destruct (stored_path root c s Hne Hc Hs) as (Hp0 & Htr & Hkey & Hdn & Hbn).
  rewrite <- Hname in Hp0, Htr, Hkey, Hdn.
  fold filePath in Hp0, Htr, Hkey, Hdn.
  assert (Hs2 : savedAs (fs.clock w) f2 = savedAs (fs.clock w) f1)
    by (unfold savedAs; now rewrite Hsame).
  destruct (handleUpload_run root req1 f1 w d1 b1 m1 Hf1 Hcsv Ht1 Hio1 Hio2)
    as (b' & Hrun1).
  { exact Hp0. } { exact Htr. }
  { fold (savedAs (fs.clock w) f1). fold filePath. now rewrite Hkey, Hdn. }
  { fold (savedAs (fs.clock w) f1). fold filePath. now rewrite Hkey. }
  { fold (savedAs (fs.clock w) f1). fold filePath. now rewrite Hkey. }
  fold (savedAs (fs.clock w) f1) in Hrun1. fold filePath in Hrun1.
  rewrite Hkey in Hrun1.
  set (m' := (fs.io_time w).1) in Hrun1.
  set (w1 := with_disk _ _) in Hrun1.
  assert (Hroot1 : fs.key (multer.path f1) <> fs.key root).
  { intros E. unfold fs.entry in Ht1.
    destruct (String.eqb (multer.path f1) ""); [discriminate|].
    rewrite E in Ht1.
    destruct (fs.disk w !! fs.key root) as [[]|]; discriminate. }
  assert (Hrootk : fs.key root <> filePath).
  { intros E. rewrite E in Hrd. rewrite Hrd in Hdest. discriminate. }
  assert (Hstored : fs.disk w1 !! filePath = Some (fs.File d1 b' m')).
  { unfold w1. simpl fs.disk. rewrite lookup_delete_ne by assumption.
    apply lookup_insert_eq. }
  assert (Ht2' : fs.entry (multer.path f2) w1 = Some (fs.File d2 b2 m2)).
  { unfold fs.entry in *. destruct (String.eqb (multer.path f2) "");
      [discriminate|].
    unfold w1. simpl fs.disk.
    rewrite lookup_delete_ne, lookup_insert_ne by auto. exact Ht2. }
  assert (Hentry : forall (w0 : world) (n : fs.node),
             fs.disk w0 !! filePath = Some n ->
             is_file (Some n) = true -> fs.entry filePath w0 = Some n).
  { intros w0 n Hl Hn. unfold fs.entry. apply String.eqb_neq in Hp0.
    rewrite Hp0, Hkey, Hl, Htr. now destruct n. }
  exists w1, b', m'. split; [exact Hrun1|].
  split; [now apply Hentry|]. intros Hck.
  destruct (handleUpload_run root req2 f2 w1 d2 b2 m2 Hf2) as (b'' & Hrun2);
    try assumption.
  { now rewrite Hsame. }
  { rewrite Hck. fold (savedAs (fs.clock w) f2). rewrite Hs2. exact Hp0. }
  { rewrite Hck. fold (savedAs (fs.clock w) f2). rewrite Hs2. exact Htr. }
  { rewrite Hck. fold (savedAs (fs.clock w) f2).
    rewrite Hs2. fold filePath. rewrite Hkey, Hdn. unfold w1. simpl fs.disk.
    rewrite lookup_delete_ne, lookup_insert_ne by auto. exact Hrd. }
  { rewrite Hck. fold (savedAs (fs.clock w) f2).
    rewrite Hs2. fold filePath. rewrite Hkey, Hstored. reflexivity. }
  { rewrite Hck. fold (savedAs (fs.clock w) f2).
    rewrite Hs2. fold filePath. now rewrite Hkey. }
  rewrite Hck in Hrun2.
  fold (savedAs (fs.clock w) f2) in Hrun2. rewrite Hs2 in Hrun2.
  fold filePath in Hrun2. rewrite Hkey in Hrun2.
  set (m'' := (fs.io_time w1).1) in Hrun2.
  set (w2 := with_disk _ _) in Hrun2.
  exists w2, b'', m''. split; [exact Hrun2|].
  apply Hentry; [|reflexivity].
  unfold w2. simpl fs.disk.
  rewrite lookup_delete_ne by assumption. apply lookup_insert_eq.
Qed.

Lemma same_instant_uploads_collide_witness :
  exists (w1 w2 : world) (b' m' b'' m'' : Z),
    (handleUpload "uploads" csv_upload twin_world).2 = w1
    /\ answered (handleUpload "uploads" csv_upload twin_world) = Some 200
    /\ fs.entry "uploads/1705324245123-sales.csv" w1
       = Some (fs.File "a,b 1,2" b' m')
    /\ (handleUpload "uploads" twin_upload w1).2 = w2
    /\ answered (handleUpload "uploads" twin_upload w1) = Some 200
    /\ fs.entry "uploads/1705324245123-sales.csv" w2
       = Some (fs.File "x,y 8,9" b'' m'').
Proof.
  destruct (same_instant_uploads_collide "uploads" csv_upload twin_upload
              csv_part twin_part twin_world "a,b 1,2" "x,y 8,9"
              1705324245000 1705324245000 1705324245001 1705324245001)
    as (w1 & b' & m' & H1 & H2 & H3).
  - reflexivity.
  - reflexivity.
  - reflexivity.
  - vm_compute; reflexivity.
  - vm_compute; reflexivity.
  - vm_compute; discriminate.
  - vm_compute; reflexivity.
  - vm_compute; reflexivity.
  - vm_compute; discriminate.
  - vm_compute; reflexivity.
  - vm_compute; reflexivity.
  - vm_compute; discriminate.
  - vm_compute; discriminate.
  - reflexivity.
  - assert (Hck : fs.clock w1 = fs.clock twin_world).
    { pose proof (f_equal (fun run => fs.clock run.2) H1) as E.
      cbv beta in E. simpl snd in E. rewrite <- E. vm_compute. reflexivity. }
    destruct (H3 Hck) as (w2 & b'' & m'' & H4 & H5).
    exists w1, w2, b', m', b'', m''. rewrite H1, H4. auto 10.
Defined.

(** ** The Upload Client: what it sends *)

Lemma acceptable_pending_choose (files : list Client.File) (u : Client.ui) :
  (forall f, Client.selectedFile u = Some f -> acceptable f = true) ->
  forall f, Client.selectedFile (Client.handleFileDrop files u) = Some f ->
            acceptable f = true.
Proof.
  intros H f. unfold Client.handleFileDrop.
  destruct files as [|file rest]; [apply H|].
  destruct (JS.endsWith (Client.name file) ".csv") eqn:E1; cbn [negb];
    [|apply H].
  destruct (100 * 1024 * 1024 <? Client.size file)%N eqn:E2; [apply H|].
  simpl. intros [= <-]. unfold acceptable. rewrite E1. simpl.
  apply N.ltb_ge in E2. apply N.leb_le. exact E2.
Qed.

Lemma act_pending (API_URL : string) (u : Client.ui) (a : action) :
  (forall f, Client.selectedFile u = Some f -> acceptable f = true) ->
  forall f, Client.selectedFile (act API_URL u a) = Some f ->
            acceptable f = true.
Proof.
  intros H f. destruct a as [files| |throws| |e]; cbn [act].
  - now apply acceptable_pending_choose.
  - discriminate.
  - unfold Client.uploadFile.
    destruct (Client.selectedFile u) eqn:E; [|simpl; rewrite E; apply H].
    destruct throws; simpl; rewrite E; apply H.
  - apply H.
  - destruct e as [lc loaded total|status text|]; cbn [Client.listen].
    + destruct lc; apply H.
    + unfold Client.on_load. destruct (status =? 200).
      * destruct (JSON.valid text); [discriminate|apply H].
      * apply H.
    + apply H.
Qed.

Lemma act_sent (API_URL : string) (u : Client.ui) (a : action) :
  (forall f, Client.selectedFile u = Some f -> acceptable f = true) ->
  forallb checked_call (Client.sent u) = true ->
  forallb checked_call (Client.sent (act API_URL u a)) = true.
Proof.
  intros H Hs. destruct a as [files| |throws| |e]; cbn [act].
  - unfold Client.handleFileDrop. destruct files as [|file rest]; [exact Hs|].
    repeat case_match; exact Hs.
  - exact Hs.
  - unfold Client.uploadFile.
    destruct (Client.selectedFile u) as [f|] eqn:E; [|exact Hs].
    destruct throws; [exact Hs|]. simpl.
    rewrite forallb_app, Hs. simpl. unfold checked_call. simpl.
    now rewrite (H f eq_refl).
  - simpl. rewrite forallb_app, Hs. reflexivity.
  - destruct e as [lc loaded total|status text|]; cbn [Client.listen].
    + destruct lc; exact Hs.
    + unfold Client.on_load. destruct (status =? 200); [|exact Hs].
      destruct (JSON.valid text); [|exact Hs].
      simpl. rewrite forallb_app, Hs. reflexivity.
    + exact Hs.
Qed.

(** X12: whatever the user does and whatever the upload request reports, in
    any order, the file pending on the page (if any) has passed the checks
    of [handleFileDrop] (name ending in [.csv], at most 100 MiB), and every
    upload the page has sent carries exactly one such file under the field
    name [csv]. *)
Theorem page_sends_only_checked_files (API_URL : string)
        (actions : list action) :
  let u := fold_left (act API_URL) actions Client.page in
  match Client.selectedFile u with
  | Some f => acceptable f = true
  | None => True
  end
  /\ forallb checked_call (Client.sent u) = true.
Proof.
  cbv zeta.
  assert (G : forall u0 : Client.ui,
             (forall f, Client.selectedFile u0 = Some f -> acceptable f = true)
             -> forallb checked_call (Client.sent u0) = true ->
             (forall f, Client.selectedFile (fold_left (act API_URL) actions u0)
                        = Some f -> acceptable f = true)
             /\ forallb checked_call
                  (Client.sent (fold_left (act API_URL) actions u0)) = true).
  { induction actions as [|a actions IH]; intros u0 H1 H2; [auto|].
    cbn [fold_left]. apply IH.
    - now apply act_pending.
    - now apply act_sent. }
  destruct (G Client.page) as (H1 & H2); [discriminate|reflexivity|].
  split; [|exact H2].
  destruct (Client.selectedFile _) as [f|] eqn:E; [now apply H1|exact I].
Qed.

(** X13: the upload button does not stay disabled while an upload is in
    flight: choosing an acceptable file after [uploadFile] has sent the
    request enables the button again, and a second click sends a second
    upload while the first is still pending. *)
Theorem upload_in_flight_does_not_block (API_URL : string) (u : Client.ui)
        (first next : Client.File) :
  Client.selectedFile u = Some first ->
  acceptable next = true ->
  let u1 := Client.uploadFile API_URL false u in
  let u2 := Client.handleFileDrop [next] u1 in
  let u3 := Client.uploadFile API_URL false u2 in
  Client.uploadBtn_disabled u1 = true
  /\ Client.uploadBtn_disabled u2 = false
  /\ Client.sent u3
     = Client.sent u
       ++ [ {| Client.call_method := POST; Client.call_origin := API_URL;
               Client.call_path := "/uploads3";
               Client.call_form := [("csv", first)] |};
            {| Client.call_method := POST; Client.call_origin := API_URL;
               Client.call_path := "/uploads3";
               Client.call_form := [("csv", next)] |} ].
Proof.
  intros Hsel Hacc. unfold acceptable in Hacc.
  apply andb_true_iff in Hacc as (H1 & H2). apply N.leb_le in H2.
  cbv zeta. unfold Client.uploadFile at 1 2 4. rewrite Hsel.
  unfold Client.handleFileDrop. rewrite H1. cbn [negb].
  assert (H3 : (100 * 1024 * 1024 <? Client.size next)%N = false)
    by (apply N.ltb_ge; exact H2).
  rewrite H3. split; [reflexivity|]. split; [reflexivity|].
  unfold Client.uploadFile. simpl. now rewrite <- app_assoc.
Qed.

Lemma upload_in_flight_does_not_block_witness :
  let u1 := Client.uploadFile "http://localhost:3000" false
              (Client.handleFileDrop [sales_csv] Client.page) in
  let u2 := Client.handleFileDrop [sales_csv] u1 in
  Client.uploadBtn_disabled u1 = true
  /\ Client.uploadBtn_disabled u2 = false
  /\ length (Client.sent (Client.uploadFile "http://localhost:3000" false u2))
     = 2%nat.
Proof.
  destruct (upload_in_flight_does_not_block "http://localhost:3000"
              (Client.handleFileDrop [sales_csv] Client.page)
              sales_csv sales_csv) as (H1 & H2 & H3).
  - reflexivity.
  - reflexivity.
  - cbv zeta. split; [exact H1|]. split; [exact H2|]. now rewrite H3.
Defined.

(** ** The Upload Client: the file list, delete, health and download *)

Lemma appendRows_returns (renders : Page.value -> bool)
      (files rows rows' : list Page.value) :
  Page.appendRows renders files rows = (Return tt, rows') ->
  rows' = rows ++ files /\ forallb renders files = true.
Proof.
  revert rows. induction files as [|file rest IH]; intros rows; simpl.
  - intros [= <-]. now rewrite app_nil_r.
  - destruct (renders file); [|discriminate].
    intros H. destruct (IH _ H) as (-> & ->).
    now rewrite <- app_assoc.
Qed.

(** X14: however the request for the list settles (rejected, unreadable
    body, any status, any JSON body) and whether or not the rows can be
    built, [loadFiles] ends with the loading indicator hidden and exactly
    one of the file table and the empty-state placeholder visible.  The
    table is visible only after an ok response whose body has a true
    [success] and a non-empty [files] array, and its rows are then built
    from exactly the entries of that array, rows of an earlier list being
    dropped. *)
Theorem loadFiles_settles (API_URL : string) (renders : Page.value -> bool)
        (r : Page.fetched Page.value) (p : Page.dom) :
  let p' := Page.loadFiles_settled renders r (Page.loadFiles API_URL p) in
  Client.loadingState_hidden (Page.ui p') = true
  /\ Client.filesContainer_hidden (Page.ui p')
     = negb (Client.emptyState_hidden (Page.ui p'))
  /\ (Client.filesContainer_hidden (Page.ui p') = false ->
      exists (status : Z) (data : Page.value) (items : list Page.value),
        r = Page.replied status (Some data)
        /\ Page.ok status = true
        /\ Page.truthy (Page.prop "success" data) = true
        /\ Page.prop "files" data = Some (Page.Arr items)
        /\ items <> []
        /\ forallb renders items = true
        /\ Page.filesTbody p' = items
        /\ Client.toast (Page.ui p') = Client.toast (Page.ui p)).
Proof.
  cbv zeta. unfold Page.loadFiles_settled.
  destruct r as [|status [data|]]; try (repeat split; discriminate).
  destruct (Page.ok status) eqn:Hok; [|repeat split; discriminate].
  destruct (Page.truthy (Page.prop "success" data)) eqn:Hs.
  2:{ destruct data; repeat split; discriminate. }
  destruct data as [|b|n|s|items0|fields] eqn:Hd;
    [cbn in Hs; discriminate Hs|rewrite <- Hd in *; clear Hd..].
  all: cbv zeta.
  all: destruct (Page.length_is_0 (Page.files_of data)) eqn:Hl;
    [repeat split; discriminate|].
  all: unfold Page.displayFiles.
  all: destruct (Page.files_of data) as [| | | |items|] eqn:Hf;
    try (repeat split; discriminate).
  all: destruct (Page.appendRows renders items []) as [[[]|e] rows] eqn:Ha;
    [|repeat split; discriminate].
  all: apply appendRows_returns in Ha as (-> & Hr).
  all: split; [reflexivity|]; split; [reflexivity|]; intros _.
  all: exists status, data, items; repeat split; auto.
  all: try (intros ->; discriminate Hl).
  all: unfold Page.files_of in Hf.
  all: destruct (Page.prop "files" data) as [v|]; [|now injection Hf as <-].
  all: destruct (Page.truthy (Some v)); [now subst v|].
  all: now injection Hf as <-.
Qed.

Lemma loadFiles_settles_witness :
  let p' := Page.loadFiles_settled (fun _ => true)
              (Page.replied 200 (Some one_file_list))
              (Page.loadFiles "http://localhost:3000" Page.loaded) in
  Client.loadingState_hidden (Page.ui p') = true
  /\ Client.filesContainer_hidden (Page.ui p') = false
  /\ Client.emptyState_hidden (Page.ui p') = true
  /\ length (Page.filesTbody p') = 1%nat.
Proof.
  destruct (loadFiles_settles "http://localhost:3000" (fun _ => true)
              (Page.replied 200 (Some one_file_list)) Page.loaded)
    as (H1 & H2 & H3).
  destruct H3 as (status & data & items & Hr & _ & _ & Hf & _ & _ & Hrows & _);
    [reflexivity|].
  cbv zeta. split; [exact H1|]. split; [reflexivity|]. split; [reflexivity|].
  rewrite Hrows. injection Hr as _ <-. now injection Hf as <-.
Defined.

(** X15: the delete button cannot succeed against this service.  After
    [confirmDelete], a click on the dialog's confirm button closes the
    dialog and sends one DELETE request for the name; the route table
    answers it 404, whatever the name, the storage root and the disk, and
    the disk stays as it is; on that answer the page shows "Delete failed",
    sends nothing more and keeps the rows of the list. *)
Theorem delete_button_always_fails (API_URL root fileName : string)
        (params : list string) (part : option multer.file) (w : world)
        (p : Page.dom) :
  let c := {| Client.call_method := DELETE; Client.call_origin := API_URL;
              Client.call_path :=
                "/delete/" +:+ Page.encodeURIComponent fileName;
              Client.call_form := [] |} in
  let p0 := Page.confirmDelete fileName p in
  let p1 := Page.click_modalConfirm API_URL p0 in
  Page.modal_hidden p0 = false
  /\ Client.sent (Page.ui p1) = Client.sent (Page.ui p) ++ [c]
  /\ Page.modal_hidden p1 = true
  /\ (exists v : json,
         app root {| method := Client.call_method c;
                     path := Client.call_path c;
                     url := params; file := part |} w
         = (Return (Answer 404 v), w))
  /\ forall body : option unit,
       let p2 := Page.deleteFile_settled API_URL (Page.replied 404 body) p1 in
       Client.toast (Page.ui p2) = Some ("Delete failed", "error")
       /\ Client.sent (Page.ui p2) = Client.sent (Page.ui p1)
       /\ Page.filesTbody p2 = Page.filesTbody p.
Proof.
  cbv zeta. split; [reflexivity|]. split; [reflexivity|].
  split; [reflexivity|]. split.
  - rewrite delete_unrouted by reflexivity. eexists. reflexivity.
  - intros body. repeat split.
Qed.

(** X16: the status indicator against this service.  The request
    [checkHealth] sends reaches the health route, which answers 200 on
    every disk; on that answer the page shows "Connected", and when the
    request fails it shows "Disconnected". *)
Theorem checkHealth_against_service (API_URL root : string) (w : world)
        (p : Page.dom) :
  let c := {| Client.call_method := GET; Client.call_origin := API_URL;
              Client.call_path := "/health"; Client.call_form := [] |} in
  let p1 := Page.checkHealth API_URL p in
  Client.sent (Page.ui p1) = Client.sent (Page.ui p) ++ [c]
  /\ (exists v : json,
         app root (request_of c None) w = (Return (Answer 200 v), w))
  /\ (forall body : option unit,
         let p2 := Page.checkHealth_settled (Page.replied 200 body) p1 in
         Page.statusText p2 = "Connected"
         /\ Page.statusDot p2 = Page.statusDot p ++ ["connected"])
  /\ (let p2 := Page.checkHealth_settled Page.rejected p1 in
      Page.statusText p2 = "Disconnected"
      /\ Page.statusDot p2 = Page.statusDot p ++ ["error"]).
Proof.
  cbv zeta. split; [reflexivity|]. split; [eexists; reflexivity|].
  split; [intros body|]; split; reflexivity.
Qed.

(** X17: with the default storage root [./uploads] (any root spelled [./...]
    other than [./]), the download button cannot succeed.  Whatever name
    reaches the download route, the service answers 403; on that answer
    the page shows "Download failed" and hands no file to the browser. *)
Theorem download_button_fails_under_default_root
        (API_URL root fileName param : string) (w : world) (p : Page.dom) :
  String.prefix "./" root = true -> root <> "./" ->
  let c := {| Client.call_method := GET; Client.call_origin := API_URL;
              Client.call_path :=
                "/download/" +:+ Page.encodeURIComponent fileName;
              Client.call_form := [] |} in
  let p1 := Page.downloadFile API_URL fileName p in
  Client.sent (Page.ui p1) = Client.sent (Page.ui p) ++ [c]
  /\ (exists v : json,
         app root {| method := Client.call_method c;
                     path := Client.call_path c;
                     url := ["download"; param]; file := None |} w
         = (Return (Answer 403 v), w))
  /\ forall blob : option string,
       let p2 := Page.downloadFile_settled fileName (Page.replied 403 blob) p1 in
       Client.toast (Page.ui p2) = Some ("Download failed", "error")
       /\ Page.saved p2 = Page.saved p.
Proof.
  intros Hp Hr. cbv zeta. split; [reflexivity|]. split.
  - unfold app. cbn [method url Client.call_method].
    change (lit "download" "files") with false.
    change (lit "download" "download") with true. cbv iota.
    rewrite downloadFile_denied
      by (now apply guard_fails_under_dot_slash).
    eexists. reflexivity.
  - intros blob. split; reflexivity.
Qed.

Lemma download_button_fails_under_default_root_witness :
  exists v : json,
    app (LOCAL_UPLOAD_DIR_of None)
        {| method := GET; path := "/download/1705324245123-test1.csv";
           url := ["download"; "1705324245123-test1.csv"]; file := None |}
        stored_world
    = (Return (Answer 403 v), stored_world).
Proof.
  destruct (download_button_fails_under_default_root "http://localhost:3000"
              (LOCAL_UPLOAD_DIR_of None) "1705324245123-test1.csv"
              "1705324245123-test1.csv" stored_world Page.loaded)
    as (_ & H & _).
  - reflexivity.
  - discriminate.
  - exact H.
Defined.

Lemma escapeHtml_cases (c : ascii) (rest : string) :
  Page.escapeHtml (String c rest)
  = (if Ascii.eqb c "&" then "&amp;" else if Ascii.eqb c "<" then "&lt;"
     else "&gt;") +:+ Page.escapeHtml rest
    /\ (Ascii.eqb c "&" || Ascii.eqb c "<" || Ascii.eqb c ">") = true
  \/ (exists rest' : string,
         rest = String (ascii_of_nat 160) rest'
         /\ c = ascii_of_nat 194
         /\ Page.escapeHtml (String c rest) = "&nbsp;" +:+ Page.escapeHtml rest')
  \/ (Page.escapeHtml (String c rest) = String c (Page.escapeHtml rest)
      /\ (Ascii.eqb c "&" || Ascii.eqb c "<" || Ascii.eqb c ">") = false).
Proof.
  cbn [Page.escapeHtml].
  destruct (Ascii.eqb c "&") eqn:E1; [left; auto|].
  destruct (Ascii.eqb c "<") eqn:E2; [left; auto|].
  destruct (Ascii.eqb c ">") eqn:E3; [left; auto|].
  right. destruct rest as [|c' rest']; [right; auto|].
  destruct (Ascii.eqb_spec c (ascii_of_nat 194)) as [->|];
    [|right; auto].
  destruct (Ascii.eqb_spec c' (ascii_of_nat 160)) as [->|];
    [|right; auto].
  left. eauto.
Qed.

(** X18: [escapeHtml] returns markup without [<] and [>], and it leaves
    every apostrophe and double quote of the text in place: the result
    holds as many of each as the text does. *)
Theorem escapeHtml_keeps_quotes (text : string) :
  occurrences "<" (Page.escapeHtml text) = 0%nat
  /\ occurrences ">" (Page.escapeHtml text) = 0%nat
  /\ occurrences "'" (Page.escapeHtml text) = occurrences "'" text
  /\ occurrences JSON.DQUOTE (Page.escapeHtml text)
     = occurrences JSON.DQUOTE text.
Proof.
  remember (String.length text) as n eqn:Hn.
  revert text Hn. induction n as [n IH] using lt_wf_ind. intros text Hn.
  destruct text as [|c rest]; [repeat split|].
  destruct (escapeHtml_cases c rest)
    as [(-> & Hc)|[(rest' & -> & -> & ->)|(-> & Hc)]].
  - destruct (IH (String.length rest)) with (text := rest)
      as (H1 & H2 & H3 & H4); [simpl in Hn; lia|reflexivity|].
    destruct (Ascii.eqb_spec c "&") as [->|];
      [|destruct (Ascii.eqb_spec c "<") as [->|];
        [|destruct (Ascii.eqb_spec c ">") as [->|]; [|discriminate Hc]]];
      cbn; rewrite ?H1, ?H2, ?H3, ?H4; auto.
  - destruct (IH (String.length rest')) with (text := rest')
      as (H1 & H2 & H3 & H4); [simpl in Hn; lia|reflexivity|].
    cbn; rewrite ?H1, ?H2, ?H3, ?H4; auto.
  - destruct (IH (String.length rest)) with (text := rest)
      as (H1 & H2 & H3 & H4); [simpl in Hn; lia|reflexivity|].
    cbn [occurrences]. rewrite H1, H2, H3, H4.
    apply orb_false_iff in Hc as (Hc & Hc3).
    apply orb_false_iff in Hc as (Hc1 & Hc2).
    rewrite Hc2, Hc3. auto.
Qed.

(** ** The Upload Client against the service *)

Lemma appendRows_all (renders : Page.value -> bool)
      (files rows : list Page.value) :
  forallb renders files = true ->
  Page.appendRows renders files rows = (Return tt, rows ++ files).
Proof.
  revert rows. induction files as [|file rest IH]; intros rows H; simpl.
  - now rewrite app_nil_r.
  - simpl in H. apply andb_true_iff in H as (-> & H).
    rewrite IH by assumption. now rewrite <- app_assoc.
Qed.

(** X19: a refresh against this service.  The body [listFiles] writes, read
    by [loadFiles]: when the storage root is not a directory the page shows
    "Failed to load files" and the placeholder; when the directory is empty
    it shows the placeholder and no message; otherwise, the rows being
    built, it shows the table with one row per directory entry, in the
    order of the answer. *)
Theorem refresh_against_service (API_URL root : string)
        (toISOString : Z -> string) (renders : Page.value -> bool)
        (w : world) (p : Page.dom) :
  tidy (fs.disk w) = true ->
  let names := fs.children (fs.key root) (fs.disk w) in
  let rows := map (fun b => parsed toISOString (descriptor root w b)) names in
  exists (status : Z) (body : json),
    listFiles root w = (Return (Answer status body), w)
    /\ let p' := Page.loadFiles_settled renders
                   (Page.replied status (Some (parsed toISOString body)))
                   (Page.loadFiles API_URL p) in
       (is_dir (fs.entry root w) = false ->
        Client.toast (Page.ui p') = Some ("Failed to load files", "error")
        /\ Client.emptyState_hidden (Page.ui p') = false
        /\ Client.filesContainer_hidden (Page.ui p') = true)
       /\ (is_dir (fs.entry root w) = true -> names = [] ->
           Client.toast (Page.ui p') = Client.toast (Page.ui p)
           /\ Client.emptyState_hidden (Page.ui p') = false
           /\ Client.filesContainer_hidden (Page.ui p') = true)
       /\ (is_dir (fs.entry root w) = true -> names <> [] ->
           forallb renders rows = true ->
           Client.toast (Page.ui p') = Client.toast (Page.ui p)
           /\ Client.emptyState_hidden (Page.ui p') = true
           /\ Client.filesContainer_hidden (Page.ui p') = false
           /\ Page.filesTbody p' = rows).
Proof.
  intros Ht names rows.
  destruct (is_dir (fs.entry root w)) eqn:Hd.
  - rewrite (listFiles_run root w Ht Hd). fold names.
    eexists _, _. split; [reflexivity|]. cbv zeta.
    split; [discriminate|].
    unfold Page.loadFiles_settled.
    change (Page.ok 200) with true. cbv iota.
    cbn [parsed map]. cbn [Page.prop Page.own String.eqb Ascii.eqb Bool.eqb].
    cbn [Page.truthy]. cbv iota.
    unfold Page.files_of.
    cbn [Page.prop Page.own String.eqb Ascii.eqb Bool.eqb Page.truthy].
    cbv iota. rewrite map_map. fold rows.
    split.
    + intros _ Hn. unfold rows. rewrite Hn. repeat split.
    + intros _ Hn Hr.
      assert (Hrows : rows <> []).
      { unfold rows. intros E. apply Hn.
        now apply map_eq_nil in E. }
      unfold Page.length_is_0.
      destruct rows as [|r0 rows'] eqn:Er; [contradiction|].
      unfold Page.displayFiles.
      rewrite (appendRows_all renders _ [] Hr). repeat split.
  - destruct (listFiles_fails root w Hd) as (e & ->).
    eexists _, _. split; [reflexivity|]. cbv zeta.
    split; [intros _; repeat split|split; discriminate].
Qed.

Lemma refresh_against_service_witness :
  exists (status : Z) (body : json),
    listFiles "uploads" stored_world
    = (Return (Answer status body), stored_world)
    /\ let p' := Page.loadFiles_settled (fun _ => true)
                   (Page.replied status
                      (Some (parsed (fun _ => "2024-01-15T13:10:45.123Z")
                                    body)))
                   (Page.loadFiles "http://localhost:3000" Page.loaded) in
       Client.filesContainer_hidden (Page.ui p') = false
       /\ length (Page.filesTbody p') = 1%nat.
Proof.
  destruct (refresh_against_service "http://localhost:3000" "uploads"
              (fun _ => "2024-01-15T13:10:45.123Z") (fun _ => true)
              stored_world Page.loaded)
    as (status & body & H1 & H2).
  - vm_compute; reflexivity.
  - exists status, body. split; [exact H1|].
    cbv zeta in H2 |- *. destruct H2 as (_ & _ & H3).
    destruct H3 as (_ & _ & Hc & Hrows).
    + vm_compute; reflexivity.
    + vm_compute; discriminate.
    + vm_compute; reflexivity.
    + split; [exact Hc|]. rewrite Hrows. vm_compute; reflexivity.
Defined.


(** ** From the download button to the stored bytes *)

Lemma unhex_hex (n : nat) :
  (n < 16)%nat -> unhex (Page.hex n) = Some n.
Proof.
  intros H. do 16 (destruct n as [|n]; [reflexivity|]). lia.
Qed.

Lemma hex_no_sep (n : nat) :
  (n < 16)%nat -> Ascii.eqb (Page.hex n) "/" = false.
Proof.
  intros H. do 16 (destruct n as [|n]; [reflexivity|]). lia.
Qed.

Lemma nat_of_ascii_lt (c : ascii) : (nat_of_ascii c < 256)%nat.
Proof. apply nat_ascii_bounded. Qed.

Lemma unreserved_plain (c : ascii) :
  Page.unreserved c = true ->
  Ascii.eqb c "%" = false /\ Ascii.eqb c "/" = false.
Proof.
  intros H. destruct (Ascii.eqb_spec c "%") as [->|]; [discriminate H|].
  destruct (Ascii.eqb_spec c "/") as [->|]; [discriminate H|]. auto.
Qed.

(** What [encodeURIComponent] writes, [decodeURIComponent] reads back. *)
Lemma decode_encode (s : string) :
  decodeURIComponent (Page.encodeURIComponent s) = Some s.
Proof.
  induction s as [|c s IH]; [reflexivity|].
  cbn [Page.encodeURIComponent].
  destruct (Page.unreserved c) eqn:Hu.
  - destruct (unreserved_plain c Hu) as (Hp & _).
    change (String c "" +:+ Page.encodeURIComponent s)
      with (String c (Page.encodeURIComponent s)).
    cbn [decodeURIComponent]. now rewrite Hp, IH.
  - unfold Page.escape.
    change (String "%" (String ?h (String ?l "")) +:+ ?t)
      with (String "%" (String h (String l t))).
    cbn [decodeURIComponent]. change (Ascii.eqb "%" "%") with true.
    cbv iota.
    pose proof (nat_of_ascii_lt c) as Hc.
    rewrite !unhex_hex, IH.
    + rewrite <- Nat.div_mod_eq, ascii_nat_embedding. reflexivity.
    + apply Nat.mod_upper_bound. lia.
    + apply Nat.Div0.div_lt_upper_bound. lia.
Qed.

Lemma encode_no_sep (s : string) :
  no_sep (Page.encodeURIComponent s) = true.
Proof.
  induction s as [|c s IH]; [reflexivity|].
  cbn [Page.encodeURIComponent]. rewrite no_sep_app, IH, andb_true_r.
  destruct (Page.unreserved c) eqn:Hu.
  - destruct (unreserved_plain c Hu) as (_ & Hs). simpl. now rewrite Hs.
  - unfold Page.escape. pose proof (nat_of_ascii_lt c) as Hc.
    cbn [no_sep]. rewrite !hex_no_sep.
    + reflexivity.
    + apply Nat.mod_upper_bound. lia.
    + apply Nat.Div0.div_lt_upper_bound. lia.
Qed.

Lemma encode_nonempty (s : string) :
  s <> "" -> Page.encodeURIComponent s <> "".
Proof.
  destruct s as [|c s]; [contradiction|]. intros _.
  cbn [Page.encodeURIComponent].
  destruct (Page.unreserved c); discriminate.
Qed.

(** The path of a two-segment URL. *)
Lemma segments_two (a b : string) :
  a <> "" -> no_sep a = true -> b <> "" -> no_sep b = true ->
  segments ("/" +:+ a +:+ "/" +:+ b) = [a; b].
Proof.
  intros Ha Hsa Hb Hsb. unfold segments.
  change ("/" +:+ a +:+ "/" +:+ b) with (String "/" (a +:+ "/" +:+ b)).
  cbn [segments_from]. change (Ascii.eqb "/" "/") with true. cbv iota.
  change (String.eqb "" "") with true. cbv iota. cbn [app].
  assert (G : forall cur, no_sep a = true ->
              segments_from cur (a +:+ "/" +:+ b)
              = (if String.eqb (cur +:+ a) "" then [] else [cur +:+ a])
                ++ segments_from "" b).
  { clear Ha Hsa. induction a as [|c a IH]; intros cur Hs.
    - change ("" +:+ "/" +:+ b) with (String "/" b).
      cbn [segments_from]. change (Ascii.eqb "/" "/") with true. cbv iota.
      now rewrite append_nil_r.
    - simpl in Hs. apply andb_true_iff in Hs as (Hc & Hs).
      apply negb_true_iff in Hc.
      change (String c a +:+ "/" +:+ b) with (String c (a +:+ "/" +:+ b)).
      cbn [segments_from]. rewrite Hc, IH by assumption.
      now rewrite append_assoc. }
  rewrite G by assumption. change ("" +:+ a) with a.
  apply String.eqb_neq in Ha. rewrite Ha.
  rewrite segments_from_plain by assumption. change ("" +:+ b) with b.
  apply String.eqb_neq in Hb. now rewrite Hb.
Qed.

(** The request the download route receives for a click on the download
    button of the row named [fileName]. *)
Lemma download_routed (API_URL fileName : string) :
  fileName <> "" ->
  routed {| Client.call_method := GET; Client.call_origin := API_URL;
            Client.call_path :=
              "/download/" +:+ Page.encodeURIComponent fileName;
            Client.call_form := [] |} None
  = Some {| method := GET;
            path := "/download/" +:+ Page.encodeURIComponent fileName;
            url := ["download"; fileName]; file := None |}.
Proof.
  intros Hne. unfold routed. cbn [Client.call_path Client.call_method].
  change ("/download/" +:+ Page.encodeURIComponent fileName)
    with ("/" +:+ "download" +:+ "/" +:+ Page.encodeURIComponent fileName).
  rewrite segments_two;
    [|discriminate|reflexivity|now apply encode_nonempty|apply encode_no_sep].
  cbn [decode_all]. rewrite decode_encode.
  change (decodeURIComponent "download") with (Some "download").
  reflexivity.
Qed.

(** X20: download returns what was uploaded.  With a storage root spelled in
    normal form and not led by [.], after an upload answered 200 (with the
    stored name, the joined path and the clock's reading at the answer):
    the request the page's [downloadFile] sends for the name [savedAs] reaches
    the download route with that name, the service sends the file at the
    stored path, and the page hands the browser a file named [savedAs]
    whose bytes are the uploaded ones. *)
Theorem download_returns_uploaded_bytes (API_URL root : string)
        (req : request) (f : multer.file) (w : world) (d : string)
        (b m : Z) (p : Page.dom) :
  let name := savedAs (fs.clock w) f in
  let filePath := path.join [root; name] in
  path.normalize root = root -> dot_led root = false ->
  file req = Some f ->
  JS.endsWith (multer.originalname f) ".csv" = true ->
  no_sep (multer.originalname f) = true ->
  0 <= fs.clock w ->
  fs.entry (multer.path f) w = Some (fs.File d b m) ->
  is_dir (fs.entry root w) = true ->
  is_dir (fs.disk w !! filePath) = false ->
  fs.key (multer.path f) <> filePath ->
  hd false (fs.io_errors w) = false ->
  hd false (tl (fs.io_errors w)) = false ->
  exists (w' : world) (got : request) (r : response),
    handleUpload root req w
    = (Return (Answer 200
                 (JObj [("success", JBool true);
                        ("message", JStr "File uploaded successfully");
                        ("fileName", JStr (multer.originalname f));
                        ("savedAs", JStr name);
                        ("size", JNum (multer.size f));
                        ("path", JStr filePath);
                        ("uploadedAt", JTime (fs.clock w'))])), w')
    /\ let p1 := Page.downloadFile API_URL name p in
       (exists c : Client.call,
           Client.sent (Page.ui p1) = Client.sent (Page.ui p) ++ [c]
           /\ routed c None = Some got)
       /\ url got = ["download"; name]
       /\ app root got w' = (Return r, w')
       /\ res_download r w' = Some (200, d)
       /\ let p2 := Page.downloadFile_settled name
                      (Page.replied 200 (Some d)) p1 in
          Page.saved p2 = Page.saved p ++ [(name, d)]
          /\ Client.toast (Page.ui p2)
             = Some ("File downloaded successfully", "success").
Proof.
  intros name filePath Hn Hdot Hf Hcsv Hsep Hclock Htemp Hroot Hdest Hdiff
         Hio1 Hio2.
  destruct (is_dir_entry root w Hroot) as (Hne & Hrd).
  destruct (stored_name_plain (fs.clock w) (multer.originalname f) Hclock Hsep)
    as (c & s & Hname & Hc & Hs).
  fold (savedAs (fs.clock w) f) in Hname. fold name in Hname.
  destruct (stored_path root c s Hne Hc Hs) as (Hp0 & Htr & Hkey & Hdn & Hbn).
  pose proof (guard_passes root (String c s) Hn Hdot
                (plain_name_normal c s Hc Hs)) as Hguard.
  rewrite <- Hname in Hp0, Htr, Hkey, Hdn, Hbn, Hguard.
  fold filePath in Hp0, Htr, Hkey, Hdn, Hbn, Hguard.
  destruct (handleUpload_run root req f w d b m Hf Hcsv Htemp Hio1 Hio2)
    as (b' & Hrun).
  { exact Hp0. } { exact Htr. }
  { fold (savedAs (fs.clock w) f). fold name filePath. now rewrite Hkey, Hdn. }
  { fold (savedAs (fs.clock w) f). fold name filePath. now rewrite Hkey. }
  { fold (savedAs (fs.clock w) f). fold name filePath. now rewrite Hkey. }
  fold (savedAs (fs.clock w) f) in Hrun. fold name filePath in Hrun.
  rewrite Hkey in Hrun.
  set (m' := (fs.io_time w).1) in Hrun.
  set (w' := with_disk _ _) in Hrun.
  assert (Hstored : fs.entry filePath w' = Some (fs.File d b' m')).
  { unfold fs.entry. apply String.eqb_neq in Hp0. rewrite Hp0, Hkey.
    unfold w'. simpl fs.disk. rewrite lookup_delete_ne by assumption.
    now rewrite lookup_insert_eq, Htr. }
  assert (Hnn : name <> "") by (rewrite Hname; discriminate).
  exists w'. eexists _, (Download filePath).
  split; [exact Hrun|]. cbv zeta.
  split; [eexists; split; [reflexivity|apply (download_routed API_URL name Hnn)]|].
  split; [reflexivity|]. split.
  - unfold app. cbn [method url].
    change (lit "download" "files") with false.
    change (lit "download" "download") with true. cbv iota.
    unfold downloadFile, try_catch. fold filePath. rewrite Hguard.
    cbn [negb]. unfold mbind, M_bind, fs.existsSync.
    rewrite Hstored, bool_decide_eq_true_2 by eauto. reflexivity.
  - split; [unfold res_download; now rewrite Hstored|].
    split; reflexivity.
Qed.

Lemma download_returns_uploaded_bytes_witness :
  exists (w' : world) (got : request) (r : response),
    answered (handleUpload "uploads" csv_upload csv_world) = Some 200
    /\ url got = ["download"; "1705324245123-sales.csv"]
    /\ app "uploads" got w' = (Return r, w')
    /\ res_download r w' = Some (200, "a,b 1,2").
Proof.
  destruct (download_returns_uploaded_bytes "http://localhost:3000" "uploads"
              csv_upload csv_part csv_world "a,b 1,2"
              1705324245000 1705324245000 Page.loaded)
    as (w' & got & r & H1 & H2).
  - reflexivity.
  - reflexivity.
  - reflexivity.
  - vm_compute; reflexivity.
  - vm_compute; reflexivity.
  - vm_compute; discriminate.
  - vm_compute; reflexivity.
  - vm_compute; reflexivity.
  - vm_compute; reflexivity.
  - vm_compute; discriminate.
  - reflexivity.
  - reflexivity.
  - cbv zeta in H2. destruct H2 as (_ & H3 & H4 & H5 & _).
    exists w', got, r. split; [now rewrite H1|].
    split; [exact H3|]. split; [exact H4|exact H5].
Defined.
